(** * Position lifecycle engine of [bot.py]

    A shallow embedding of the trading thread of [bot.py]: the [positions]
    table, the exchange and Telegram helpers, [market_buy], [market_sell]
    and the body of [trading_loop], followed by the properties of the
    engine that the specification states.

    Conventions of the embedding.
    - A Python float or a SQLite REAL is read as the rational it denotes
      ([Q]); comparisons are exact, as they are on doubles, and a product
      or a difference of floats is rounded to the nearest double, ties to
      even ([round_double]).  Infinities and NaN are outside the model: the
      floats that come in are finite, and a result beyond the largest
      double stays a rational beyond it, which compares with every double
      as the infinity does.
    - Everything the thread reads from outside during one pass of
      [while True] is gathered in a record [env]: the HTTP answers, the
      clock, and the module globals that the webhook thread may rewrite
      ([bot_running], [BUY_USDT_AMOUNT], [TARGET_MULTIPLIER]).  A run of
      the loop is driven by a list of such records, one per pass.
    - Everything the thread does to the outside is appended to a [trace]:
      HTTP requests, Telegram messages and sleeps.
    - An uncaught Python exception is the result [Raise]; the state reached
      when it was raised is kept, as committed rows are. *)

From Stdlib Require Import List String Ascii Bool Arith ZArith QArith Qminmax
  Qabs Qpower Lia Lqa Floats.
Import ListNotations.

Local Open Scope list_scope.

(** ** Floats *)

(** [floor (log2 x)] for a rational [0 < x]: the exponent of the binade
    that holds [x]. *)
Definition floor_log2 (x : Q) : Z :=
  let e := (Z.log2 (Qnum x) - Z.log2 (Zpos (Qden x)))%Z in
  if Qle_bool (2 ^ e) x then e else (e - 1)%Z.

(** The integer nearest to [x], the even one of the two when [x] lies
    half way. *)
Definition round_half_even (x : Q) : Z :=
  let n := Qnum x in
  let d := Zpos (Qden x) in
  let k := (n / d)%Z in
  match (2 * (n mod d) ?= d)%Z with
  | Lt => k
  | Gt => (k + 1)%Z
  | Eq => if Z.even k then k else (k + 1)%Z
  end.

(** The doubles around [x] are spaced by [2 ^ ulp_exponent x]: 53
    significant bits, and below [2^-1022] the fixed spacing [2^-1074] of
    the subnormals. *)
Definition ulp_exponent (x : Q) : Z :=
  (Z.max (floor_log2 (Qabs x)) (-1022) - 52)%Z.

(** The double nearest to [x] (IEEE 754 binary64, round to nearest, ties
    to even). *)
Definition round_double (x : Q) : Q :=
  if Qeq_bool x 0 then 0
  else
    let q := ulp_exponent x in
    inject_Z (round_half_even (x / 2 ^ q)) * 2 ^ q.

(** [a * b] and [a - b] on floats. *)
Definition float_mul (a b : Q) : Q := round_double (a * b).
Definition float_sub (a b : Q) : Q := round_double (a - b).

Arguments round_double : simpl never.
Arguments float_mul : simpl never.
Arguments float_sub : simpl never.

(** The value of a primitive float of the kernel, which is a binary64 as
    Python's is; [None] for an infinity or a NaN. *)
Definition Q_of_float (f : float) : option Q :=
  match Prim2SF f with
  | S754_zero _ => Some 0
  | S754_finite s m e =>
      Some ((if s then -1 else 1) * inject_Z (Zpos m) * 2 ^ e)
  | S754_infinity _ | S754_nan => None
  end.

(** [opq], on the values of [a] and [b], gives the value of [op a b]. *)
Definition agrees (op : float -> float -> float) (opq : Q -> Q -> Q)
    (ab : float * float) : bool :=
  match Q_of_float (fst ab), Q_of_float (snd ab),
        Q_of_float (op (fst ab) (snd ab)) with
  | Some x, Some y, Some z => Qeq_bool (opq x y) z
  | _, _, _ => false
  end.

(** ** 1. CONFIG *)

Definition INTERVAL : string := "1m"%string.
Definition CANDLE_LIMIT : Z := 5.
Definition CHECK_INTERVAL : Z := 20.
Definition SELL_TIMEOUT : Q := inject_Z (7 * 60).
(** The literal [0.15] is the double nearest to 15/100. *)
Definition TRAIL_PERCENT : Q := round_double (15 # 100).

Arguments TRAIL_PERCENT : simpl never.

(** ** 2. DATABASE *)

(** One row of the table [positions]; [symbol] is its PRIMARY KEY. *)
Record position : Type := mkPosition {
  symbol : string;
  qty : Q;
  entry_price : Q;
  entry_time : Q;
  high_price : Q
}.

(** The table in rowid order, the order in which [SELECT *] returns it. *)
Definition table : Type := list position.

Definition has_symbol (s : string) (r : position) : bool :=
  String.eqb (symbol r) s.

(** [INSERT OR REPLACE INTO positions VALUES (...)]: the row holding the
    same key is removed and the new row gets a fresh rowid. *)
Definition INSERT_OR_REPLACE (r : position) (t : table) : table :=
  filter (fun x => negb (has_symbol (symbol r) x)) t ++ [r].

Definition set_high_price (p : Q) (r : position) : position :=
  mkPosition (symbol r) (qty r) (entry_price r) (entry_time r) p.

(** [UPDATE positions SET high_price=? WHERE symbol=?] *)
Definition UPDATE_high_price (p : Q) (s : string) (t : table) : table :=
  map (fun x => if has_symbol s x then set_high_price p x else x) t.

(** [DELETE FROM positions WHERE symbol=?] *)
Definition DELETE (s : string) (t : table) : table :=
  filter (fun x => negb (has_symbol s x)) t.

(** [SELECT * FROM positions] followed by [fetchall()] *)
Definition SELECT_all (t : table) : table := t.

(** The row [SELECT ... FROM positions WHERE symbol=?] finds, if any. *)
Definition SELECT_one (s : string) (t : table) : option position :=
  find (has_symbol s) t.

(** [SELECT qty FROM positions WHERE symbol=?] followed by [fetchone()] *)
Definition SELECT_qty (s : string) (t : table) : option Q :=
  option_map qty (SELECT_one s t).

(** The PRIMARY KEY constraint of the table. *)
Definition primary_key (t : table) : Prop := NoDup (map symbol t).

(** ** Requests, answers and the trace *)

Inductive reason : Type := TARGET | TRAIL | TIMEOUT.

Inductive get_request : Type :=
| exchangeInfo
| klines (s : string) (interval : string) (limit : Z)
| ticker_price (s : string).

Record symbol_info : Type := mkSymbolInfo {
  info_symbol : string;
  info_status : string
}.

(** Of a candle only [c[1]] (open) and [c[4]] (close) are read; both are
    the strings of the JSON body. *)
Record candle : Type := mkCandle {
  candle_open : string;
  candle_close : string
}.

(** The decoded bodies the three GET endpoints answer with. *)
Inductive json : Type :=
| ExchangeInfoBody (symbols : list symbol_info)
| KlinesBody (candles : list candle)
| TickerBody (price : Q).

Inductive order : Type :=
| MarketBuy (s : string) (quoteOrderQty : Q)
| MarketSell (s : string) (quantity : Q).

(** The decoded body of [POST /api/v3/order], with the three keys that
    [market_buy] looks at; each of them may be missing. *)
Record order_body : Type := mkOrderBody {
  orderId : option Z;
  executedQty : option Q;
  fills : option (list Q)
}.

Inductive exn : Type := TypeError | KeyError | IndexError | RequestException.

Inductive outcome (A : Type) : Type :=
| Returns (a : A)
| Throws (e : exn).
Arguments Returns {A} a.
Arguments Throws {A} e.

Inductive message : Type :=
| BotLive
| BuyFailed (s : string) (data : order_body)
| BuyExecuted (s : string) (q price : Q)
| SellExecuted (why : reason) (s : string) (data : order_body).

Inductive event : Type :=
| Get (r : get_request)
| Post (o : order)
| Telegram (text : message)
| Sleep (seconds : Z).

(** The two places where the thread reads [time.time()]. *)
Inductive clock_read : Type :=
| AtBuy (s : string)
| AtTimeoutCheck (s : string).

Record env : Type := mkEnv {
  bot_running : bool;
  BUY_USDT_AMOUNT : Q;
  TARGET_MULTIPLIER : Q;
  (** [None]: [requests.get], [raise_for_status] or [r.json()] raised. *)
  http_get : get_request -> option json;
  http_post : order -> outcome order_body;
  time_time : clock_read -> Q
}.

Record state : Type := mkState {
  positions : table;
  known : list string;
  trace : list event
}.

(** ** The monad of the thread: state and exceptions *)

Inductive result (A : Type) : Type :=
| Ok (a : A)
| Raise (e : exn).
Arguments Ok {A} a.
Arguments Raise {A} e.

Definition M (A : Type) : Type := state -> result A * state.

Definition ret {A} (a : A) : M A := fun st => (Ok a, st).

Definition raise {A} (e : exn) : M A := fun st => (Raise e, st).

Definition bind {A B} (c : M A) (k : A -> M B) : M B :=
  fun st =>
    match c st with
    | (Ok a, st') => k a st'
    | (Raise e, st') => (Raise e, st')
    end.

Declare Scope monad_scope.
Delimit Scope monad_scope with monad.
Notation "x <- c ;; k" := (bind c (fun x => k))
  (at level 61, c at next level, right associativity) : monad_scope.
Notation "c ;; k" := (bind c (fun _ => k))
  (at level 61, right associativity) : monad_scope.
Local Open Scope monad_scope.

Fixpoint for_each {A} (body : A -> M unit) (l : list A) : M unit :=
  match l with
  | [] => ret tt
  | x :: l' => body x ;; for_each body l'
  end.

Definition emit (e : event) : M unit :=
  fun st => (Ok tt, mkState (positions st) (known st) (trace st ++ [e])).

(** [cur.execute(...); conn.commit()] for a statement that writes. *)
Definition execute (stmt : table -> table) : M unit :=
  fun st => (Ok tt, mkState (stmt (positions st)) (known st) (trace st)).

(** [cur.execute(...)] for a SELECT. *)
Definition query {A} (stmt : table -> A) : M A :=
  fun st => (Ok (stmt (positions st)), st).

Definition get_known : M (list string) := fun st => (Ok (known st), st).

Definition set_known (k : list string) : M unit :=
  fun st => (Ok tt, mkState (positions st) k (trace st)).

Definition sleep (seconds : Z) : M unit := emit (Sleep seconds).

(** The state a computation ends in, and what it added to the trace. *)
Definition final {A} (c : M A) (st : state) : state := snd (c st).

Definition events_of {A} (c : M A) (st : state) : list event :=
  skipn (List.length (trace st)) (trace (final c st)).

(** ** Python helpers *)

(** [s.endswith(suffix)] *)
Definition endswith (s suffix : string) : bool :=
  let n := String.length s in
  let m := String.length suffix in
  (m <=? n)%nat && String.eqb (substring (n - m) m s) suffix.

(** [x in l] for a set of strings. *)
Definition mem (x : string) (l : list string) : bool :=
  existsb (String.eqb x) l.

(** [a > b] on floats. *)
Definition Qlt_bool (b a : Q) : bool := negb (Qle_bool a b).

(** Truth value of a decoded body: a dict with keys is true, a list is
    true when it is not empty. *)
Definition truthy (j : option json) : bool :=
  match j with
  | None => false
  | Some (KlinesBody []) => false
  | Some _ => true
  end.

(** [info["symbols"]] *)
Definition subscript_symbols (j : option json) : M (list symbol_info) :=
  match j with
  | Some (ExchangeInfoBody l) => ret l
  | Some (TickerBody _) => raise KeyError
  | Some (KlinesBody _) | None => raise TypeError
  end.

(** [float(j["price"])] *)
Definition subscript_price (j : option json) : M Q :=
  match j with
  | Some (TickerBody p) => ret p
  | Some (ExchangeInfoBody _) => raise KeyError
  | Some (KlinesBody _) | None => raise TypeError
  end.

(** [float(data["fills"][0]["price"])], for a body as the exchange
    documents it: [fills], when present, is a list of objects that each
    hold a price [float] reads.  A first fill without a price, a [fills]
    that is no list, or a price or an executed quantity that [float]
    refuses would raise at lines 128 and 129 too; such bodies have no
    counterpart in [order_body]. *)
Definition first_fill_price (data : order_body) : M Q :=
  match fills data with
  | None => raise KeyError
  | Some [] => raise IndexError
  | Some (p :: _) => ret p
  end.

(** [s["status"] == "TRADING" and s["symbol"].endswith("USDT")] *)
Definition tradable_usdt (i : symbol_info) : bool :=
  String.eqb (info_status i) "TRADING" && endswith (info_symbol i) "USDT".

(** The set comprehension over [info["symbols"]].  The set is kept as a
    list without duplicates in the order of the listing; Python walks a
    set in hash order, so the order in which [for symbol in new] visits
    the symbols is not the one of the code, while membership is. *)
Definition tradable_symbols (listed : list symbol_info) : list string :=
  nodup string_dec (map info_symbol (filter tradable_usdt listed)).

(** [symbols - known] *)
Definition difference (symbols old : list string) : list string :=
  filter (fun s => negb (mem s old)) symbols.

(** [c[1] == c[4]], a comparison of two strings. *)
Definition flat (c : candle) : bool :=
  String.eqb (candle_open c) (candle_close c).

(** [candles and all(c[1] == c[4] for c in candles)].  A body of another
    shape is a dict, which [all] walks by its keys: these are not candles
    and the body is not taken as flat. *)
Definition all_flat (j : option json) : bool :=
  match j with
  | Some (KlinesBody (c :: l)) => forallb flat (c :: l)
  | _ => false
  end.

Section Engine.

(** What the thread reads from outside during this pass of the loop. *)
Variable w : env.

(** ** 3. TELEGRAM *)

(** Whatever [requests.post] raises is caught and printed. *)
Definition send_telegram (text : message) : M unit :=
  emit (Telegram text).

(** ** 4. MEXC HELPERS *)

Definition mexc_get (r : get_request) : M (option json) :=
  emit (Get r) ;;
  ret (http_get w r).

Definition mexc_post (o : order) : M order_body :=
  emit (Post o) ;;
  match http_post w o with
  | Returns data => ret data
  | Throws e => raise e
  end.

(** ** 5. TRADING ACTIONS *)

Definition market_buy (s : string) : M unit :=
  data <- mexc_post (MarketBuy s (BUY_USDT_AMOUNT w)) ;;
  match orderId data with
  | None => send_telegram (BuyFailed s data)
  | Some _ =>
      let q := match executedQty data with Some q => q | None => 0 end in
      price <- first_fill_price data ;;
      execute (INSERT_OR_REPLACE
                 (mkPosition s q price (time_time w (AtBuy s)) price)) ;;
      send_telegram (BuyExecuted s q price)
  end.

Definition market_sell (s : string) (why : reason) : M unit :=
  row <- query (SELECT_qty s) ;;
  match row with
  | None => ret tt
  | Some q =>
      data <- mexc_post (MarketSell s q) ;;
      execute (DELETE s) ;;
      send_telegram (SellExecuted why s data)
  end.

(** ** 7. BACKGROUND TRADER *)

(** The body of [for symbol in new]. *)
Definition discover (s : string) : M unit :=
  candles <- mexc_get (klines s INTERVAL CANDLE_LIMIT) ;;
  if all_flat candles then market_buy s else ret tt.

(** The body of [for s, q, entry, t, high in rows]. *)
Definition monitor_row (r : position) : M unit :=
  let s := symbol r in
  let entry := entry_price r in
  let t := entry_time r in
  j <- mexc_get (ticker_price s) ;;
  price <- subscript_price j ;;
  high <- (if Qlt_bool (high_price r) price
           then execute (UPDATE_high_price price s) ;; ret price
           else ret (high_price r)) ;;
  if Qle_bool (float_mul entry (TARGET_MULTIPLIER w)) price then
    market_sell s TARGET
  else if Qle_bool price (float_mul high (float_sub 1 TRAIL_PERCENT)) then
    market_sell s TRAIL
  else if Qle_bool SELL_TIMEOUT
            (float_sub (time_time w (AtTimeoutCheck s)) t) then
    market_sell s TIMEOUT
  else ret tt.

(** Lines 269 to 283: the rows are read once, then walked. *)
Definition monitor : M unit :=
  rows <- query SELECT_all ;;
  for_each monitor_row rows.

(** One pass of [while True]. *)
Definition iteration : M unit :=
  if negb (bot_running w) then sleep 2
  else
    info <- mexc_get exchangeInfo ;;
    if negb (truthy info) then sleep 5
    else
      listed <- subscript_symbols info ;;
      let symbols := tradable_symbols listed in
      old <- get_known ;;
      let new := difference symbols old in
      set_known symbols ;;
      for_each discover new ;;
      monitor ;;
      sleep CHECK_INTERVAL.

End Engine.

(** [while True] run for as many passes as [ws] has entries; [Ok] means
    the thread is still alive after them. *)
Definition passes (ws : list env) : M unit := for_each iteration ws.

Definition trading_loop (ws : list env) : M unit :=
  set_known [] ;;
  send_telegram BotLive ;;
  passes ws.

(** ** 6. FLASK APP (WSGI) *)

(** The three module globals that [telegram_webhook] declares [global]
    and that the trading thread reads. *)
Record globals : Type := mkGlobals {
  g_bot_running : bool;
  g_BUY_USDT_AMOUNT : Q;
  g_TARGET_MULTIPLIER : Q
}.

(** [update["message"]], with the two keys the handler reads: the chat id
    under [msg["chat"]["id"]], which may be missing, and [msg.get("text")].
    The message is taken as Telegram sends it: an object, whose chat, when
    present, is an object and whose text, when present, is a string.  A
    text of another type (a JSON null, a number) would make [.strip()]
    raise at line 176, and a message or a chat that is not an object
    would make line 175 raise; such requests have no counterpart here. *)
Record tg_message : Type := mkMessage {
  msg_chat_id : option Z;
  msg_text : option string
}.

(** The texts the handler sends back. *)
Inductive reply : Type :=
| HelpText
| StatusText (running : bool) (buy target : Q) (count : nat)
| NoOpenPositions
| OpenPositions (lines : list (string * Q * Q))
| BotPaused
| BotResumed
| BuyAmountSet (amount : Q)
| BuyUsage
| TargetSet (x : Q)
| TargetUsage.

(** [send_telegram(text, chat_id)]: a chat id that is false (0) makes it
    fall back on CHAT_ID. *)
Inductive recipient : Type :=
| OperatorChat
| Chat (id : Z).

Definition addressed (chat_id : Z) : recipient :=
  if Z.eqb chat_id 0 then OperatorChat else Chat chat_id.

(** What one call of the handler leaves: the answer of the route ("OK",
    or an uncaught exception), the globals, and the messages sent. *)
Record handled : Type := mkHandled {
  answer : result unit;
  globals_after : globals;
  sent : list (recipient * reply)
}.

(** [s.startswith(p)] *)
Definition startswith (s p : string) : bool := String.prefix p s.

Section Webhook.

(** Python's [str.strip], [str.split] and [float] are taken as they are:
    the handler is modelled over any three functions of their types,
    [float] answering [None] where Python raises. *)
Variable strip : string -> string.
Variable split : string -> list string.
Variable float : string -> option Q.

(** [float(text.split()[1])], [None] when the subscript or [float]
    raises: the bare [except] catches both. *)
Definition argument (text : string) : option Q :=
  match nth_error (split text) 1 with
  | Some a => float a
  | None => None
  end.

(** [update] is [None] when the request holds no JSON, a false value, or
    no "message" key. *)
Definition telegram_webhook
    (update : option tg_message) (g : globals) (t : table) : handled :=
  match update with
  | None => mkHandled (Ok tt) g []
  | Some msg =>
      match msg_chat_id msg with
      | None => mkHandled (Raise KeyError) g []
      | Some chat_id =>
          let text :=
            strip (match msg_text msg with Some s => s | None => EmptyString end)
          in
          let to := addressed chat_id in
          if String.eqb text "/help" then
            mkHandled (Ok tt) g [(to, HelpText)]
          else if String.eqb text "/status" then
            mkHandled (Ok tt) g
              [(to, StatusText (g_bot_running g) (g_BUY_USDT_AMOUNT g)
                      (g_TARGET_MULTIPLIER g) (List.length t))]
          else if String.eqb text "/positions" then
            match SELECT_all t with
            | [] => mkHandled (Ok tt) g [(to, NoOpenPositions)]
            | rows =>
                mkHandled (Ok tt) g
                  [(to, OpenPositions
                          (map (fun r => (symbol r, qty r, entry_price r))
                               rows))]
            end
          else if String.eqb text "/pause" then
            mkHandled (Ok tt)
              (mkGlobals false (g_BUY_USDT_AMOUNT g) (g_TARGET_MULTIPLIER g))
              [(to, BotPaused)]
          else if String.eqb text "/resume" then
            mkHandled (Ok tt)
              (mkGlobals true (g_BUY_USDT_AMOUNT g) (g_TARGET_MULTIPLIER g))
              [(to, BotResumed)]
          else if startswith text "/setbuy" then
            match argument text with
            | Some amount =>
                mkHandled (Ok tt)
                  (mkGlobals (g_bot_running g) amount (g_TARGET_MULTIPLIER g))
                  [(to, BuyAmountSet amount)]
            | None => mkHandled (Ok tt) g [(to, BuyUsage)]
            end
          else if startswith text "/settarget" then
            match argument text with
            | Some x =>
                mkHandled (Ok tt)
                  (mkGlobals (g_bot_running g) (g_BUY_USDT_AMOUNT g) x)
                  [(to, TargetSet x)]
            | None => mkHandled (Ok tt) g [(to, TargetUsage)]
            end
          else mkHandled (Ok tt) g []
      end
  end.

End Webhook.

(** A pass of the trading thread that reads the globals as the handler
    left them. *)
Definition reading (g : globals) (w : env) : env :=
  mkEnv (g_bot_running g) (g_BUY_USDT_AMOUNT g) (g_TARGET_MULTIPLIER g)
    (http_get w) (http_post w) (time_time w).

(** *** Stand-ins for the three built-ins in the worked examples: they
    agree with Python on printable ASCII texts and unsigned integers. *)

Definition is_space (c : ascii) : bool := Ascii.eqb c " ".

Fixpoint lstrip_chars (l : list ascii) : list ascii :=
  match l with
  | c :: l' => if is_space c then lstrip_chars l' else l
  | [] => []
  end.

Definition sample_strip (s : string) : string :=
  string_of_list_ascii
    (rev (lstrip_chars (rev (lstrip_chars (list_ascii_of_string s))))).

(** [acc] holds the current word, reversed. *)
Fixpoint split_chars (acc : list ascii) (l : list ascii) : list string :=
  match l with
  | [] => match acc with
          | [] => []
          | _ => [string_of_list_ascii (rev acc)]
          end
  | c :: l' =>
      if is_space c then
        match acc with
        | [] => split_chars [] l'
        | _ => string_of_list_ascii (rev acc) :: split_chars [] l'
        end
      else split_chars (c :: acc) l'
  end.

Definition sample_split (s : string) : list string :=
  split_chars [] (list_ascii_of_string s).

Definition digit_value (c : ascii) : option Z :=
  let n := nat_of_ascii c in
  if ((48 <=? n) && (n <=? 57))%nat then Some (Z.of_nat (n - 48)) else None.

Fixpoint digits_value (acc : Z) (l : list ascii) : option Z :=
  match l with
  | [] => Some acc
  | c :: l' =>
      match digit_value c with
      | Some d => digits_value (10 * acc + d) l'
      | None => None
      end
  end.

Definition sample_float (s : string) : option Q :=
  match list_ascii_of_string s with
  | [] => None
  | l => option_map inject_Z (digits_value 0 l)
  end.

Definition defaults : globals := mkGlobals true 1 10.

(** ** Vocabulary of the statements *)

(** A request to the exchange, as opposed to a message or a sleep. *)
Definition gateway_call (e : event) : bool :=
  match e with
  | Get _ | Post _ => true
  | Telegram _ | Sleep _ => false
  end.

(** A BUY order for [s]. *)
Definition is_buy_of (s : string) (e : event) : bool :=
  match e with
  | Post (MarketBuy s' _) => String.eqb s' s
  | _ => false
  end.

(** The symbol a discovery request is about: the candle request and the
    BUY order. *)
Definition discovered (e : event) : option string :=
  match e with
  | Get (klines s _ _) | Post (MarketBuy s _) => Some s
  | _ => None
  end.

Definition concerning (ok : string -> Prop) (e : event) : Prop :=
  forall s, discovered e = Some s -> ok s.

(** The state [monitor_row] is in once the price [p] of row [r] is
    fetched and the high-water mark written: lines 271 to 276. *)
Definition after_price_check (r : position) (p : Q) (st : state) : state :=
  mkState
    (if Qlt_bool (high_price r) p
     then UPDATE_high_price p (symbol r) (positions st)
     else positions st)
    (known st)
    (trace st ++ [Get (ticker_price (symbol r))]).

(** Lines 273 to 276: the high-water mark [h] once the price [p] is seen. *)
Definition high_water (h p : Q) : Q := if Qlt_bool h p then p else h.

(** The price of [s] that the monitor step of a pass reads, if the pass
    gets as far as the monitor step. *)
Definition observed (w : env) (s : string) : list Q :=
  if bot_running w then
    match http_get w exchangeInfo with
    | Some (ExchangeInfoBody _) =>
        match http_get w (ticker_price s) with
        | Some (TickerBody p) => [p]
        | _ => []
        end
    | _ => []
    end
  else [].

Definition observations (s : string) (ws : list env) : list Q :=
  flat_map (fun w => observed w s) ws.

(** What the walk over the rows read at line 269 does to the row of [s]. *)
Definition monitored (w : env) (s : string) (before after : option position)
  : Prop :=
  match before with
  | None => after = None
  | Some r =>
      exists p,
        http_get w (ticker_price s) = Some (TickerBody p) /\
        (after = None \/
         after = Some (set_high_price (high_water (high_price r) p) r))
  end.

(** No row has its mark below its entry price. *)
Definition above_entry (t : table) : Prop :=
  Forall (fun r => entry_price r <= high_price r) t.

(** The operations of the engine on the store, each in some environment. *)
Inductive engine_op : Type :=
| OpenPosition (w : env) (s : string)
| ClosePosition (w : env) (s : string) (why : reason)
| Pass (w : env).

Definition run_op (o : engine_op) : M unit :=
  match o with
  | OpenPosition w s => market_buy w s
  | ClosePosition w s why => market_sell w s why
  | Pass w => iteration w
  end.

Definition run_ops (ops : list engine_op) : M unit := for_each run_op ops.

(** What the monitor step may send out for a table whose symbols are
    [symbols]: a price request or a SELL order about one of them, or a
    message. *)
Definition monitor_event (symbols : list string) (e : event) : Prop :=
  match e with
  | Get (ticker_price s) | Post (MarketSell s _) => In s symbols
  | Telegram _ => True
  | _ => False
  end.

(** ** Relations between the state before and the state after *)

(** [R] relates the state before a computation to the state after it,
    whether the computation returns or raises. *)
Definition respects (R : state -> state -> Prop) {A} (c : M A) : Prop :=
  forall st, R st (final c st).

Class StepOrder (R : state -> state -> Prop) : Prop := {
  step_refl : forall st, R st st;
  step_trans : forall a b c, R a b -> R b c -> R a c
}.

(** [R] holds across every write to the store and across the emission of
    every event that [allowed] admits. *)
Class EngineRelation (allowed : event -> Prop) (R : state -> state -> Prop)
  : Prop := {
  step_order :: StepOrder R;
  step_emit : forall e, allowed e -> respects R (emit e);
  step_insert : forall r, respects R (execute (INSERT_OR_REPLACE r));
  step_update : forall p s, respects R (execute (UPDATE_high_price p s));
  step_delete : forall s, respects R (execute (DELETE s))
}.

(** The trace only grows. *)
Definition grows (st st' : state) : Prop :=
  exists l, trace st' = trace st ++ l.

(** The trace grows by events that all satisfy [P]. *)
Definition adds (P : event -> Prop) (st st' : state) : Prop :=
  exists l, trace st' = trace st ++ l /\ Forall P l.

(** The known set is left as it is. *)
Definition same_known (st st' : state) : Prop := known st' = known st.

(** The PRIMARY KEY constraint, once true, stays true. *)
Definition keeps_key (st st' : state) : Prop :=
  primary_key (positions st) -> primary_key (positions st').

(** The two invariants of the table, once true, stay true. *)
Definition keeps_marks (st st' : state) : Prop :=
  primary_key (positions st) /\ above_entry (positions st) ->
  primary_key (positions st') /\ above_entry (positions st').

(** No symbol leaves the table. *)
Definition keeps_symbols (st st' : state) : Prop :=
  forall s, In s (map symbol (positions st)) ->
            In s (map symbol (positions st')).

(** The row of [s] is as it was. *)
Definition kept (s : string) (st st' : state) : Prop :=
  SELECT_one s (positions st') = SELECT_one s (positions st).

(** The row of [s] is as it was unless a BUY for [s] went out. *)
Definition unless_bought (s : string) (st st' : state) : Prop :=
  exists l,
    trace st' = trace st ++ l /\
    (existsb (is_buy_of s) l = false -> kept s st st').

(** The exchange fills a BUY for [s] in this pass: the body has an
    [orderId] and a first fill, so that [market_buy] writes the row. *)
Definition fills_order (w : env) (s : string) : bool :=
  match http_post w (MarketBuy s (BUY_USDT_AMOUNT w)) with
  | Returns d =>
      match orderId d, fills d with
      | Some _, Some (_ :: _) => true
      | _, _ => false
      end
  | Throws _ => false
  end.

(** One of the passes [ws], run from [st], posts a BUY for [s] that the
    exchange fills. *)
Fixpoint bought_again (s : string) (ws : list env) (st : state) : bool :=
  match ws with
  | [] => false
  | w :: ws' =>
      (existsb (is_buy_of s) (events_of (iteration w) st) && fills_order w s)
      || bought_again s ws' (final (iteration w) st)
  end.

(** A SELL order for [s]. *)
Definition is_sell_of (s : string) (e : event) : bool :=
  match e with
  | Post (MarketSell s' _) => String.eqb s' s
  | _ => false
  end.

(** ** Inputs of the worked examples *)

Definition AAA : string := "AAAUSDT"%string.
Definition BBB : string := "BBBUSDT"%string.

Definition held (s : string) (entry : Q) : position :=
  mkPosition s 1 entry 0 entry.

(** The thread starts on the table the database file holds. *)
Definition at_start (t : table) : state := mkState t [] [].

Definition two_positions : state :=
  mkState [held AAA 100; held BBB 100] [AAA; BBB] [].

Definition listing : json :=
  ExchangeInfoBody [mkSymbolInfo AAA "TRADING"; mkSymbolInfo BBB "TRADING"].

Definition filled (q price : Q) : order_body :=
  mkOrderBody (Some 7%Z) (Some q) (Some [price]).

(** The exchange answers everything; the candles are not flat, every
    price is [p], the clock reads [now]. *)
Definition calm (p now : Q) : env :=
  mkEnv true 1 10
    (fun r => match r with
              | exchangeInfo => Some listing
              | klines _ _ _ => Some (KlinesBody [mkCandle "1" "2"])
              | ticker_price _ => Some (TickerBody p)
              end)
    (fun _ => Returns (filled 1 p))
    (fun _ => now).

(** As [calm 100 60], but the price request of [AAA] fails. *)
Definition ticker_down : env :=
  mkEnv true 1 10
    (fun r => match r with
              | ticker_price s => if String.eqb s AAA then None
                                  else Some (TickerBody 100)
              | _ => http_get (calm 100 60) r
              end)
    (fun _ => Returns (filled 1 100))
    (fun _ => 60).

(** As [calm 1000 60], but [requests.post] raises for a SELL. *)
Definition sell_down : env :=
  mkEnv true 1 10
    (http_get (calm 1000 60))
    (fun o => match o with
              | MarketSell _ _ => Throws RequestException
              | MarketBuy _ _ => Returns (filled 1 1000)
              end)
    (fun _ => 60).

(** A fresh listing: [AAA] is tradable against USDT and against BTC, its
    candles are flat, a BUY fills at [p]. *)
Definition fresh_listing (p now : Q) : env :=
  mkEnv true 1 10
    (fun r => match r with
              | exchangeInfo =>
                  Some (ExchangeInfoBody
                          [mkSymbolInfo AAA "TRADING";
                           mkSymbolInfo "AAABTC" "TRADING";
                           mkSymbolInfo BBB "BREAK"])
              | klines _ _ _ =>
                  Some (KlinesBody [mkCandle "1" "1"; mkCandle "1" "1"])
              | ticker_price _ => Some (TickerBody p)
              end)
    (fun _ => Returns (filled 2 p))
    (fun _ => now).

(** The exchange answers a BUY with a body that has no [orderId]. *)
Definition rejecting (p : Q) : env :=
  mkEnv true 1 10
    (http_get (calm p 60))
    (fun _ => Returns (mkOrderBody None None None))
    (fun _ => 60).

(** The exchange acknowledges a BUY with an [orderId] and an empty list
    of fills. *)
Definition empty_fills (id : Z) : env :=
  mkEnv true 1 10
    (http_get (calm 100 60))
    (fun _ => Returns (mkOrderBody (Some id) (Some 1) (Some [])))
    (fun _ => 60).

(** As [calm 100 60], but the request for the exchange information
    fails. *)
Definition info_down : env :=
  mkEnv true 1 10
    (fun r => match r with
              | exchangeInfo => None
              | _ => http_get (calm 100 60) r
              end)
    (http_post (calm 100 60))
    (fun _ => 60).

(** As [fresh_listing], but [AAA] is missing from the listing. *)
Definition delisted (p now : Q) : env :=
  mkEnv true 1 10
    (fun r => match r with
              | exchangeInfo =>
                  Some (ExchangeInfoBody [mkSymbolInfo BBB "BREAK"])
              | _ => http_get (fresh_listing p now) r
              end)
    (http_post (fresh_listing p now))
    (fun _ => now).

(** As [fresh_listing], but the exchange answers a BUY with a body that
    has no [orderId]. *)
Definition relisted_refused (p now : Q) : env :=
  mkEnv true 1 10
    (http_get (fresh_listing p now))
    (fun _ => Returns (mkOrderBody None None None))
    (fun _ => now).

Definition paused : env :=
  mkEnv false 1 10 (http_get (calm 100 60)) (http_post (calm 100 60))
    (fun _ => 60).

(** The exchange acknowledges a BUY with an [orderId] and an executed
    quantity, but the body has no [fills]. *)
Definition no_fills (id : Z) : env :=
  mkEnv true 1 10
    (http_get (calm 100 60))
    (fun _ => Returns (mkOrderBody (Some id) (Some 1) None))
    (fun _ => 60).

(** * Rounding to the nearest double *)

Lemma pow2_pos k : 0 < 2 ^ k.
Proof. apply Qpower_0_lt. reflexivity. Qed.

Lemma pow2_succ k : 2 ^ (k + 1) == 2 * 2 ^ k.
Proof.
  rewrite Qpower_plus by (intros H; discriminate H).
  rewrite Qpower_1_r. ring.
Qed.

Lemma pow2_log2 n : (0 < n)%Z ->
  2 ^ Z.log2 n <= inject_Z n /\ inject_Z n < 2 ^ (Z.log2 n + 1).
Proof.
  intros Hn. destruct (Z.log2_spec n Hn) as [H1 H2].
  pose proof (Z.log2_nonneg n) as H0.
  split.
  - rewrite <- (Zpower_Qpower 2 (Z.log2 n)) by lia.
    rewrite <- Zle_Qle. exact H1.
  - rewrite <- (Zpower_Qpower 2 (Z.log2 n + 1)) by lia.
    rewrite <- Zlt_Qlt. replace (Z.log2 n + 1)%Z with (Z.succ (Z.log2 n)) by lia. exact H2.
Qed.

Lemma floor_log2_spec x :
  0 < x -> 2 ^ floor_log2 x <= x /\ x < 2 ^ (floor_log2 x + 1).
Proof.
  intros Hx. unfold floor_log2.
  set (a := Z.log2 (Qnum x)). set (b := Z.log2 (Zpos (Qden x))).
  assert (Hn : (0 < Qnum x)%Z).
  { destruct x as [n d]. unfold Qlt in Hx. simpl in *. lia. }
  destruct (pow2_log2 (Qnum x) Hn) as [A1 A2]. fold a in A1, A2.
  destruct (pow2_log2 (Zpos (Qden x)) eq_refl) as [B1 B2]. fold b in B1, B2.
  assert (Ex : x * inject_Z (Zpos (Qden x)) == inject_Z (Qnum x)).
  { destruct x as [n d]. unfold Qeq, Qmult, inject_Z. simpl. lia. }
  assert (Eab : 2 ^ (a - b) * 2 ^ b == 2 ^ a).
  { rewrite <- Qpower_plus by (intros H; discriminate H).
    replace (a - b + b)%Z with a by lia. reflexivity. }
  pose proof (pow2_pos (a - b)) as Pab. pose proof (pow2_pos b) as Pb.
  pose proof (pow2_pos a) as Pa.
  rewrite pow2_succ in A2, B2.
  set (D := inject_Z (Zpos (Qden x))) in *.
  set (N := inject_Z (Qnum x)) in *.
  assert (HD : 0 < D) by (unfold D, Qlt; simpl; lia).
  destruct (Qle_bool (2 ^ (a - b)) x) eqn:E.
  - apply Qle_bool_iff in E. split; [exact E |].
    rewrite pow2_succ.
    apply Qmult_lt_r with (z := D); [exact HD |]. rewrite Ex.
    apply Qlt_le_trans with (2 * 2 ^ a); [exact A2 |].
    rewrite <- Eab. 
    setoid_replace (2 * (2 ^ (a - b) * 2 ^ b)) with (2 * 2 ^ (a - b) * 2 ^ b) by ring.
    apply Qmult_le_l; [lra | exact B1].
  - assert (E' : x < 2 ^ (a - b)).
    { apply Qnot_le_lt. intros H. apply Qle_bool_iff in H. congruence. }
    replace (a - b - 1 + 1)%Z with (a - b)%Z by lia.
    split; [| exact E'].
    assert (Eh : 2 * 2 ^ (a - b - 1) == 2 ^ (a - b)).
    { rewrite <- pow2_succ. replace (a - b - 1 + 1)%Z with (a - b)%Z by lia.
      reflexivity. }
    pose proof (pow2_pos (a - b - 1)) as Ph.
    apply Qmult_le_r with (z := D); [exact HD |]. rewrite Ex.
    apply Qle_trans with (2 ^ a); [| exact A1].
    rewrite <- Eab, <- Eh.
    setoid_replace (2 * 2 ^ (a - b - 1) * 2 ^ b) with (2 ^ (a - b - 1) * (2 * 2 ^ b)) by ring.
    apply Qmult_le_l; [exact Ph | apply Qlt_le_weak; exact B2].
Qed.

Lemma round_half_even_spec z :
  inject_Z (round_half_even z) - (1 # 2) <= z /\
  z <= inject_Z (round_half_even z) + (1 # 2).
Proof.
  destruct z as [n d]. unfold round_half_even. cbn [Qnum Qden].
  pose proof (Z.div_mod n (Zpos d) ltac:(lia)) as E.
  pose proof (Z.mod_pos_bound n (Zpos d) ltac:(lia)) as B.
  set (k := (n / Zpos d)%Z) in *. set (r := (n mod Zpos d)%Z) in *.
  assert (G : forall m : Z,
             (2 * m * Zpos d <= 2 * n + Zpos d)%Z ->
             (2 * n <= 2 * m * Zpos d + Zpos d)%Z ->
             inject_Z m - (1 # 2) <= n # d /\ n # d <= inject_Z m + (1 # 2)).
  { intros m H1 H2. unfold Qle, Qminus, Qplus, Qopp, inject_Z. cbn.
    split; lia. }
  destruct (Z.compare_spec (2 * r) (Zpos d));
    [destruct (Z.even k) | |]; apply G; nia.
Qed.

Lemma round_half_even_ge z m :
  inject_Z m <= z -> (m <= round_half_even z)%Z.
Proof.
  intros H. destruct (round_half_even_spec z) as [_ U].
  assert (L : inject_Z m < inject_Z (round_half_even z) + 1) by lra.
  rewrite <- (inject_Z_plus _ 1) in L. rewrite <- Zlt_Qlt in L. lia.
Qed.

Lemma round_half_even_le z m :
  z <= inject_Z m -> (round_half_even z <= m)%Z.
Proof.
  intros H. destruct (round_half_even_spec z) as [L _].
  assert (U : inject_Z (round_half_even z) < inject_Z m + 1) by lra.
  rewrite <- (inject_Z_plus _ 1) in U. rewrite <- Zlt_Qlt in U. lia.
Qed.

Lemma round_double_nonzero x :
  ~ x == 0 ->
  round_double x =
  inject_Z (round_half_even (x / 2 ^ ulp_exponent x)) * 2 ^ ulp_exponent x.
Proof.
  intros H. unfold round_double.
  destruct (Qeq_bool x 0) eqn:E; [| reflexivity].
  apply Qeq_bool_iff in E. contradiction.
Qed.

Lemma round_double_zero x : x == 0 -> round_double x = 0.
Proof.
  intros H. unfold round_double. apply Qeq_bool_iff in H. rewrite H. reflexivity.
Qed.

(** A multiple of the spacing that is below [x] is below its double. *)
Lemma round_double_ge_multiple x m :
  ~ x == 0 ->
  inject_Z m * 2 ^ ulp_exponent x <= x ->
  inject_Z m * 2 ^ ulp_exponent x <= round_double x.
Proof.
  intros Hx H. rewrite (round_double_nonzero x Hx).
  pose proof (pow2_pos (ulp_exponent x)) as P.
  apply Qmult_le_compat_r; [| apply Qlt_le_weak; exact P].
  rewrite <- Zle_Qle. apply round_half_even_ge.
  apply Qle_shift_div_l; assumption.
Qed.

Lemma round_double_le_multiple x m :
  ~ x == 0 ->
  x <= inject_Z m * 2 ^ ulp_exponent x ->
  round_double x <= inject_Z m * 2 ^ ulp_exponent x.
Proof.
  intros Hx H. rewrite (round_double_nonzero x Hx).
  pose proof (pow2_pos (ulp_exponent x)) as P.
  apply Qmult_le_compat_r; [| apply Qlt_le_weak; exact P].
  rewrite <- Zle_Qle. apply round_half_even_le.
  apply Qle_shift_div_r; assumption.
Qed.

(** The double of [x] is at most half a spacing away from [x]. *)
Lemma round_double_error x :
  ~ x == 0 ->
  round_double x - x <= 2 ^ ulp_exponent x * (1 # 2) /\
  x - round_double x <= 2 ^ ulp_exponent x * (1 # 2).
Proof.
  intros Hx. rewrite (round_double_nonzero x Hx).
  pose proof (pow2_pos (ulp_exponent x)) as P.
  set (u := 2 ^ ulp_exponent x) in *.
  destruct (round_half_even_spec (x / u)) as [L U].
  set (k := inject_Z (round_half_even (x / u))) in *.
  assert (E : x == x / u * u) by (field; lra).
  split.
  - assert (H : (k - (1 # 2)) * u <= x / u * u)
      by (apply Qmult_le_compat_r; lra).
    rewrite <- E in H. lra.
  - assert (H : x / u * u <= (k + (1 # 2)) * u)
      by (apply Qmult_le_compat_r; lra).
    rewrite <- E in H. lra.
Qed.

Lemma binade_pos x :
  0 < x ->
  2 ^ floor_log2 (Qabs x) <= x /\ x < 2 ^ (floor_log2 (Qabs x) + 1).
Proof.
  intros H. assert (E : Qabs x == x) by (apply Qabs_pos; lra).
  assert (P : 0 < Qabs x) by (rewrite E; exact H).
  destruct (floor_log2_spec (Qabs x) P) as [L U].
  rewrite E in L at 2. rewrite E in U at 1. split; assumption.
Qed.

Lemma binade_neg x :
  x < 0 ->
  2 ^ floor_log2 (Qabs x) <= - x /\ - x < 2 ^ (floor_log2 (Qabs x) + 1).
Proof.
  intros H. assert (E : Qabs x == - x) by (apply Qabs_neg; lra).
  assert (P : 0 < Qabs x) by (rewrite E; lra).
  destruct (floor_log2_spec (Qabs x) P) as [L U].
  rewrite E in L at 2. rewrite E in U at 1. split; assumption.
Qed.

Lemma pow2_le a b : (a <= b)%Z -> 2 ^ a <= 2 ^ b.
Proof. intros H. apply Qpower_le_compat_l; [exact H | lra]. Qed.

Lemma pow2_lt_inv a b : 2 ^ a < 2 ^ b -> (a < b)%Z.
Proof. intros H. apply (Qpower_lt_compat_l_inv 2); [exact H | lra]. Qed.

(** A multiple of a spacing is a multiple of every finer one. *)
Lemma multiple_finer m q q' :
  (q' <= q)%Z ->
  inject_Z m * 2 ^ q == inject_Z (m * 2 ^ (q - q')) * 2 ^ q'.
Proof.
  intros H. rewrite inject_Z_mult.
  rewrite (Zpower_Qpower 2 (q - q')) by lia.
  change (inject_Z 2) with 2.
  rewrite <- Qmult_assoc. rewrite <- Qpower_plus by (intros E; discriminate E).
  replace (q - q' + q')%Z with q by lia. reflexivity.
Qed.

Lemma double_multiple y :
  ~ y == 0 -> round_double y == y ->
  exists m, y == inject_Z m * 2 ^ ulp_exponent y.
Proof.
  intros H E. rewrite (round_double_nonzero y H) in E.
  eexists. symmetry. exact E.
Qed.

Lemma round_double_nonneg x : 0 <= x -> 0 <= round_double x.
Proof.
  intros H. destruct (Qeq_dec x 0) as [E | N].
  - rewrite (round_double_zero x E). lra.
  - pose proof (round_double_ge_multiple x 0 N) as G.
    setoid_replace (inject_Z 0 * 2 ^ ulp_exponent x) with 0 in G by ring.
    apply G. exact H.
Qed.

Lemma round_double_nonpos x : x <= 0 -> round_double x <= 0.
Proof.
  intros H. destruct (Qeq_dec x 0) as [E | N].
  - rewrite (round_double_zero x E). lra.
  - pose proof (round_double_le_multiple x 0 N) as G.
    setoid_replace (inject_Z 0 * 2 ^ ulp_exponent x) with 0 in G by ring.
    apply G. exact H.
Qed.

(** The power of two that opens the binade of a normal [x] is a multiple
    of the spacing there. *)
Lemma binade_multiple x :
  (-1022 <= floor_log2 (Qabs x))%Z ->
  2 ^ floor_log2 (Qabs x) == inject_Z (2 ^ 52) * 2 ^ ulp_exponent x.
Proof.
  intros H. unfold ulp_exponent.
  rewrite Z.max_l by lia.
  rewrite (Zpower_Qpower 2 52) by lia. change (inject_Z 2) with 2.
  rewrite <- Qpower_plus by (intros E; discriminate E).
  replace (52 + (floor_log2 (Qabs x) - 52))%Z with (floor_log2 (Qabs x)) by lia.
  reflexivity.
Qed.

(** Rounding is monotone: a double below [x] is below the double of [x]. *)
Lemma round_double_above y x :
  round_double y == y -> y <= x -> y <= round_double x.
Proof.
  intros Hy Hyx.
  destruct (Q_dec x 0) as [[Hx | Hx] | Hx].
  - (* x < 0 *)
    assert (Ny : ~ y == 0) by lra. assert (Nx : ~ x == 0) by lra.
    destruct (double_multiple y Ny Hy) as [m Em].
    destruct (binade_neg x Hx) as [Lx Ux].
    destruct (binade_neg y ltac:(lra)) as [Ly Uy].
    assert (Hq : (ulp_exponent x <= ulp_exponent y)%Z).
    { assert (2 ^ floor_log2 (Qabs x) < 2 ^ (floor_log2 (Qabs y) + 1)) by lra.
      apply pow2_lt_inv in H. unfold ulp_exponent. lia. }
    rewrite (multiple_finer m _ _ Hq) in Em.
    rewrite Em. apply round_double_ge_multiple; [exact Nx |].
    rewrite <- Em. exact Hyx.
  - (* 0 < x *)
    assert (Nx : ~ x == 0) by lra.
    destruct (Qlt_le_dec 0 y) as [Py | Py].
    + assert (Ny : ~ y == 0) by lra.
      destruct (double_multiple y Ny Hy) as [m Em].
      destruct (binade_pos x Hx) as [Lx Ux].
      destruct (binade_pos y Py) as [Ly Uy].
      assert (He : (floor_log2 (Qabs y) <= floor_log2 (Qabs x))%Z).
      { assert (2 ^ floor_log2 (Qabs y) < 2 ^ (floor_log2 (Qabs x) + 1)) by lra.
        apply pow2_lt_inv in H. lia. }
      destruct (Z.eq_dec (ulp_exponent y) (ulp_exponent x)) as [Eq | Nq].
      * rewrite Eq in Em. rewrite Em.
        apply round_double_ge_multiple; [exact Nx |].
        rewrite <- Em. exact Hyx.
      * assert (Hn : (-1022 <= floor_log2 (Qabs x))%Z /\
                     (floor_log2 (Qabs y) + 1 <= floor_log2 (Qabs x))%Z)
          by (unfold ulp_exponent in Nq; lia).
        destruct Hn as [Hn Hlt].
        pose proof (binade_multiple x Hn) as Eb.
        pose proof (pow2_le _ _ Hlt) as Hp.
        apply Qle_trans with (2 ^ floor_log2 (Qabs x)); [lra |].
        rewrite Eb. apply round_double_ge_multiple; [exact Nx |].
        rewrite <- Eb. exact Lx.
    + apply Qle_trans with 0; [exact Py |].
      apply round_double_nonneg. lra.
  - rewrite (round_double_zero x Hx). lra.
Qed.

(** And a double above [x] is above the double of [x]. *)
Lemma round_double_below y x :
  round_double y == y -> x <= y -> round_double x <= y.
Proof.
  intros Hy Hxy.
  destruct (Q_dec x 0) as [[Hx | Hx] | Hx].
  - (* x < 0 *)
    assert (Nx : ~ x == 0) by lra.
    destruct (Qlt_le_dec y 0) as [Py | Py].
    + assert (Ny : ~ y == 0) by lra.
      destruct (double_multiple y Ny Hy) as [m Em].
      destruct (binade_neg x Hx) as [Lx Ux].
      destruct (binade_neg y Py) as [Ly Uy].
      assert (He : (floor_log2 (Qabs y) <= floor_log2 (Qabs x))%Z).
      { assert (2 ^ floor_log2 (Qabs y) < 2 ^ (floor_log2 (Qabs x) + 1)) by lra.
        apply pow2_lt_inv in H. lia. }
      destruct (Z.eq_dec (ulp_exponent y) (ulp_exponent x)) as [Eq | Nq].
      * rewrite Eq in Em. rewrite Em.
        apply round_double_le_multiple; [exact Nx |].
        rewrite <- Em. exact Hxy.
      * assert (Hn : (-1022 <= floor_log2 (Qabs x))%Z /\
                     (floor_log2 (Qabs y) + 1 <= floor_log2 (Qabs x))%Z)
          by (unfold ulp_exponent in Nq; lia).
        destruct Hn as [Hn Hlt].
        pose proof (binade_multiple x Hn) as Eb.
        pose proof (pow2_le _ _ Hlt) as Hp.
        apply Qle_trans with (- 2 ^ floor_log2 (Qabs x)); [| lra].
        assert (Eb' : - 2 ^ floor_log2 (Qabs x) ==
                      inject_Z (- 2 ^ 52) * 2 ^ ulp_exponent x).
        { rewrite Eb. rewrite inject_Z_opp. ring. }
        rewrite Eb'. apply round_double_le_multiple; [exact Nx |].
        rewrite <- Eb'. lra.
    + apply Qle_trans with 0; [| exact Py].
      apply round_double_nonpos. lra.
  - (* 0 < x *)
    assert (Ny : ~ y == 0) by lra. assert (Nx : ~ x == 0) by lra.
    destruct (double_multiple y Ny Hy) as [m Em].
    destruct (binade_pos x Hx) as [Lx Ux].
    destruct (binade_pos y ltac:(lra)) as [Ly Uy].
    assert (Hq : (ulp_exponent x <= ulp_exponent y)%Z).
    { assert (2 ^ floor_log2 (Qabs x) < 2 ^ (floor_log2 (Qabs y) + 1)) by lra.
      apply pow2_lt_inv in H. unfold ulp_exponent. lia. }
    rewrite (multiple_finer m _ _ Hq) in Em.
    rewrite Em. apply round_double_le_multiple; [exact Nx |].
    rewrite <- Em. exact Hxy.
  - rewrite (round_double_zero x Hx). lra.
Qed.

(** [round_double] against the binary64 arithmetic of the kernel, on
    products and differences that round up, round down, fall on a tie,
    are subnormal, or are exact. *)
Example float_mul_agrees :
  forallb (agrees PrimFloat.mul float_mul)
    [(1 / 10, 10); (200, 85 / 100); (3 / 10, 3); (1 / 3, 3);
     (0x1p-1074, 85 / 100);
     (0x3p-1074, 85 / 100);
     (0x3p-1074, 1 / 2);
     (0x5p-1074, 1 / 2);
     (0x1p-600, 0x1p-600);
     (123456789 / 1000, 10); (- (33 / 10), 77 / 10); (0, 5);
     (0x1p+53 + 2, 3 / 2); (7 / 1000000, 10)]%float = true.
Proof. vm_compute. reflexivity. Qed.

Example float_sub_agrees :
  forallb (agrees PrimFloat.sub float_sub)
    [(1, 15 / 100); (3 / 10, 1 / 10); (1, 1 / 3);
     (1762000000123 / 1000, 17619995805 / 10);
     (0x1p+53, 1); (0x1p+54, 1);
     (0x1p+54, 3);
     (0x1p-1074, 0x1p-1073); (2, 2);
     (420, 1 / 10)]%float = true.
Proof. vm_compute. reflexivity. Qed.

(** The constants of the exit tests: [0.15] and [1 - 0.15] as doubles. *)
Example TRAIL_PERCENT_value :
  TRAIL_PERCENT == 5404319552844595 # 36028797018963968 /\
  float_sub 1 TRAIL_PERCENT == 7656119366529843 # 9007199254740992 /\
  Some TRAIL_PERCENT = option_map Qred (Q_of_float (15 / 100)) /\
  Some (Qred (float_sub 1 TRAIL_PERCENT)) =
  option_map Qred (Q_of_float (1 - 15 / 100)).
Proof. vm_compute. repeat split; reflexivity. Qed.

(** The product of the double [0.1] and 10 is the double 1, where the
    exact product is above 1. *)
Example tenth_times_ten :
  option_map Qred (Q_of_float (1 / 10)) =
  Some (3602879701896397 # 36028797018963968) /\
  float_mul (3602879701896397 # 36028797018963968) 10 == 1 /\
  1 < (3602879701896397 # 36028797018963968) * 10.
Proof. vm_compute. repeat split; reflexivity. Qed.

(** Above the subnormals the double of [y] is within one part in [2^53]
    of [y]. *)
Lemma round_double_relative y :
  2 ^ (-1022) <= y -> round_double y <= y * (1 + 2 ^ (-53)).
Proof.
  intros H. pose proof (pow2_pos (-1022)) as P0.
  assert (Py : 0 < y) by lra. assert (Ny : ~ y == 0) by lra.
  destruct (binade_pos y Py) as [L U].
  assert (He : (-1022 <= floor_log2 (Qabs y))%Z).
  { assert (2 ^ (-1022) < 2 ^ (floor_log2 (Qabs y) + 1)) by lra.
    apply pow2_lt_inv in H0. lia. }
  destruct (round_double_error y Ny) as [E _].
  assert (Eu : 2 ^ ulp_exponent y * (1 # 2) ==
               2 ^ floor_log2 (Qabs y) * 2 ^ (-53)).
  { unfold ulp_exponent. rewrite Z.max_l by lia.
    replace (floor_log2 (Qabs y) - 52)%Z
      with (floor_log2 (Qabs y) + -53 + 1)%Z by lia.
    rewrite pow2_succ.
    rewrite Qpower_plus by (intros E0; discriminate E0). ring. }
  rewrite Eu in E.
  pose proof (pow2_pos (-53)) as P53.
  assert (2 ^ floor_log2 (Qabs y) * 2 ^ (-53) <= y * 2 ^ (-53))
    by (apply Qmult_le_compat_r; lra).
  lra.
Qed.

(** A price that is the mark stays above the trailing stop of the mark,
    unless it is as small as the smallest doubles. *)
Lemma mark_above_trailing_stop p :
  2 ^ (-1021) <= p -> float_mul p (float_sub 1 TRAIL_PERCENT) < p.
Proof.
  intros H. unfold float_mul.
  set (c := float_sub 1 TRAIL_PERCENT).
  assert (C1 : (1 # 2) <= c) by (apply Qle_bool_iff; vm_compute; reflexivity).
  assert (C2 : c * (1 + 2 ^ (-53)) < 1).
  { apply Qnot_le_lt. intros F. apply Qle_bool_iff in F.
    vm_compute in F. discriminate F. }
  pose proof (pow2_pos (-1022)) as P0.
  assert (E1 : 2 ^ (-1021) == 2 * 2 ^ (-1022)) by (apply (pow2_succ (-1022))).
  assert (Pp : 0 < p) by lra.
  assert (Hy : 2 ^ (-1022) <= p * c).
  { apply Qle_trans with (p * (1 # 2)); [lra |].
    apply Qmult_le_l; assumption. }
  apply Qle_lt_trans with (p * c * (1 + 2 ^ (-53)));
    [apply round_double_relative; exact Hy |].
  rewrite <- Qmult_assoc.
  setoid_replace p with (p * 1) at 2 by ring.
  apply Qmult_lt_l; assumption.
Qed.

(** 420 is a double, so a difference that is at least 420 before it is
    rounded is at least 420 after. *)
Lemma timeout_reached now t :
  420 <= now - t -> SELL_TIMEOUT <= float_sub now t.
Proof.
  intros H. unfold float_sub. change SELL_TIMEOUT with 420.
  apply round_double_above; [| exact H].
  apply Qeq_bool_eq. vm_compute. reflexivity.
Qed.

(** A product that is at most the double [p] before it is rounded is at
    most [p] after. *)
Lemma product_reached a b p :
  round_double p == p -> a * b <= p -> float_mul a b <= p.
Proof. intros Hp H. unfold float_mul. apply round_double_below; assumption. Qed.

(** * Reasoning about the monad *)

Lemma bind_Ok {A B} (c : M A) (k : A -> M B) st a st' :
  c st = (Ok a, st') -> bind c k st = k a st'.
Proof. unfold bind. intros ->. reflexivity. Qed.

Lemma bind_inv_Ok {A B} (c : M A) (k : A -> M B) st b st2 :
  bind c k st = (Ok b, st2) ->
  exists a st1, c st = (Ok a, st1) /\ k a st1 = (Ok b, st2).
Proof.
  unfold bind. destruct (c st) as [[a | e] st1]; intros H.
  - exists a, st1. split; [reflexivity | exact H].
  - discriminate H.
Qed.

Lemma final_bind {A B} (c : M A) (k : A -> M B) st :
  final (bind c k) st =
  match fst (c st) with
  | Ok a => final (k a) (final c st)
  | Raise _ => final c st
  end.
Proof.
  unfold final, bind. destruct (c st) as [[a | e] st1]; reflexivity.
Qed.

Lemma for_each_inv_Ok {A} (body : A -> M unit) x l st st2 :
  for_each body (x :: l) st = (Ok tt, st2) ->
  exists st1, body x st = (Ok tt, st1) /\ for_each body l st1 = (Ok tt, st2).
Proof.
  simpl. intros H. apply bind_inv_Ok in H. destruct H as ([] & st1 & H1 & H2).
  exists st1. split; assumption.
Qed.

(** A relation between the state before and the state after that is
    reflexive and transitive holds across a computation as soon as it
    holds across each of its steps, whether the computation returns or
    raises. *)
Section Steps.

Context (R : state -> state -> Prop) `{HR : StepOrder R}.

Lemma respects_ret {A} (a : A) : respects R (ret a).
Proof. intros st. apply step_refl. Qed.

Lemma respects_raise {A} (e : exn) : respects R (@raise A e).
Proof. intros st. apply step_refl. Qed.

Lemma respects_query {A} (q : table -> A) : respects R (query q).
Proof. intros st. apply step_refl. Qed.

Lemma respects_get_known : respects R get_known.
Proof. intros st. apply step_refl. Qed.

Lemma respects_bind {A B} (c : M A) (k : A -> M B) :
  respects R c -> (forall a, respects R (k a)) -> respects R (bind c k).
Proof.
  intros Hc Hk st. rewrite final_bind.
  destruct (fst (c st)) as [a | e].
  - eapply step_trans; [apply Hc | apply Hk].
  - apply Hc.
Qed.

Lemma respects_for_each {A} (body : A -> M unit) (l : list A) :
  (forall x, In x l -> respects R (body x)) -> respects R (for_each body l).
Proof.
  induction l as [| x l IH]; intros H; simpl.
  - apply respects_ret.
  - apply respects_bind.
    + apply H. left. reflexivity.
    + intros _. apply IH. intros y Hy. apply H. right. exact Hy.
Qed.

Lemma respects_subscript_symbols j : respects R (subscript_symbols j).
Proof.
  destruct j as [[| |] |]; simpl;
    first [apply respects_ret | apply respects_raise].
Qed.

Lemma respects_subscript_price j : respects R (subscript_price j).
Proof.
  destruct j as [[| |] |]; simpl;
    first [apply respects_ret | apply respects_raise].
Qed.

Lemma respects_first_fill_price d : respects R (first_fill_price d).
Proof.
  unfold first_fill_price. destruct (fills d) as [[| p l] |];
    first [apply respects_ret | apply respects_raise].
Qed.

Lemma respects_iteration_of_parts w :
  (forall e, respects R (emit e)) ->
  (forall k, respects R (set_known k)) ->
  (forall s, respects R (discover w s)) ->
  respects R (monitor w) ->
  respects R (iteration w).
Proof.
  intros He Hk Hd Hm. unfold iteration, sleep, mexc_get.
  destruct (bot_running w); simpl; [| apply He].
  apply respects_bind.
  - apply respects_bind; [apply He | intros _; apply respects_ret].
  - intros info. destruct (truthy info); simpl; [| apply He].
    apply respects_bind; [apply respects_subscript_symbols |].
    intros listed. apply respects_bind; [apply respects_get_known |].
    intros old. apply respects_bind; [apply Hk |].
    intros _. apply respects_bind.
    + apply respects_for_each. intros s _. apply Hd.
    + intros _. apply respects_bind; [apply Hm | intros _; apply He].
Qed.

End Steps.

Ltac step L := apply L; try typeclasses eauto.

(** A relation that moreover holds across every primitive step of the
    engine holds across the engine. *)
Section EngineSteps.

Context (allowed : event -> Prop) (R : state -> state -> Prop)
        `{HR : EngineRelation allowed R}.

Hypothesis allowed_Telegram : forall text, allowed (Telegram text).

Lemma respects_mexc_get w r :
  allowed (Get r) -> respects R (mexc_get w r).
Proof.
  intros Ha. unfold mexc_get. step respects_bind.
  - step step_emit. exact Ha.
  - intros _. step respects_ret.
Qed.

Lemma respects_mexc_post w o :
  allowed (Post o) -> respects R (mexc_post w o).
Proof.
  intros Ha. unfold mexc_post. step respects_bind.
  - step step_emit. exact Ha.
  - intros _. destruct (http_post w o);
      [step respects_ret | step respects_raise].
Qed.

Lemma respects_market_buy w s :
  allowed (Post (MarketBuy s (BUY_USDT_AMOUNT w))) ->
  respects R (market_buy w s).
Proof.
  intros Ha. unfold market_buy.
  step respects_bind; [apply respects_mexc_post; exact Ha |].
  intros data. destruct (orderId data).
  - step respects_bind; [step respects_first_fill_price |].
    intros price. step respects_bind; [step step_insert |].
    intros _. step step_emit. apply allowed_Telegram.
  - step step_emit. apply allowed_Telegram.
Qed.

Lemma respects_market_sell w s why :
  (forall q, allowed (Post (MarketSell s q))) ->
  respects R (market_sell w s why).
Proof.
  intros Ha. unfold market_sell. step respects_bind; [step respects_query |].
  intros [q |]; [| step respects_ret].
  step respects_bind; [apply respects_mexc_post; apply Ha |].
  intros data. step respects_bind; [step step_delete |].
  intros _. step step_emit. apply allowed_Telegram.
Qed.

Lemma respects_discover w s :
  allowed (Get (klines s INTERVAL CANDLE_LIMIT)) ->
  allowed (Post (MarketBuy s (BUY_USDT_AMOUNT w))) ->
  respects R (discover w s).
Proof.
  intros Hg Hp. unfold discover.
  step respects_bind; [apply respects_mexc_get; exact Hg |].
  intros j. destruct (all_flat j);
    [apply respects_market_buy; exact Hp | step respects_ret].
Qed.

Lemma respects_monitor_row w r :
  allowed (Get (ticker_price (symbol r))) ->
  (forall q, allowed (Post (MarketSell (symbol r) q))) ->
  respects R (monitor_row w r).
Proof.
  intros Hg Hp. unfold monitor_row.
  step respects_bind; [apply respects_mexc_get; exact Hg |].
  intros j. step respects_bind; [step respects_subscript_price |].
  intros price. step respects_bind.
  - destruct (Qlt_bool (high_price r) price).
    + step respects_bind; [step step_update |].
      intros _. step respects_ret.
    + step respects_ret.
  - intros high.
    repeat match goal with
           | |- respects R (if ?b then _ else _) => destruct b
           end;
      first [apply respects_market_sell; exact Hp | step respects_ret].
Qed.

Lemma respects_monitor w :
  (forall s, allowed (Get (ticker_price s))) ->
  (forall s q, allowed (Post (MarketSell s q))) ->
  respects R (monitor w).
Proof.
  intros Hg Hp. unfold monitor. step respects_bind; [step respects_query |].
  intros rows. step respects_for_each. intros r _.
  apply respects_monitor_row; [apply Hg | apply Hp].
Qed.

Hypothesis allowed_all : forall e, allowed e.
Hypothesis step_set_known : forall k, respects R (set_known k).

Lemma respects_iteration w : respects R (iteration w).
Proof.
  unfold iteration. destruct (bot_running w); simpl;
    [| step step_emit; apply allowed_all].
  step respects_bind; [apply respects_mexc_get; apply allowed_all |].
  intros info. destruct (truthy info); simpl;
    [| step step_emit; apply allowed_all].
  step respects_bind; [step respects_subscript_symbols |].
  intros listed. step respects_bind; [step respects_get_known |].
  intros old. step respects_bind; [step step_set_known |].
  intros _. step respects_bind.
  - step respects_for_each. intros s _.
    apply respects_discover; apply allowed_all.
  - intros _. step respects_bind.
    + apply respects_monitor; intros; apply allowed_all.
    + intros _. step step_emit. apply allowed_all.
Qed.

Lemma respects_passes ws : respects R (passes ws).
Proof.
  step respects_for_each. intros w _. apply respects_iteration.
Qed.

Lemma respects_trading_loop ws : respects R (trading_loop ws).
Proof.
  unfold trading_loop. step respects_bind; [step step_set_known |].
  intros _. step respects_bind; [step step_emit; apply allowed_all |].
  intros _. apply respects_passes.
Qed.

End EngineSteps.

(** Unfolds the primitive steps so that a straight-line run computes. *)
Ltac unfold_steps :=
  unfold mexc_post, mexc_get, send_telegram, sleep, emit, execute, query,
    get_known, set_known, bind, ret, raise in *.

(** * The store *)

Lemma SELECT_one_absent s t :
  ~ In s (map symbol t) -> SELECT_one s t = None.
Proof.
  unfold SELECT_one. induction t as [| r t IH]; simpl; intros H.
  - reflexivity.
  - unfold has_symbol at 1. destruct (String.eqb_spec (symbol r) s) as [E | E].
    + exfalso. apply H. left. exact E.
    + apply IH. intros Hin. apply H. right. exact Hin.
Qed.

Lemma SELECT_one_present s t :
  In s (map symbol t) -> exists r, SELECT_one s t = Some r /\ symbol r = s.
Proof.
  unfold SELECT_one. induction t as [| r t IH]; simpl; intros H.
  - contradiction.
  - unfold has_symbol at 1. destruct (String.eqb_spec (symbol r) s) as [E | E].
    + exists r. split; [reflexivity | exact E].
    + destruct H as [H | H]; [contradiction |]. apply IH. exact H.
Qed.

Lemma map_symbol_UPDATE p s t :
  map symbol (UPDATE_high_price p s t) = map symbol t.
Proof.
  unfold UPDATE_high_price. rewrite map_map. apply map_ext.
  intros r. destruct (has_symbol s r); reflexivity.
Qed.

(** * Close Position *)

Lemma market_sell_absent w s why st :
  SELECT_one s (positions st) = None ->
  market_sell w s why st = (Ok tt, st).
Proof.
  intros H. unfold market_sell, bind, query, SELECT_qty.
  rewrite H. reflexivity.
Qed.

(** C10. For a symbol with no row in [positions], [market_sell] returns
    at once and leaves the whole state as it was: no order is posted, no
    row is deleted, no message is sent. *)
Theorem market_sell_no_row :
  forall (w : env) (s : string) (why : reason) (st : state),
    ~ In s (map symbol (positions st)) ->
    market_sell w s why st = (Ok tt, st).
Proof.
  intros w s why st H. apply market_sell_absent.
  apply SELECT_one_absent. exact H.
Qed.

Lemma market_sell_no_row_witness :
  ~ In BBB (map symbol [held AAA 100]) /\
  market_sell (calm 100 60) BBB TARGET (mkState [held AAA 100] [] [])
  = (Ok tt, mkState [held AAA 100] [] []).
Proof.
  assert (H : ~ In BBB (map symbol [held AAA 100])).
  { simpl. intros [H | []]. discriminate H. }
  split; [exact H |].
  exact (market_sell_no_row (calm 100 60) BBB TARGET
           (mkState [held AAA 100] [] []) H).
Defined.

(** When the sell request returns a body, whatever it holds, the row is
    deleted after it and the body goes into the message. *)
Lemma market_sell_returns w s why st r data :
  SELECT_one s (positions st) = Some r ->
  http_post w (MarketSell s (qty r)) = Returns data ->
  market_sell w s why st =
  (Ok tt,
   mkState (DELETE s (positions st)) (known st)
     (trace st ++ [Post (MarketSell s (qty r));
                   Telegram (SellExecuted why s data)])).
Proof.
  intros Hr Hp. unfold market_sell, SELECT_qty. unfold_steps.
  rewrite Hr. cbn. rewrite Hp. cbn. rewrite <- app_assoc. reflexivity.
Qed.

(** When the sell request raises, [market_sell] raises too and the row
    is still there. *)
Lemma market_sell_throws w s why st r e :
  SELECT_one s (positions st) = Some r ->
  http_post w (MarketSell s (qty r)) = Throws e ->
  market_sell w s why st =
  (Raise e,
   mkState (positions st) (known st)
     (trace st ++ [Post (MarketSell s (qty r))])).
Proof.
  intros Hr Hp. unfold market_sell, SELECT_qty. unfold_steps.
  rewrite Hr. cbn. rewrite Hp. reflexivity.
Qed.

Lemma DELETE_absent s t : ~ In s (map symbol (DELETE s t)).
Proof.
  unfold DELETE. rewrite in_map_iff. intros (r & E & Hin).
  apply filter_In in Hin. destruct Hin as [_ Hin].
  unfold has_symbol in Hin. rewrite E, String.eqb_refl in Hin. discriminate.
Qed.

(** C3. The thread starts on a table that holds [AAA] and [BBB]; the
    price of [AAA] reaches its target and the sell request raises.  The
    row of [AAA] is not removed, but the exception leaves [market_sell]
    and [trading_loop]: the second pass, which would evaluate [AAA] again,
    never runs, and [BBB] is not looked at either. *)
Theorem sell_error_ends_loop :
  trading_loop [sell_down; calm 1000 60]
    (at_start [held AAA 100; held BBB 100]) =
  (Raise RequestException,
   mkState [mkPosition AAA 1 100 0 1000; held BBB 100] [AAA; BBB]
     [Telegram BotLive; Get exchangeInfo;
      Get (klines AAA INTERVAL CANDLE_LIMIT);
      Get (klines BBB INTERVAL CANDLE_LIMIT);
      Get (ticker_price AAA); Post (MarketSell AAA 1)]).
Proof. vm_compute. reflexivity. Qed.

(** * Monitor *)

(** C1. The thread starts on a table that holds [AAA] and [BBB]; the
    price request of [AAA] fails: [mexc_get] returns [None], the subscript
    raises [TypeError] and nothing catches it.  No row is deleted, but
    [BBB] is not evaluated in that pass and the loop stops: the second
    pass never runs. *)
Theorem failed_price_fetch_ends_loop :
  trading_loop [ticker_down; calm 100 60]
    (at_start [held AAA 100; held BBB 100]) =
  (Raise TypeError,
   mkState [held AAA 100; held BBB 100] [AAA; BBB]
     [Telegram BotLive; Get exchangeInfo;
      Get (klines AAA INTERVAL CANDLE_LIMIT);
      Get (klines BBB INTERVAL CANDLE_LIMIT);
      Get (ticker_price AAA)]).
Proof. vm_compute. reflexivity. Qed.

(** The same in general: a pass that reaches the monitor step with a
    stored position whose price request fails ends in an exception. *)
Lemma monitor_row_failed_fetch w r st :
  http_get w (ticker_price (symbol r)) = None ->
  monitor_row w r st =
  (Raise TypeError,
   mkState (positions st) (known st)
     (trace st ++ [Get (ticker_price (symbol r))])).
Proof.
  intros H. unfold monitor_row. unfold_steps. cbn. rewrite H. reflexivity.
Qed.

Lemma for_each_raises_somewhere {A} (body : A -> M unit) l x :
  In x l ->
  (forall st, exists e, fst (body x st) = Raise e) ->
  forall st, exists e, fst (for_each body l st) = Raise e.
Proof.
  induction l as [| y l IH]; intros Hin Hx st; [contradiction |].
  simpl. unfold bind. destruct (body y st) as [[[] | e] st1] eqn:E.
  - destruct Hin as [-> | Hin].
    + destruct (Hx st) as [e He]. rewrite E in He. discriminate He.
    + apply IH; assumption.
  - exists e. reflexivity.
Qed.

Lemma monitor_failed_fetch w st r :
  In r (positions st) ->
  http_get w (ticker_price (symbol r)) = None ->
  exists e, fst (monitor w st) = Raise e.
Proof.
  intros Hin H. unfold monitor, query, bind.
  apply for_each_raises_somewhere with (x := r); [exact Hin |].
  intros st1. exists TypeError. rewrite monitor_row_failed_fetch by exact H.
  reflexivity.
Qed.

(** [monitor_row] once the price request answered [p]. *)
Lemma monitor_row_priced w r st p :
  http_get w (ticker_price (symbol r)) = Some (TickerBody p) ->
  monitor_row w r st =
  let s := symbol r in
  let st1 := after_price_check r p st in
  if Qle_bool (float_mul (entry_price r) (TARGET_MULTIPLIER w)) p
  then market_sell w s TARGET st1
  else if Qle_bool p (float_mul (high_water (high_price r) p)
                                (float_sub 1 TRAIL_PERCENT))
  then market_sell w s TRAIL st1
  else if Qle_bool SELL_TIMEOUT
            (float_sub (time_time w (AtTimeoutCheck s)) (entry_time r))
  then market_sell w s TIMEOUT st1
  else (Ok tt, st1).
Proof.
  intros Hp. unfold monitor_row, after_price_check, high_water.
  generalize (market_sell w (symbol r)). intros sell. unfold_steps.
  rewrite Hp. cbn.
  destruct (Qlt_bool (high_price r) p);
    repeat match goal with
           | |- context [if ?b then _ else _] => destruct b
           end;
    reflexivity.
Qed.

Lemma monitor_row_unpriced w r st :
  (forall p, http_get w (ticker_price (symbol r)) <> Some (TickerBody p)) ->
  exists e, fst (monitor_row w r st) = Raise e.
Proof.
  intros Hn. unfold monitor_row. unfold_steps. cbn.
  destruct (http_get w (ticker_price (symbol r))) as [[l | c | p] |]; cbn.
  - exists KeyError. reflexivity.
  - exists TypeError. reflexivity.
  - exfalso. apply (Hn p). reflexivity.
  - exists TypeError. reflexivity.
Qed.

(** C2. Once the price [p] of a row is fetched and the high-water mark
    written, the exits are tried in the order target, trailing stop,
    timeout, each test computed in floating point as the code computes
    it: the product [entry_price * TARGET_MULTIPLIER], the product of the
    mark and of the difference [1 - 0.15], and the difference
    [now - entry_time] against 420.  The first test that holds sells with
    its reason, and when none holds the pass leaves the row in the
    table. *)
Theorem exit_priority :
  forall (w : env) (r : position) (st : state) (p : Q),
    http_get w (ticker_price (symbol r)) = Some (TickerBody p) ->
    let s := symbol r in
    let high := if Qlt_bool (high_price r) p then p else high_price r in
    let target := float_mul (entry_price r) (TARGET_MULTIPLIER w) <= p in
    let trail :=
      p <= float_mul high (float_sub 1 (round_double (15 # 100))) in
    let timeout :=
      420 <= float_sub (time_time w (AtTimeoutCheck s)) (entry_time r) in
    let st1 := after_price_check r p st in
    (target -> monitor_row w r st = market_sell w s TARGET st1) /\
    (~ target -> trail -> monitor_row w r st = market_sell w s TRAIL st1) /\
    (~ target -> ~ trail -> timeout ->
     monitor_row w r st = market_sell w s TIMEOUT st1) /\
    (~ target -> ~ trail -> ~ timeout ->
     monitor_row w r st = (Ok tt, st1) /\
     map symbol (positions st1) = map symbol (positions st)).
Proof.
  intros w r st p Hp s high target trail timeout st1.
  assert (Hrows : map symbol (positions st1) = map symbol (positions st)).
  { unfold st1, after_price_check. cbn.
    destruct (Qlt_bool (high_price r) p);
      [apply map_symbol_UPDATE | reflexivity]. }
  rewrite (monitor_row_priced w r st p Hp). cbv zeta.
  change (high_water (high_price r) p) with high.
  change TRAIL_PERCENT with (round_double (15 # 100)).
  change SELL_TIMEOUT with 420.
  fold s st1. unfold target, trail, timeout.
  repeat match goal with
         | |- context [Qle_bool ?a ?b] =>
             let E := fresh "E" in
             destruct (Qle_bool a b) eqn:E;
             [apply Qle_bool_iff in E
             | assert (~ a <= b)
                 by (let HH := fresh in
                     intros HH; apply Qle_bool_iff in HH; congruence);
               clear E]
         end;
    repeat split; intros; try reflexivity; try contradiction;
    exact Hrows.
Qed.

Lemma exit_priority_witness :
  http_get (calm 1000 60) (ticker_price (symbol (held AAA 100)))
  = Some (TickerBody 1000) /\
  monitor_row (calm 1000 60) (held AAA 100) two_positions =
  market_sell (calm 1000 60) AAA TARGET
    (after_price_check (held AAA 100) 1000 two_positions).
Proof.
  split; [reflexivity |].
  apply (exit_priority (calm 1000 60) (held AAA 100) two_positions 1000
           eq_refl).
  apply Qle_bool_iff. vm_compute. reflexivity.
Defined.

(** The tests are those of the floats: for an entry price that is the
    double [0.1] and the multiplier 10, the product of line 278 is the
    double 1, and a price of 1 reaches the target, although the exact
    product of the two doubles is above 1. *)
Example target_at_rounded_product :
  let tenth := 3602879701896397 # 36028797018963968 in
  ~ tenth * 10 <= 1 /\
  monitor_row (calm 1 60) (mkPosition AAA 1 tenth 0 tenth)
    (mkState [mkPosition AAA 1 tenth 0 tenth] [] []) =
  (Ok tt,
   mkState [] []
     [Get (ticker_price AAA); Post (MarketSell AAA 1);
      Telegram (SellExecuted TARGET AAA (filled 1 1))]).
Proof.
  split.
  - intros H. apply Qle_bool_iff in H. vm_compute in H. discriminate H.
  - vm_compute. reflexivity.
Qed.

(** And the smallest double is not above its own trailing stop: the
    product of [2^-1074] and of [1 - 0.15] rounds back to [2^-1074]. *)
Example smallest_price_trails :
  float_mul (2 ^ (-1074)) (float_sub 1 TRAIL_PERCENT) == 2 ^ (-1074).
Proof. apply Qeq_bool_eq. vm_compute. reflexivity. Qed.

(** The figures of the specification: entry 100 and mark 200 put the
    trailing floor at 170. *)
Example trailing_stop_at_169 :
  monitor_row (calm 169 60) (mkPosition AAA 1 100 0 200)
    (mkState [mkPosition AAA 1 100 0 200] [] []) =
  (Ok tt,
   mkState [] []
     [Get (ticker_price AAA); Post (MarketSell AAA 1);
      Telegram (SellExecuted TRAIL AAA (filled 1 169))]).
Proof. vm_compute. reflexivity. Qed.

Example no_exit_at_171 :
  monitor_row (calm 171 60) (mkPosition AAA 1 100 0 200)
    (mkState [mkPosition AAA 1 100 0 200] [] []) =
  (Ok tt, mkState [mkPosition AAA 1 100 0 200] [] [Get (ticker_price AAA)]).
Proof. vm_compute. reflexivity. Qed.

Example target_before_trailing_stop :
  monitor_row (calm 1000 60) (mkPosition AAA 1 100 0 2000)
    (mkState [mkPosition AAA 1 100 0 2000] [] []) =
  (Ok tt,
   mkState [] []
     [Get (ticker_price AAA); Post (MarketSell AAA 1);
      Telegram (SellExecuted TARGET AAA (filled 1 1000))]).
Proof. vm_compute. reflexivity. Qed.

Example timeout_after_421_seconds :
  monitor_row (calm 190 421) (mkPosition AAA 1 100 0 200)
    (mkState [mkPosition AAA 1 100 0 200] [] []) =
  (Ok tt,
   mkState [] []
     [Get (ticker_price AAA); Post (MarketSell AAA 1);
      Telegram (SellExecuted TIMEOUT AAA (filled 1 190))]).
Proof. vm_compute. reflexivity. Qed.

(** * Open Position *)

(** A body without [orderId]: the failure is reported and no row is
    written. *)
Lemma market_buy_rejected w s st data :
  http_post w (MarketBuy s (BUY_USDT_AMOUNT w)) = Returns data ->
  orderId data = None ->
  market_buy w s st =
  (Ok tt,
   mkState (positions st) (known st)
     (trace st ++ [Post (MarketBuy s (BUY_USDT_AMOUNT w));
                   Telegram (BuyFailed s data)])).
Proof.
  intros Hp Hid. unfold market_buy. unfold_steps. cbn. rewrite Hp, Hid. cbn.
  rewrite <- app_assoc. reflexivity.
Qed.

(** A body with [orderId] and a first fill: the row is written with the
    fill price as entry and as high-water mark. *)
Lemma market_buy_filled w s st data id p l :
  http_post w (MarketBuy s (BUY_USDT_AMOUNT w)) = Returns data ->
  orderId data = Some id ->
  fills data = Some (p :: l) ->
  let q := match executedQty data with Some q => q | None => 0 end in
  market_buy w s st =
  (Ok tt,
   mkState
     (INSERT_OR_REPLACE (mkPosition s q p (time_time w (AtBuy s)) p)
        (positions st))
     (known st)
     (trace st ++ [Post (MarketBuy s (BUY_USDT_AMOUNT w));
                   Telegram (BuyExecuted s q p)])).
Proof.
  intros Hp Hid Hf q. unfold market_buy, first_fill_price. unfold_steps. cbn.
  rewrite Hp, Hid, Hf. cbn. rewrite <- app_assoc. reflexivity.
Qed.

(** C7. A body that carries [orderId] but no [fills]: the subscript
    raises [KeyError] out of [market_buy].  No row is written, and no
    failure message is sent either: the trace gains the order only. *)
Theorem market_buy_no_fills :
  forall (w : env) (s : string) (st : state) (data : order_body) (id : Z),
    http_post w (MarketBuy s (BUY_USDT_AMOUNT w)) = Returns data ->
    orderId data = Some id ->
    fills data = None ->
    market_buy w s st =
    (Raise KeyError,
     mkState (positions st) (known st)
       (trace st ++ [Post (MarketBuy s (BUY_USDT_AMOUNT w))])).
Proof.
  intros w s st data id Hp Hid Hf.
  unfold market_buy, first_fill_price. unfold_steps. cbn.
  rewrite Hp, Hid, Hf. reflexivity.
Qed.

Lemma market_buy_no_fills_witness :
  market_buy (no_fills 7) AAA (mkState [] [] []) =
  (Raise KeyError, mkState [] [] [Post (MarketBuy AAA 1)]).
Proof.
  exact (market_buy_no_fills (no_fills 7) AAA (mkState [] [] [])
           (mkOrderBody (Some 7%Z) (Some 1) None) 7%Z
           eq_refl eq_refl eq_refl).
Defined.

(** * Cycle orchestration *)

Lemma events_of_spec {A} (c : M A) st l :
  trace (final c st) = trace st ++ l -> events_of c st = l.
Proof.
  unfold events_of. intros ->.
  rewrite skipn_app, skipn_all, Nat.sub_diag. reflexivity.
Qed.

#[export] Instance grows_order : StepOrder grows.
Proof.
  split.
  - intros st. exists []. symmetry. apply app_nil_r.
  - intros a b c [l1 H1] [l2 H2]. exists (l1 ++ l2).
    rewrite H2, H1. symmetry. apply app_assoc.
Qed.

#[export] Instance grows_engine : EngineRelation (fun _ => True) grows.
Proof.
  split.
  - exact grows_order.
  - intros e _ st. exists [e]. reflexivity.
  - intros r st. exists []. symmetry. apply app_nil_r.
  - intros p s st. exists []. symmetry. apply app_nil_r.
  - intros s st. exists []. symmetry. apply app_nil_r.
Qed.

Lemma grows_set_known k : respects grows (set_known k).
Proof. intros st. exists []. symmetry. apply app_nil_r. Qed.

Lemma trace_events_of {A} (c : M A) st :
  respects grows c -> trace (final c st) = trace st ++ events_of c st.
Proof.
  intros Hc. destruct (Hc st) as [l Hl].
  rewrite (events_of_spec c st l Hl). exact Hl.
Qed.

(** What follows a first step that always returns. *)
Lemma events_of_bind_Ok {A B} (c : M A) (k : A -> M B) st a st1 :
  c st = (Ok a, st1) ->
  respects grows c -> respects grows (k a) ->
  events_of (bind c k) st = events_of c st ++ events_of (k a) st1.
Proof.
  intros E Hc Hk. apply events_of_spec.
  rewrite final_bind, E. cbn [fst].
  replace (final c st) with st1 by (unfold final; rewrite E; reflexivity).
  rewrite (trace_events_of (k a) st1 Hk).
  replace (trace st1) with (trace (final c st))
    by (unfold final; rewrite E; reflexivity).
  rewrite (trace_events_of c st Hc). symmetry. apply app_assoc.
Qed.

(** A pass that finds [bot_running] true starts at the top of the cycle. *)
Lemma iteration_grows w : respects grows (iteration w).
Proof.
  step (respects_iteration (fun _ => True)); auto using grows_set_known.
Qed.

Lemma running_pass_starts w st :
  bot_running w = true ->
  exists rest, events_of (iteration w) st = Get exchangeInfo :: rest.
Proof.
  intros Hw.
  destruct (iteration_grows w st) as [l Hl].
  rewrite (events_of_spec _ _ _ Hl).
  revert Hl. unfold final, iteration. rewrite Hw. cbn [negb].
  unfold mexc_get at 1. unfold bind at 1. unfold bind at 1.
  unfold emit at 1. unfold ret at 1.
  match goal with
  | |- context [snd (?k ?s1)] => set (rest := k); set (st1 := s1)
  end.
  intros Hl.
  assert (Hrest : respects grows rest).
  { subst rest.
    destruct (truthy (http_get w exchangeInfo)); cbn [negb];
      [| step (step_emit (R := grows)); exact I].
    step respects_bind; [step respects_subscript_symbols |].
    intros listed. step respects_bind; [step respects_get_known |].
    intros old. step respects_bind; [apply grows_set_known |].
    intros _. step respects_bind.
    - step respects_for_each. intros s _.
      step (respects_discover (fun _ => True)); auto.
    - intros _. step respects_bind.
      + step (respects_monitor (fun _ => True)); auto.
      + intros _. step (step_emit (R := grows)). exact I. }
  destruct (Hrest st1) as [l1 Hl1]. unfold final in Hl1.
  rewrite Hl1 in Hl. subst st1. cbn [trace] in Hl.
  rewrite <- app_assoc in Hl. apply app_inv_head in Hl.
  exists l1. symmetry. exact Hl.
Qed.

(** C8. A pass that starts with [bot_running] false does nothing but
    sleep two seconds: no request goes to the exchange, the table and
    the known set are untouched, and the loop goes on to test the flag
    again; a later pass that finds it true starts from the top, with the
    request for the exchange information. *)
Theorem paused_pass :
  forall (w : env) (ws : list env) (st : state),
    bot_running w = false ->
    let st' := mkState (positions st) (known st) (trace st ++ [Sleep 2]) in
    iteration w st = (Ok tt, st') /\
    events_of (iteration w) st = [Sleep 2] /\
    existsb gateway_call (events_of (iteration w) st) = false /\
    passes (w :: ws) st = passes ws st' /\
    (forall w', bot_running w' = true ->
                exists rest,
                  events_of (iteration w') st' = Get exchangeInfo :: rest).
Proof.
  intros w ws st Hw st'.
  assert (E : iteration w st = (Ok tt, st')).
  { unfold iteration. rewrite Hw. reflexivity. }
  assert (Ev : events_of (iteration w) st = [Sleep 2]).
  { apply events_of_spec. unfold final. rewrite E. reflexivity. }
  repeat split.
  - exact E.
  - exact Ev.
  - rewrite Ev. reflexivity.
  - unfold passes. simpl. unfold bind. rewrite E. reflexivity.
  - intros w' Hw'. apply running_pass_starts. exact Hw'.
Qed.

Lemma paused_pass_witness :
  bot_running paused = false /\
  iteration paused two_positions =
  (Ok tt, mkState (positions two_positions) (known two_positions) [Sleep 2]).
Proof.
  split; [reflexivity |].
  exact (proj1 (paused_pass paused [] two_positions eq_refl)).
Defined.

(** ** The four ways a pass can go *)

Lemma iteration_paused w st :
  bot_running w = false ->
  iteration w st =
  (Ok tt, mkState (positions st) (known st) (trace st ++ [Sleep 2])).
Proof. intros Hw. unfold iteration. rewrite Hw. reflexivity. Qed.

Lemma iteration_no_info w st :
  bot_running w = true ->
  truthy (http_get w exchangeInfo) = false ->
  iteration w st =
  (Ok tt,
   mkState (positions st) (known st)
     (trace st ++ [Get exchangeInfo; Sleep 5])).
Proof.
  intros Hw Hi. unfold iteration. rewrite Hw. unfold_steps. cbn.
  rewrite Hi. cbn. rewrite <- app_assoc. reflexivity.
Qed.

Lemma iteration_bad_info w st :
  bot_running w = true ->
  truthy (http_get w exchangeInfo) = true ->
  (forall l, http_get w exchangeInfo <> Some (ExchangeInfoBody l)) ->
  exists e,
    iteration w st =
    (Raise e,
     mkState (positions st) (known st) (trace st ++ [Get exchangeInfo])).
Proof.
  intros Hw Hi Hn. unfold iteration. rewrite Hw. unfold_steps. cbn.
  rewrite Hi. cbn.
  destruct (http_get w exchangeInfo) as [[l | c | p] |]; cbn.
  - exfalso. apply (Hn l). reflexivity.
  - exists TypeError. reflexivity.
  - exists KeyError. reflexivity.
  - discriminate Hi.
Qed.

Lemma iteration_running w st l :
  bot_running w = true ->
  http_get w exchangeInfo = Some (ExchangeInfoBody l) ->
  iteration w st =
  (for_each (discover w) (difference (tradable_symbols l) (known st)) ;;
   monitor w ;;
   sleep CHECK_INTERVAL)
    (mkState (positions st) (tradable_symbols l)
       (trace st ++ [Get exchangeInfo])).
Proof.
  intros Hw Hi. unfold iteration. rewrite Hw. cbn [negb].
  unfold mexc_get, get_known, set_known, emit.
  unfold bind at 1 2. unfold ret at 1. rewrite Hi. cbn [truthy negb].
  unfold subscript_symbols. unfold bind at 1. unfold ret at 1.
  unfold bind at 1. unfold bind at 1. reflexivity.
Qed.

(** The cases are exhaustive. *)
Lemma iteration_cases w :
  bot_running w = false \/
  (bot_running w = true /\ truthy (http_get w exchangeInfo) = false) \/
  (bot_running w = true /\ truthy (http_get w exchangeInfo) = true /\
   forall l, http_get w exchangeInfo <> Some (ExchangeInfoBody l)) \/
  (bot_running w = true /\
   exists l, http_get w exchangeInfo = Some (ExchangeInfoBody l)).
Proof.
  destruct (bot_running w); [| left; reflexivity].
  right. destruct (http_get w exchangeInfo) as [[l | [| c cs] | p] |].
  - right. right. split; [reflexivity |]. exists l. reflexivity.
  - left. split; reflexivity.
  - right. left. repeat split. intros l H. discriminate H.
  - right. left. repeat split. intros l H. discriminate H.
  - left. split; reflexivity.
Qed.

(** * Discovery *)

#[export] Instance adds_order P : StepOrder (adds P).
Proof.
  split.
  - intros st. exists []. split; [symmetry; apply app_nil_r | constructor].
  - intros a b c (l1 & H1 & P1) (l2 & H2 & P2). exists (l1 ++ l2). split.
    + rewrite H2, H1. symmetry. apply app_assoc.
    + apply Forall_app. split; assumption.
Qed.

#[export] Instance adds_engine P : EngineRelation P (adds P).
Proof.
  split.
  - exact (adds_order P).
  - intros e He st. exists [e]. split; [reflexivity |].
    constructor; [exact He | constructor].
  - intros r st. exists []. split; [symmetry; apply app_nil_r | constructor].
  - intros p s st. exists []. split; [symmetry; apply app_nil_r | constructor].
  - intros s st. exists []. split; [symmetry; apply app_nil_r | constructor].
Qed.

#[export] Instance same_known_order : StepOrder same_known.
Proof.
  split.
  - intros st. reflexivity.
  - intros a b c H1 H2. unfold same_known in *. congruence.
Qed.

#[export] Instance same_known_engine :
  EngineRelation (fun _ => True) same_known.
Proof.
  split; [exact same_known_order | | | |]; intros; intros st; reflexivity.
Qed.

Lemma In_tradable_symbols s l :
  In s (tradable_symbols l) <->
  exists i, In i l /\ info_symbol i = s /\
            info_status i = "TRADING"%string /\
            endswith s "USDT" = true.
Proof.
  unfold tradable_symbols. rewrite nodup_In, in_map_iff. split.
  - intros (i & Hs & Hi). apply filter_In in Hi. destruct Hi as [Hi Ht].
    unfold tradable_usdt in Ht. apply andb_true_iff in Ht.
    destruct Ht as [Ht Hu]. apply String.eqb_eq in Ht.
    exists i. subst s. repeat split; assumption.
  - intros (i & Hi & Hs & Ht & Hu). exists i. split; [exact Hs |].
    apply filter_In. split; [exact Hi |].
    unfold tradable_usdt. rewrite Hs, Hu, Ht. reflexivity.
Qed.

Lemma mem_In x l : mem x l = true <-> In x l.
Proof.
  unfold mem. rewrite existsb_exists. split.
  - intros (y & Hy & E). apply String.eqb_eq in E. subst y. exact Hy.
  - intros H. exists x. split; [exact H | apply String.eqb_refl].
Qed.

Lemma In_difference s a b :
  In s (difference a b) <-> In s a /\ ~ In s b.
Proof.
  unfold difference. rewrite filter_In. split; intros [Ha Hb]; split;
    try exact Ha.
  - intros Hin. apply mem_In in Hin. rewrite Hin in Hb. discriminate Hb.
  - destruct (mem s b) eqn:E; [| reflexivity].
    apply mem_In in E. contradiction.
Qed.

Lemma skipn_length_app {A} (a b : list A) :
  skipn (List.length a) (a ++ b) = b.
Proof. induction a as [| x a IH]; simpl; [reflexivity | exact IH]. Qed.

(** What follows the request for the exchange information in a pass that
    gets it: the discovery requests are about new symbols only. *)
Lemma running_events w st l :
  bot_running w = true ->
  http_get w exchangeInfo = Some (ExchangeInfoBody l) ->
  exists evs,
    events_of (iteration w) st = Get exchangeInfo :: evs /\
    Forall (concerning
              (fun s => In s (difference (tradable_symbols l) (known st))))
           evs.
Proof.
  intros Hw Hi. unfold events_of, final.
  rewrite (iteration_running w st l Hw Hi).
  set (new := difference (tradable_symbols l) (known st)).
  set (P := concerning (fun s => In s new)).
  assert (Hrest : respects (adds P)
                    (for_each (discover w) new ;;
                     monitor w ;; sleep CHECK_INTERVAL)).
  { step respects_bind.
    - step respects_for_each. intros s Hs.
      step (respects_discover P); intros; intros s' E;
        try discriminate E; injection E as <-; exact Hs.
    - intros _. step respects_bind.
      + step (respects_monitor P); intros; intros s' E; discriminate E.
      + intros _. step (step_emit (R := adds P)). intros s' E. discriminate E. }
  match goal with
  | |- context [snd (_ ?s2)] => destruct (Hrest s2) as (evs & Hevs & HP)
  end.
  unfold final in Hevs. rewrite Hevs. cbn [trace].
  exists evs. split; [| exact HP].
  rewrite <- app_assoc. apply skipn_length_app.
Qed.

Lemma running_known w st l :
  bot_running w = true ->
  http_get w exchangeInfo = Some (ExchangeInfoBody l) ->
  known (final (iteration w) st) = tradable_symbols l.
Proof.
  intros Hw Hi. unfold final. rewrite (iteration_running w st l Hw Hi).
  assert (Hrest : respects same_known
                    (for_each (discover w)
                       (difference (tradable_symbols l) (known st)) ;;
                     monitor w ;; sleep CHECK_INTERVAL)).
  { step respects_bind.
    - step respects_for_each. intros s _.
      step (respects_discover (fun _ => True)); auto.
    - intros _. step respects_bind.
      + step (respects_monitor (fun _ => True)); auto.
      + intros _. step (step_emit (R := same_known)). exact I. }
  match goal with
  | |- context [snd (_ ?s2)] => exact (Hrest s2)
  end.
Qed.

(** * Open Position: no guard on the store *)

Lemma filter_has_symbol_INSERT r t :
  filter (has_symbol (symbol r)) (INSERT_OR_REPLACE r t) = [r].
Proof.
  unfold INSERT_OR_REPLACE. rewrite filter_app. simpl.
  unfold has_symbol at 3. rewrite String.eqb_refl.
  replace (filter (has_symbol (symbol r))
             (filter (fun x => negb (has_symbol (symbol r) x)) t))
    with (@nil position); [reflexivity |].
  induction t as [| x t IH]; simpl; [reflexivity |].
  destruct (has_symbol (symbol r) x) eqn:E; simpl; [exact IH |].
  rewrite E. exact IH.
Qed.

Lemma market_buy_posts_first w s st :
  exists rest,
    events_of (market_buy w s) st =
    Post (MarketBuy s (BUY_USDT_AMOUNT w)) :: rest.
Proof.
  unfold market_buy, first_fill_price.
  destruct (http_post w (MarketBuy s (BUY_USDT_AMOUNT w))) as [d | e] eqn:Hp.
  - destruct (orderId d) eqn:Hid; [destruct (fills d) as [[| p l] |] eqn:Hf |];
      eexists; apply events_of_spec; unfold final; unfold_steps; cbn;
      rewrite Hp; cbn; rewrite ?Hid; cbn; rewrite ?Hf; cbn;
      rewrite <- ?app_assoc; reflexivity.
  - eexists. apply events_of_spec. unfold final. unfold_steps. cbn.
    rewrite Hp. cbn. reflexivity.
Qed.

(** C4, as the code has it.  A BUY is posted only in a pass that found
    [bot_running] true.  [market_buy] itself does not look at the table:
    it posts the order first, whatever the table holds, and when a row of
    that symbol exists and the order fills, the call returns and the
    table holds exactly one row of the symbol, the new one. *)
Theorem open_position_unguarded :
  forall (w : env) (st : state) (s : string),
    (forall q, In (Post (MarketBuy s q)) (events_of (iteration w) st) ->
               bot_running w = true) /\
    (exists rest,
        events_of (market_buy w s) st =
        Post (MarketBuy s (BUY_USDT_AMOUNT w)) :: rest) /\
    (forall r data id p l,
        SELECT_one s (positions st) = Some r ->
        http_post w (MarketBuy s (BUY_USDT_AMOUNT w)) = Returns data ->
        orderId data = Some id ->
        fills data = Some (p :: l) ->
        fst (market_buy w s st) = Ok tt /\
        filter (has_symbol s) (positions (final (market_buy w s) st)) =
        [mkPosition s (match executedQty data with Some q => q | None => 0 end)
           p (time_time w (AtBuy s)) p]).
Proof.
  intros w st s. split; [| split].
  - intros q Hin. destruct (bot_running w) eqn:Hw; [reflexivity |].
    rewrite (events_of_spec _ _ [Sleep 2]) in Hin.
    + destruct Hin as [E | []]. discriminate E.
    + unfold final. rewrite (iteration_paused w st Hw). reflexivity.
  - apply market_buy_posts_first.
  - intros r data id p l _ Hp Hid Hf. unfold final.
    rewrite (market_buy_filled w s st data id p l Hp Hid Hf).
    cbn [fst snd positions]. split; [reflexivity |].
    apply (filter_has_symbol_INSERT
             (mkPosition s _ p (time_time w (AtBuy s)) p)).
Qed.

Lemma open_position_unguarded_witness :
  bot_running (fresh_listing 100 60) = true /\
  filter (has_symbol AAA)
    (positions (final (market_buy (fresh_listing 100 60) AAA)
                  (mkState [held AAA 50] [] []))) =
  [mkPosition AAA 2 100 60 100].
Proof.
  pose proof (open_position_unguarded (fresh_listing 100 60)
                (mkState [held AAA 50] [] []) AAA) as (H1 & _ & H3).
  split.
  - apply (H1 1). vm_compute. right. right. left. reflexivity.
  - exact (proj2 (H3 (held AAA 50) (filled 2 100) 7%Z 100 []
                    eq_refl eq_refl eq_refl eq_refl)).
Defined.

(** C4, as the claim has it, fails: after a restart the known set is
    empty while the table still holds [AAA]; the pass finds [AAA] newly
    listed with flat candles and buys it again. *)
Lemma open_position_guard_fails :
  ~ (forall (w : env) (st : state) (s : string) (q : Q),
        In (Post (MarketBuy s q)) (events_of (iteration w) st) ->
        bot_running w = true /\ SELECT_one s (positions st) = None).
Proof.
  intros H.
  destruct (H (fresh_listing 100 60) (mkState [held AAA 50] [] []) AAA 1)
    as [_ E].
  - vm_compute. right. right. left. reflexivity.
  - discriminate E.
Qed.

(** * The primary key *)

Lemma In_map_symbol_filter f s t :
  In s (map symbol (filter f t)) -> In s (map symbol t).
Proof.
  rewrite !in_map_iff. intros (r & E & Hin). apply filter_In in Hin.
  exists r. split; [exact E | apply Hin].
Qed.

Lemma primary_key_filter f t :
  primary_key t -> primary_key (filter f t).
Proof.
  unfold primary_key. induction t as [| r t IH]; simpl; intros H.
  - constructor.
  - apply NoDup_cons_iff in H. destruct H as [Hr Ht].
    destruct (f r); simpl; [| apply IH; exact Ht].
    constructor; [| apply IH; exact Ht].
    intros Hin. apply Hr. apply In_map_symbol_filter with (f := f). exact Hin.
Qed.

Lemma primary_key_INSERT r t :
  primary_key t -> primary_key (INSERT_OR_REPLACE r t).
Proof.
  intros H. unfold primary_key, INSERT_OR_REPLACE. rewrite map_app. simpl.
  apply NoDup_app.
  - apply primary_key_filter. exact H.
  - constructor; [intros [] | constructor].
  - intros s Hs [<- | []]. apply (DELETE_absent (symbol r) t). exact Hs.
Qed.

Lemma primary_key_UPDATE p s t :
  primary_key t -> primary_key (UPDATE_high_price p s t).
Proof. unfold primary_key. rewrite map_symbol_UPDATE. auto. Qed.

Lemma primary_key_DELETE s t : primary_key t -> primary_key (DELETE s t).
Proof. apply primary_key_filter. Qed.

#[export] Instance keeps_key_order : StepOrder keeps_key.
Proof.
  split.
  - intros st H. exact H.
  - intros a b c H1 H2 H. apply H2, H1, H.
Qed.

#[export] Instance keeps_key_engine :
  EngineRelation (fun _ => True) keeps_key.
Proof.
  split.
  - exact keeps_key_order.
  - intros e _ st H. exact H.
  - intros r st H. apply primary_key_INSERT. exact H.
  - intros p s st H. apply primary_key_UPDATE. exact H.
  - intros s st H. apply primary_key_DELETE. exact H.
Qed.

Lemma keeps_key_set_known k : respects keeps_key (set_known k).
Proof. intros st H. exact H. Qed.

Lemma iteration_keeps_key w : respects keeps_key (iteration w).
Proof.
  step (respects_iteration (fun _ => True)); auto using keeps_key_set_known.
Qed.

Lemma run_ops_keeps_key ops : respects keeps_key (run_ops ops).
Proof.
  step respects_for_each. intros [w s | w s why | w] _; simpl.
  - step (respects_market_buy (fun _ => True)); auto.
  - step (respects_market_sell (fun _ => True)); auto.
  - apply iteration_keeps_key.
Qed.

(** C5. Whatever the engine does, in whatever order and whatever the
    exchange answers, a table with at most one row per symbol stays so;
    and two opens of the same symbol that both fill leave exactly one row
    of that symbol, the one written last. *)
Theorem one_row_per_symbol :
  (forall (ops : list engine_op) (st : state),
      primary_key (positions st) ->
      primary_key (positions (final (run_ops ops) st))) /\
  (forall (w1 w2 : env) (s : string) (st : state)
          (d1 d2 : order_body) (id1 id2 : Z) (p1 p2 : Q) (l1 l2 : list Q),
      http_post w1 (MarketBuy s (BUY_USDT_AMOUNT w1)) = Returns d1 ->
      orderId d1 = Some id1 -> fills d1 = Some (p1 :: l1) ->
      http_post w2 (MarketBuy s (BUY_USDT_AMOUNT w2)) = Returns d2 ->
      orderId d2 = Some id2 -> fills d2 = Some (p2 :: l2) ->
      filter (has_symbol s)
        (positions
           (final (run_ops [OpenPosition w1 s; OpenPosition w2 s]) st)) =
      [mkPosition s
         (match executedQty d2 with Some q => q | None => 0 end)
         p2 (time_time w2 (AtBuy s)) p2]).
Proof.
  split.
  - intros ops st. apply run_ops_keeps_key.
  - intros w1 w2 s st d1 d2 id1 id2 p1 p2 l1 l2 Hp1 Hi1 Hf1 Hp2 Hi2 Hf2.
    unfold final, run_ops. simpl. unfold bind.
    rewrite (market_buy_filled w1 s st d1 id1 p1 l1 Hp1 Hi1 Hf1).
    rewrite (market_buy_filled w2 s _ d2 id2 p2 l2 Hp2 Hi2 Hf2).
    cbn [snd positions ret].
    apply (filter_has_symbol_INSERT
             (mkPosition s _ p2 (time_time w2 (AtBuy s)) p2)).
Qed.

Lemma one_row_per_symbol_witness :
  primary_key
    (positions
       (final (run_ops [Pass (fresh_listing 100 60);
                        OpenPosition (fresh_listing 120 80) AAA;
                        ClosePosition (calm 100 90) BBB TIMEOUT])
          two_positions)) /\
  filter (has_symbol AAA)
    (positions
       (final (run_ops [OpenPosition (fresh_listing 100 60) AAA;
                        OpenPosition (fresh_listing 120 80) AAA])
          (mkState [] [] []))) =
  [mkPosition AAA 2 120 80 120].
Proof.
  split.
  - apply (proj1 one_row_per_symbol). unfold primary_key.
    repeat constructor; simpl; intuition discriminate.
  - exact (proj2 one_row_per_symbol
             (fresh_listing 100 60) (fresh_listing 120 80) AAA
             (mkState [] [] []) (filled 2 100) (filled 2 120) 7%Z 7%Z
             100 120 [] [] eq_refl eq_refl eq_refl eq_refl eq_refl eq_refl).
Defined.

(** * The high-water mark *)

(** ** One row under the statements *)

Lemma SELECT_one_symbol s t r : SELECT_one s t = Some r -> symbol r = s.
Proof.
  unfold SELECT_one. intros H. apply find_some in H. destruct H as [_ H].
  apply String.eqb_eq. exact H.
Qed.

Lemma SELECT_one_member s t r : SELECT_one s t = Some r -> In r t.
Proof. unfold SELECT_one. intros H. apply find_some in H. apply H. Qed.

Lemma SELECT_one_In t r :
  primary_key t -> In r t -> SELECT_one (symbol r) t = Some r.
Proof.
  unfold primary_key, SELECT_one.
  induction t as [| x t IH]; simpl; intros Hk Hin; [contradiction |].
  apply NoDup_cons_iff in Hk. destruct Hk as [Hx Hk].
  destruct Hin as [-> | Hin].
  - unfold has_symbol. rewrite String.eqb_refl. reflexivity.
  - unfold has_symbol at 1. destruct (String.eqb_spec (symbol x) (symbol r)) as [E | E].
    + exfalso. apply Hx. rewrite E. apply in_map. exact Hin.
    + apply IH; assumption.
Qed.

Lemma SELECT_one_UPDATE_same p s t :
  SELECT_one s (UPDATE_high_price p s t) =
  option_map (set_high_price p) (SELECT_one s t).
Proof.
  unfold SELECT_one, UPDATE_high_price.
  induction t as [| x t IH]; simpl; [reflexivity |].
  destruct (has_symbol s x) eqn:E; simpl.
  - unfold has_symbol in *. simpl. rewrite E. reflexivity.
  - rewrite E. exact IH.
Qed.

Lemma SELECT_one_UPDATE_other p s s' t :
  s' <> s -> SELECT_one s' (UPDATE_high_price p s t) = SELECT_one s' t.
Proof.
  intros Hn. unfold SELECT_one, UPDATE_high_price.
  induction t as [| x t IH]; simpl; [reflexivity |].
  destruct (has_symbol s x) eqn:E; simpl.
  - unfold has_symbol in *. simpl. apply String.eqb_eq in E.
    destruct (String.eqb_spec (symbol x) s') as [E' | E'].
    + exfalso. apply Hn. congruence.
    + exact IH.
  - rewrite IH. reflexivity.
Qed.

Lemma SELECT_one_DELETE_same s t : SELECT_one s (DELETE s t) = None.
Proof. apply SELECT_one_absent. apply DELETE_absent. Qed.

Lemma SELECT_one_filter_other s s' t :
  s' <> s ->
  SELECT_one s' (filter (fun x => negb (has_symbol s x)) t) = SELECT_one s' t.
Proof.
  intros Hn. unfold SELECT_one.
  induction t as [| x t IH]; simpl; [reflexivity |].
  destruct (has_symbol s x) eqn:E; simpl.
  - unfold has_symbol in *. apply String.eqb_eq in E.
    destruct (String.eqb_spec (symbol x) s') as [E' | E'].
    + exfalso. apply Hn. congruence.
    + exact IH.
  - rewrite IH. reflexivity.
Qed.

Lemma SELECT_one_DELETE_other s s' t :
  s' <> s -> SELECT_one s' (DELETE s t) = SELECT_one s' t.
Proof. apply SELECT_one_filter_other. Qed.

Lemma SELECT_one_app s t1 t2 :
  SELECT_one s (t1 ++ t2) =
  match SELECT_one s t1 with
  | Some r => Some r
  | None => SELECT_one s t2
  end.
Proof.
  unfold SELECT_one. induction t1 as [| x t1 IH]; simpl; [reflexivity |].
  destruct (has_symbol s x); [reflexivity | exact IH].
Qed.

Lemma SELECT_one_INSERT_same r t :
  SELECT_one (symbol r) (INSERT_OR_REPLACE r t) = Some r.
Proof.
  unfold INSERT_OR_REPLACE. rewrite SELECT_one_app.
  change (filter (fun x => negb (has_symbol (symbol r) x)) t)
    with (DELETE (symbol r) t).
  rewrite SELECT_one_DELETE_same. unfold SELECT_one. simpl.
  unfold has_symbol. rewrite String.eqb_refl. reflexivity.
Qed.

Lemma SELECT_one_INSERT_other r s' t :
  s' <> symbol r -> SELECT_one s' (INSERT_OR_REPLACE r t) = SELECT_one s' t.
Proof.
  intros Hn. unfold INSERT_OR_REPLACE. rewrite SELECT_one_app.
  rewrite (SELECT_one_filter_other (symbol r) s' t Hn).
  destruct (SELECT_one s' t); [reflexivity |].
  unfold SELECT_one. simpl. unfold has_symbol.
  destruct (String.eqb_spec (symbol r) s') as [E | E]; [| reflexivity].
  exfalso. apply Hn. symmetry. exact E.
Qed.

Lemma set_high_price_same r : set_high_price (high_price r) r = r.
Proof. destruct r. reflexivity. Qed.

(** ** One row under the monitor step *)

Lemma market_sell_Ok w s why st st' :
  market_sell w s why st = (Ok tt, st') ->
  positions st' = positions st \/ positions st' = DELETE s (positions st).
Proof.
  intros H. destruct (SELECT_one s (positions st)) as [r |] eqn:Hr.
  - destruct (http_post w (MarketSell s (qty r))) as [d | e] eqn:Hp.
    + rewrite (market_sell_returns w s why st r d Hr Hp) in H.
      injection H as <-. right. reflexivity.
    + rewrite (market_sell_throws w s why st r e Hr Hp) in H. discriminate H.
  - rewrite (market_sell_absent w s why st Hr) in H.
    injection H as <-. left. reflexivity.
Qed.

Lemma monitor_row_Ok w r st st' :
  monitor_row w r st = (Ok tt, st') ->
  exists p,
    http_get w (ticker_price (symbol r)) = Some (TickerBody p) /\
    (positions st' = positions (after_price_check r p st) \/
     positions st' =
     DELETE (symbol r) (positions (after_price_check r p st))).
Proof.
  intros H.
  destruct (http_get w (ticker_price (symbol r))) as [[l | c | p] |] eqn:Hp;
    try (destruct (monitor_row_unpriced w r st) as [e He];
         [intros p' E; rewrite Hp in E; discriminate E
         | rewrite H in He; discriminate He]).
  exists p. split; [reflexivity |].
  rewrite (monitor_row_priced w r st p Hp) in H. cbv zeta in H.
  repeat match type of H with
         | (if ?b then _ else _) = _ => destruct b
         end;
    try (apply market_sell_Ok in H; exact H).
  injection H as <-. left. reflexivity.
Qed.

Lemma after_price_check_other r p st s' :
  s' <> symbol r ->
  SELECT_one s' (positions (after_price_check r p st)) =
  SELECT_one s' (positions st).
Proof.
  intros Hn. unfold after_price_check. cbn [positions].
  destruct (Qlt_bool (high_price r) p); [| reflexivity].
  apply SELECT_one_UPDATE_other. exact Hn.
Qed.

Lemma after_price_check_own r p st :
  SELECT_one (symbol r) (positions st) = Some r ->
  SELECT_one (symbol r) (positions (after_price_check r p st)) =
  Some (set_high_price (high_water (high_price r) p) r).
Proof.
  intros Hr. unfold after_price_check, high_water. cbn [positions].
  destruct (Qlt_bool (high_price r) p).
  - rewrite SELECT_one_UPDATE_same, Hr. reflexivity.
  - rewrite set_high_price_same. exact Hr.
Qed.

Lemma monitor_row_other w r st st' s' :
  s' <> symbol r ->
  monitor_row w r st = (Ok tt, st') ->
  kept s' st st'.
Proof.
  intros Hn H. unfold kept.
  destruct (monitor_row_Ok w r st st' H) as (p & _ & [E | E]); rewrite E.
  - apply after_price_check_other. exact Hn.
  - rewrite (SELECT_one_DELETE_other _ _ _ Hn).
    apply after_price_check_other. exact Hn.
Qed.

Lemma monitor_row_own w r st st' :
  SELECT_one (symbol r) (positions st) = Some r ->
  monitor_row w r st = (Ok tt, st') ->
  exists p,
    http_get w (ticker_price (symbol r)) = Some (TickerBody p) /\
    (SELECT_one (symbol r) (positions st') = None \/
     SELECT_one (symbol r) (positions st') =
     Some (set_high_price (high_water (high_price r) p) r)).
Proof.
  intros Hr H.
  destruct (monitor_row_Ok w r st st' H) as (p & Hp & [E | E]);
    exists p; (split; [exact Hp |]); rewrite E.
  - right. apply after_price_check_own. exact Hr.
  - left. apply SELECT_one_DELETE_same.
Qed.

Lemma for_each_monitor_row w rows :
  forall st st',
    NoDup (map symbol rows) ->
    (forall r, In r rows -> SELECT_one (symbol r) (positions st) = Some r) ->
    for_each (monitor_row w) rows st = (Ok tt, st') ->
    forall s,
      (~ In s (map symbol rows) -> kept s st st') /\
      (forall r, In r rows -> symbol r = s ->
                 monitored w s (Some r) (SELECT_one s (positions st'))).
Proof.
  induction rows as [| x rows IH]; intros st st' Hnd Hrows H s.
  - simpl in H. injection H as <-. split; [reflexivity | intros r []].
  - apply for_each_inv_Ok in H. destruct H as (st1 & Hx & Hrest).
    simpl in Hnd. apply NoDup_cons_iff in Hnd. destruct Hnd as [Hxn Hnd].
    assert (Hrows1 : forall r, In r rows ->
                               SELECT_one (symbol r) (positions st1) = Some r).
    { intros r Hr.
      rewrite (monitor_row_other w x st st1 (symbol r)); [| | exact Hx].
      - apply Hrows. right. exact Hr.
      - intros E. apply Hxn. rewrite <- E. apply in_map. exact Hr. }
    destruct (IH st1 st' Hnd Hrows1 Hrest s) as [IH1 IH2].
    split.
    + intros Hs. unfold kept in *. rewrite IH1.
      * apply (monitor_row_other w x st st1 s); [| exact Hx].
        intros E. apply Hs. left. symmetry. exact E.
      * intros Hin. apply Hs. right. exact Hin.
    + intros r [-> | Hr] Hs.
      * subst s.
        assert (Hk : kept (symbol r) st1 st') by (apply IH1; exact Hxn).
        unfold kept in Hk. rewrite Hk.
        apply (monitor_row_own w r st st1); [| exact Hx].
        apply Hrows. left. reflexivity.
      * apply IH2; assumption.
Qed.

Lemma monitor_Ok w st st' s :
  primary_key (positions st) ->
  monitor w st = (Ok tt, st') ->
  monitored w s (SELECT_one s (positions st)) (SELECT_one s (positions st')).
Proof.
  intros Hk H. unfold monitor, query, bind in H.
  pose proof (for_each_monitor_row w (positions st) st st' Hk
                (fun r Hr => SELECT_one_In _ r Hk Hr) H s) as [H1 H2].
  destruct (SELECT_one s (positions st)) as [r |] eqn:Hr.
  - apply H2.
    + apply (SELECT_one_member s). exact Hr.
    + apply (SELECT_one_symbol s (positions st)). exact Hr.
  - simpl. unfold kept in H1. rewrite H1; [exact Hr |].
    intros Hin. apply SELECT_one_present in Hin.
    destruct Hin as (r & E & _). rewrite Hr in E. discriminate E.
Qed.

(** ** One row under discovery *)

#[export] Instance kept_order s : StepOrder (kept s).
Proof.
  split.
  - intros st. reflexivity.
  - intros a b c H1 H2. unfold kept in *. congruence.
Qed.

#[export] Instance unless_bought_order s : StepOrder (unless_bought s).
Proof.
  split.
  - intros st. exists []. split; [symmetry; apply app_nil_r |].
    intros _. reflexivity.
  - intros a b c (l1 & H1 & K1) (l2 & H2 & K2). exists (l1 ++ l2). split.
    + rewrite H2, H1. symmetry. apply app_assoc.
    + rewrite existsb_app. intros E. apply orb_false_iff in E.
      destruct E as [E1 E2].
      apply (step_trans (R := kept s) a b c); auto.
Qed.

Lemma market_buy_grows w s : respects grows (market_buy w s).
Proof. step (respects_market_buy (fun _ => True)); auto. Qed.

Lemma discover_grows w s : respects grows (discover w s).
Proof. step (respects_discover (fun _ => True)); auto. Qed.

Lemma monitor_grows w : respects grows (monitor w).
Proof. step (respects_monitor (fun _ => True)); auto. Qed.

Lemma passes_grows ws : respects grows (passes ws).
Proof.
  step (respects_passes (fun _ => True)); auto using grows_set_known.
Qed.

Lemma market_buy_kept w s s' : s' <> s -> respects (kept s') (market_buy w s).
Proof.
  intros Hn st. unfold kept, final, market_buy, first_fill_price.
  unfold_steps. cbn.
  destruct (http_post w (MarketBuy s (BUY_USDT_AMOUNT w))) as [d | e];
    [| reflexivity].
  destruct (orderId d); [| reflexivity].
  destruct (fills d) as [[| p l] |]; try reflexivity.
  exact (SELECT_one_INSERT_other
           (mkPosition s _ p (time_time w (AtBuy s)) p) s' (positions st) Hn).
Qed.

Lemma discover_eq w s st :
  discover w s st =
  (if all_flat (http_get w (klines s INTERVAL CANDLE_LIMIT))
   then market_buy w s
   else ret tt)
    (mkState (positions st) (known st)
       (trace st ++ [Get (klines s INTERVAL CANDLE_LIMIT)])).
Proof. reflexivity. Qed.

Lemma discover_kept w s s' : s' <> s -> respects (kept s') (discover w s).
Proof.
  intros Hn st. unfold final. rewrite discover_eq.
  destruct (all_flat (http_get w (klines s INTERVAL CANDLE_LIMIT))).
  - apply (market_buy_kept w s s' Hn
             (mkState (positions st) (known st)
                (trace st ++ [Get (klines s INTERVAL CANDLE_LIMIT)]))).
  - reflexivity.
Qed.

(** A BUY that the exchange does not fill leaves the table as it is. *)
Lemma market_buy_unfilled w s st :
  fills_order w s = false ->
  positions (final (market_buy w s) st) = positions st.
Proof.
  unfold fills_order, final, market_buy, first_fill_price.
  unfold_steps. cbn.
  destruct (http_post w (MarketBuy s (BUY_USDT_AMOUNT w))) as [d | e];
    [| reflexivity].
  destruct (orderId d); [| reflexivity].
  destruct (fills d) as [[| p l] |]; try reflexivity.
  intros H. discriminate H.
Qed.

Lemma discover_kept_unfilled w s s' :
  fills_order w s' = false -> respects (kept s') (discover w s).
Proof.
  intros Hf. destruct (string_dec s' s) as [-> | Hn];
    [| apply discover_kept; exact Hn].
  intros st. unfold kept, final. rewrite discover_eq.
  destruct (all_flat (http_get w (klines s INTERVAL CANDLE_LIMIT)));
    [| reflexivity].
  exact (f_equal (SELECT_one s)
           (market_buy_unfilled w s
              (mkState (positions st) (known st)
                 (trace st ++ [Get (klines s INTERVAL CANDLE_LIMIT)])) Hf)).
Qed.

Lemma discover_unless_bought w s s' :
  respects (unless_bought s') (discover w s).
Proof.
  intros st. destruct (string_dec s' s) as [-> | Hn].
  - unfold unless_bought, final. rewrite discover_eq.
    set (st1 := mkState (positions st) (known st)
                  (trace st ++ [Get (klines s INTERVAL CANDLE_LIMIT)])).
    destruct (all_flat (http_get w (klines s INTERVAL CANDLE_LIMIT))).
    + destruct (market_buy_posts_first w s st1) as [rest Hrest].
      pose proof (trace_events_of (market_buy w s) st1 (market_buy_grows w s))
        as Ht.
      rewrite Hrest in Ht. unfold final in Ht.
      exists (Get (klines s INTERVAL CANDLE_LIMIT)
              :: Post (MarketBuy s (BUY_USDT_AMOUNT w)) :: rest).
      split.
      * rewrite Ht. unfold st1. cbn [trace]. rewrite <- app_assoc. reflexivity.
      * cbn. rewrite String.eqb_refl. intros E. discriminate E.
    + exists [Get (klines s INTERVAL CANDLE_LIMIT)]. split; [reflexivity |].
      intros _. reflexivity.
  - destruct (discover_grows w s st) as [l Hl]. exists l.
    split; [exact Hl |]. intros _. apply discover_kept. exact Hn.
Qed.

Lemma existsb_app_false {A} (f : A -> bool) l1 l2 :
  existsb f (l1 ++ l2) = false ->
  existsb f l1 = false /\ existsb f l2 = false.
Proof. rewrite existsb_app. apply orb_false_iff. Qed.

(** ** One row under a pass *)

Lemma sleep_Ok n st st' :
  sleep n st = (Ok tt, st') -> positions st' = positions st.
Proof. unfold sleep, emit. intros H. injection H as <-. reflexivity. Qed.

(** What a pass does to the row of [s] when it posts no BUY for [s], or
    posts one that the exchange does not fill. *)
Lemma iteration_held w st st' s :
  primary_key (positions st) ->
  iteration w st = (Ok tt, st') ->
  existsb (is_buy_of s) (events_of (iteration w) st) && fills_order w s
  = false ->
  match SELECT_one s (positions st) with
  | None => SELECT_one s (positions st') = None
  | Some r =>
      SELECT_one s (positions st') = None \/
      SELECT_one s (positions st') =
      Some (set_high_price
              (fold_left high_water (observed w s) (high_price r)) r)
  end.
Proof.
  intros Hk H Hb.
  assert (Hsame : observed w s = [] -> positions st' = positions st ->
                  match SELECT_one s (positions st) with
                  | None => SELECT_one s (positions st') = None
                  | Some r =>
                      SELECT_one s (positions st') = None \/
                      SELECT_one s (positions st') =
                      Some (set_high_price
                              (fold_left high_water (observed w s)
                                 (high_price r)) r)
                  end).
  { intros -> ->. destruct (SELECT_one s (positions st)) as [r |];
      [| reflexivity].
    right. simpl. rewrite set_high_price_same. reflexivity. }
  destruct (iteration_cases w)
    as [Hw | [[Hw Hi] | [(Hw & Hi & Hn) | (Hw & l & Hi)]]].
  - rewrite (iteration_paused w st Hw) in H. injection H as <-.
    apply Hsame; [| reflexivity]. unfold observed. rewrite Hw. reflexivity.
  - rewrite (iteration_no_info w st Hw Hi) in H. injection H as <-.
    apply Hsame; [| reflexivity]. unfold observed. rewrite Hw.
    destruct (http_get w exchangeInfo) as [[| [|] |] |];
      try reflexivity; discriminate Hi.
  - destruct (iteration_bad_info w st Hw Hi Hn) as [e E].
    rewrite E in H. discriminate H.
  - unfold events_of, final in Hb.
    rewrite (iteration_running w st l Hw Hi) in H, Hb.
    set (st2 := mkState (positions st) (tradable_symbols l)
                  (trace st ++ [Get exchangeInfo])) in *.
    set (new := difference (tradable_symbols l) (known st)) in *.
    apply bind_inv_Ok in H. destruct H as ([] & st3 & Hd & H).
    apply bind_inv_Ok in H. destruct H as ([] & st4 & Hm & Hs).
    (* discovery *)
    assert (Hkept : SELECT_one s (positions st3) =
                    SELECT_one s (positions st)).
    { destruct (fills_order w s) eqn:Hfill.
      - rewrite andb_true_r in Hb.
        assert (Hdisc : respects (unless_bought s)
                          (for_each (discover w) new)).
        { step respects_for_each. intros x _. apply discover_unless_bought. }
        destruct (Hdisc st2) as (ld & Hld & Hkept).
        unfold final in Hld, Hkept. rewrite Hd in Hld, Hkept. cbn [snd] in *.
        (* the events of the pass *)
        destruct (monitor_grows w st3) as [lm Hlm].
        unfold final in Hlm. rewrite Hm in Hlm. cbn [snd] in Hlm.
        assert (Ht : trace st' = trace st ++ Get exchangeInfo :: ld ++ lm
                                 ++ [Sleep CHECK_INTERVAL]).
        { unfold sleep, emit in Hs. injection Hs as <-. cbn [trace].
          rewrite Hlm, Hld. unfold st2. cbn [trace].
          rewrite <- !app_assoc. reflexivity. }
        unfold bind in Hb. rewrite Hd, Hm, Hs in Hb. cbn [snd] in Hb.
        rewrite Ht, skipn_length_app in Hb. cbn [existsb is_buy_of] in Hb.
        apply existsb_app_false in Hb. destruct Hb as [Hb _].
        exact (Hkept Hb).
      - assert (Hdisc : respects (kept s) (for_each (discover w) new)).
        { step respects_for_each. intros x _.
          apply discover_kept_unfilled. exact Hfill. }
        specialize (Hdisc st2). unfold kept, final in Hdisc.
        rewrite Hd in Hdisc. exact Hdisc. }
    (* monitor *)
    assert (Hk3 : primary_key (positions st3)).
    { assert (Hkk : respects keeps_key (for_each (discover w) new)).
      { step respects_for_each. intros x _.
        step (respects_discover (fun _ => True)); auto. }
      specialize (Hkk st2). unfold final in Hkk. rewrite Hd in Hkk.
      apply Hkk. exact Hk. }
    pose proof (monitor_Ok w st3 st4 s Hk3 Hm) as Hmon.
    rewrite (sleep_Ok _ _ _ Hs). rewrite Hkept in Hmon.
    destruct (SELECT_one s (positions st)) as [r |]; [| exact Hmon].
    destruct Hmon as (p & Hp & [E | E]); [left; exact E | right].
    rewrite E. unfold observed. rewrite Hw, Hi, Hp. reflexivity.
Qed.

Lemma iteration_Ok_keeps_key w st st' :
  primary_key (positions st) ->
  iteration w st = (Ok tt, st') ->
  primary_key (positions st').
Proof.
  intros Hk H. pose proof (iteration_keeps_key w st Hk) as K.
  unfold final in K. rewrite H in K. exact K.
Qed.

Lemma passes_cons_events w ws st st1 :
  iteration w st = (Ok tt, st1) ->
  events_of (passes (w :: ws)) st =
  events_of (iteration w) st ++ events_of (passes ws) st1.
Proof.
  intros H. unfold passes. simpl.
  apply (events_of_bind_Ok (iteration w) (fun _ => for_each iteration ws)
           st tt st1 H).
  - apply iteration_grows.
  - apply passes_grows.
Qed.

Lemma bought_again_app s ws1 ws2 :
  forall st stm,
    passes ws1 st = (Ok tt, stm) ->
    bought_again s (ws1 ++ ws2) st =
    bought_again s ws1 st || bought_again s ws2 stm.
Proof.
  induction ws1 as [| w ws1 IH]; intros st stm H.
  - injection H as <-. reflexivity.
  - unfold passes in H. apply for_each_inv_Ok in H.
    destruct H as (st1 & Hw & Hws). simpl.
    replace (final (iteration w) st) with st1
      by (unfold final; rewrite Hw; reflexivity).
    rewrite (IH st1 stm Hws). apply orb_assoc.
Qed.

(** Passes that post no BUY for [s] do not buy it again. *)
Lemma not_bought_again s ws :
  forall st st',
    passes ws st = (Ok tt, st') ->
    existsb (is_buy_of s) (events_of (passes ws) st) = false ->
    bought_again s ws st = false.
Proof.
  induction ws as [| w ws IH]; intros st st' H Hb; [reflexivity |].
  unfold passes in H. apply for_each_inv_Ok in H.
  destruct H as (st1 & Hw & Hws).
  rewrite (passes_cons_events w ws st st1 Hw) in Hb.
  apply existsb_app_false in Hb. destruct Hb as [Hb1 Hb2].
  simpl. rewrite Hb1.
  replace (final (iteration w) st) with st1
    by (unfold final; rewrite Hw; reflexivity).
  exact (IH st1 st' Hws Hb2).
Qed.

(** What a run of passes does to the row of [s] when none of them posts
    a BUY for [s] that fills. *)
Lemma passes_held ws :
  forall st st' s,
    primary_key (positions st) ->
    passes ws st = (Ok tt, st') ->
    bought_again s ws st = false ->
    match SELECT_one s (positions st) with
    | None => SELECT_one s (positions st') = None
    | Some r =>
        SELECT_one s (positions st') = None \/
        SELECT_one s (positions st') =
        Some (set_high_price
                (fold_left high_water (observations s ws) (high_price r)) r)
    end.
Proof.
  induction ws as [| w ws IH]; intros st st' s Hk H Hb.
  - injection H as <-. destruct (SELECT_one s (positions st)) as [r |];
      [| reflexivity].
    right. simpl. rewrite set_high_price_same. reflexivity.
  - unfold passes in H. apply for_each_inv_Ok in H.
    destruct H as (st1 & Hw & Hws).
    simpl in Hb. apply orb_false_iff in Hb. destruct Hb as [Hb1 Hb2].
    replace (final (iteration w) st) with st1 in Hb2
      by (unfold final; rewrite Hw; reflexivity).
    pose proof (iteration_held w st st1 s Hk Hw Hb1) as H1.
    pose proof (IH st1 st' s (iteration_Ok_keeps_key w st st1 Hk Hw) Hws Hb2)
      as H2.
    destruct (SELECT_one s (positions st)) as [r |].
    + destruct H1 as [E | E]; rewrite E in H2.
      * left. exact H2.
      * destruct H2 as [H2 | H2]; [left; exact H2 | right].
        rewrite H2. simpl. rewrite fold_left_app. reflexivity.
    + rewrite H1 in H2. exact H2.
Qed.

(** ** The mark as a maximum *)

Lemma high_water_ge h p : h <= high_water h p.
Proof.
  unfold high_water, Qlt_bool. destruct (Qle_bool p h) eqn:E; simpl.
  - apply Qle_refl.
  - apply Qlt_le_weak. apply Qnot_le_lt. intros H.
    apply Qle_bool_iff in H. congruence.
Qed.

Lemma high_water_max h p : high_water h p == Qmax h p.
Proof.
  unfold high_water, Qlt_bool. destruct (Qle_bool p h) eqn:E; simpl.
  - apply Qle_bool_iff in E. symmetry. apply Q.max_l. exact E.
  - symmetry. apply Q.max_r. apply Qlt_le_weak. apply Qnot_le_lt.
    intros H. apply Qle_bool_iff in H. congruence.
Qed.

Lemma fold_high_water_ge l : forall h, h <= fold_left high_water l h.
Proof.
  induction l as [| p l IH]; intros h; simpl.
  - apply Qle_refl.
  - eapply Qle_trans; [apply high_water_ge | apply IH].
Qed.

Lemma fold_Qmax_compat l :
  forall h h', h == h' -> fold_left Qmax l h == fold_left Qmax l h'.
Proof.
  induction l as [| p l IH]; intros h h' E; simpl.
  - exact E.
  - apply IH. rewrite E. reflexivity.
Qed.

Lemma fold_high_water_max l :
  forall h, fold_left high_water l h == fold_left Qmax l h.
Proof.
  induction l as [| p l IH]; intros h; simpl.
  - reflexivity.
  - rewrite IH. apply fold_Qmax_compat. apply high_water_max.
Qed.

(** ** The pass that opens the position *)

Lemma discovery_opens w s d id p0 fl :
  all_flat (http_get w (klines s INTERVAL CANDLE_LIMIT)) = true ->
  http_post w (MarketBuy s (BUY_USDT_AMOUNT w)) = Returns d ->
  orderId d = Some id ->
  fills d = Some (p0 :: fl) ->
  forall new st st',
    NoDup new -> In s new ->
    for_each (discover w) new st = (Ok tt, st') ->
    SELECT_one s (positions st') =
    Some (mkPosition s
            (match executedQty d with Some q => q | None => 0 end)
            p0 (time_time w (AtBuy s)) p0).
Proof.
  intros Hflat Hp Hid Hf.
  induction new as [| x new IH]; intros st st' Hnd Hin H; [contradiction |].
  apply for_each_inv_Ok in H. destruct H as (st1 & Hx & Hrest).
  apply NoDup_cons_iff in Hnd. destruct Hnd as [Hxn Hnd].
  destruct (string_dec x s) as [-> | Hne].
  - assert (Hk : respects (kept s) (for_each (discover w) new)).
    { step respects_for_each. intros y Hy. apply discover_kept.
      intros ->. contradiction. }
    specialize (Hk st1). unfold kept, final in Hk. rewrite Hrest in Hk.
    cbn [snd] in Hk. rewrite Hk.
    rewrite discover_eq, Hflat in Hx.
    rewrite (market_buy_filled w s _ d id p0 fl Hp Hid Hf) in Hx.
    injection Hx as <-. cbn [positions].
    apply (SELECT_one_INSERT_same
             (mkPosition s _ p0 (time_time w (AtBuy s)) p0)).
  - destruct Hin as [E | Hin]; [contradiction |].
    apply (IH st1 st' Hnd Hin Hrest).
Qed.

Lemma NoDup_difference l old :
  NoDup (difference (tradable_symbols l) old).
Proof. apply NoDup_filter. apply NoDup_nodup. Qed.

Lemma iteration_opens w st st' s l d id p0 fl :
  primary_key (positions st) ->
  bot_running w = true ->
  http_get w exchangeInfo = Some (ExchangeInfoBody l) ->
  In s (difference (tradable_symbols l) (known st)) ->
  all_flat (http_get w (klines s INTERVAL CANDLE_LIMIT)) = true ->
  http_post w (MarketBuy s (BUY_USDT_AMOUNT w)) = Returns d ->
  orderId d = Some id ->
  fills d = Some (p0 :: fl) ->
  iteration w st = (Ok tt, st') ->
  let row := mkPosition s
               (match executedQty d with Some q => q | None => 0 end)
               p0 (time_time w (AtBuy s)) p0 in
  SELECT_one s (positions st') = None \/
  SELECT_one s (positions st') =
  Some (set_high_price (fold_left high_water (observed w s) p0) row).
Proof.
  intros Hk Hw Hi Hin Hflat Hp Hid Hf H row.
  rewrite (iteration_running w st l Hw Hi) in H.
  set (st2 := mkState (positions st) (tradable_symbols l)
                (trace st ++ [Get exchangeInfo])) in *.
  set (new := difference (tradable_symbols l) (known st)) in *.
  apply bind_inv_Ok in H. destruct H as ([] & st3 & Hd & H).
  apply bind_inv_Ok in H. destruct H as ([] & st4 & Hm & Hs).
  pose proof (discovery_opens w s d id p0 fl Hflat Hp Hid Hf new st2 st3
                (NoDup_difference l (known st)) Hin Hd) as Hrow.
  fold row in Hrow.
  assert (Hk3 : primary_key (positions st3)).
  { assert (Hkk : respects keeps_key (for_each (discover w) new)).
    { step respects_for_each. intros x _.
      step (respects_discover (fun _ => True)); auto. }
    specialize (Hkk st2). unfold final in Hkk. rewrite Hd in Hkk.
    apply Hkk. exact Hk. }
  pose proof (monitor_Ok w st3 st4 s Hk3 Hm) as Hmon.
  rewrite Hrow in Hmon. rewrite (sleep_Ok _ _ _ Hs).
  destruct Hmon as (p & Hpr & [E | E]); [left; exact E | right].
  rewrite E. unfold observed. rewrite Hw, Hi, Hpr. reflexivity.
Qed.

Lemma events_of_nil st : events_of (passes []) st = [].
Proof. apply events_of_spec. symmetry. apply app_nil_r. Qed.

Lemma passes_app_Ok ws1 :
  forall ws2 st st',
    passes (ws1 ++ ws2) st = (Ok tt, st') ->
    exists stm,
      passes ws1 st = (Ok tt, stm) /\
      passes ws2 stm = (Ok tt, st') /\
      events_of (passes (ws1 ++ ws2)) st =
      events_of (passes ws1) st ++ events_of (passes ws2) stm.
Proof.
  induction ws1 as [| w ws1 IH]; intros ws2 st st' H.
  - exists st. repeat split; [exact H |]. rewrite events_of_nil. reflexivity.
  - simpl app in *. unfold passes in H. apply for_each_inv_Ok in H.
    destruct H as (st1 & Hw & Hrest).
    destruct (IH ws2 st1 st' Hrest) as (stm & H1 & H2 & Hev).
    exists stm. repeat split.
    + unfold passes. simpl. rewrite (bind_Ok _ _ _ _ _ Hw). exact H1.
    + exact H2.
    + rewrite !(passes_cons_events w _ st st1 Hw), Hev. apply app_assoc.
Qed.

Lemma passes_Ok_keeps_key ws st st' :
  primary_key (positions st) ->
  passes ws st = (Ok tt, st') ->
  primary_key (positions st').
Proof.
  intros Hk H.
  assert (K : respects keeps_key (passes ws)).
  { step (respects_passes (fun _ => True)); auto using keeps_key_set_known. }
  specialize (K st Hk). unfold final in K. rewrite H in K. exact K.
Qed.

(** ** The mark is never below the entry price *)

Lemma above_entry_filter f t : above_entry t -> above_entry (filter f t).
Proof.
  unfold above_entry. rewrite !Forall_forall. intros H r Hr.
  apply filter_In in Hr. apply H, Hr.
Qed.

Lemma above_entry_INSERT s q p t0 t :
  above_entry t -> above_entry (INSERT_OR_REPLACE (mkPosition s q p t0 p) t).
Proof.
  intros H. unfold INSERT_OR_REPLACE, above_entry. apply Forall_app. split.
  - apply above_entry_filter. exact H.
  - constructor; [apply Qle_refl | constructor].
Qed.

Lemma Qlt_bool_lt h p : Qlt_bool h p = true -> h < p.
Proof.
  unfold Qlt_bool. intros E. apply negb_true_iff in E.
  apply Qnot_le_lt. intros H. apply Qle_bool_iff in H. congruence.
Qed.

Lemma after_price_check_marks r p st :
  SELECT_one (symbol r) (positions st) = Some r ->
  primary_key (positions st) /\ above_entry (positions st) ->
  primary_key (positions (after_price_check r p st)) /\
  above_entry (positions (after_price_check r p st)).
Proof.
  intros Hr [Hk Ha]. unfold after_price_check. cbn [positions].
  destruct (Qlt_bool (high_price r) p) eqn:E; [| split; assumption].
  split; [apply primary_key_UPDATE; exact Hk |].
  unfold above_entry, UPDATE_high_price in *. rewrite Forall_forall in *.
  intros y Hy. apply in_map_iff in Hy. destruct Hy as (x & <- & Hx).
  destruct (has_symbol (symbol r) x) eqn:Es; [| apply Ha; exact Hx].
  unfold has_symbol in Es. apply String.eqb_eq in Es.
  pose proof (SELECT_one_In _ x Hk Hx) as Hsel. rewrite Es, Hr in Hsel.
  injection Hsel as <-. cbn [set_high_price entry_price high_price].
  apply Qlt_le_weak. eapply Qle_lt_trans; [apply Ha; exact Hx |].
  apply Qlt_bool_lt. exact E.
Qed.

Lemma DELETE_marks s t :
  primary_key t /\ above_entry t ->
  primary_key (DELETE s t) /\ above_entry (DELETE s t).
Proof.
  intros [Hk Ha]. split; [apply primary_key_DELETE | apply above_entry_filter];
    assumption.
Qed.

Lemma market_sell_positions w s why st :
  positions (final (market_sell w s why) st) = positions st \/
  positions (final (market_sell w s why) st) = DELETE s (positions st).
Proof.
  unfold final. destruct (SELECT_one s (positions st)) as [r |] eqn:Hr.
  - destruct (http_post w (MarketSell s (qty r))) as [d | e] eqn:Hp.
    + rewrite (market_sell_returns w s why st r d Hr Hp). right. reflexivity.
    + rewrite (market_sell_throws w s why st r e Hr Hp). left. reflexivity.
  - rewrite (market_sell_absent w s why st Hr). left. reflexivity.
Qed.

(** Whatever its outcome, [monitor_row] leaves the table as it was, or
    as the price check left it, or with the row deleted after that. *)
Lemma monitor_row_positions w r st :
  positions (final (monitor_row w r) st) = positions st \/
  exists p,
    positions (final (monitor_row w r) st) =
    positions (after_price_check r p st) \/
    positions (final (monitor_row w r) st) =
    DELETE (symbol r) (positions (after_price_check r p st)).
Proof.
  destruct (http_get w (ticker_price (symbol r))) as [[l | c | p] |] eqn:Hp;
    try (left; unfold final, monitor_row; unfold_steps; cbn; rewrite Hp;
         reflexivity).
  right. exists p. unfold final.
  rewrite (monitor_row_priced w r st p Hp). cbv zeta.
  repeat match goal with
         | |- context [if ?b then _ else _] => destruct b
         end;
    try apply market_sell_positions.
  left. reflexivity.
Qed.

Lemma for_each_monitor_row_marks w rows :
  forall st,
    NoDup (map symbol rows) ->
    (forall r, In r rows -> SELECT_one (symbol r) (positions st) = Some r) ->
    primary_key (positions st) /\ above_entry (positions st) ->
    primary_key (positions (final (for_each (monitor_row w) rows) st)) /\
    above_entry (positions (final (for_each (monitor_row w) rows) st)).
Proof.
  induction rows as [| x rows IH]; intros st Hnd Hrows Hinv; [exact Hinv |].
  simpl in Hnd. apply NoDup_cons_iff in Hnd. destruct Hnd as [Hxn Hnd].
  pose proof (Hrows x (or_introl eq_refl)) as Hx.
  set (st1 := final (monitor_row w x) st).
  assert (Hcases : positions st1 = positions st \/
                   exists p,
                     positions st1 = positions (after_price_check x p st) \/
                     positions st1 =
                     DELETE (symbol x) (positions (after_price_check x p st)))
    by apply monitor_row_positions.
  assert (Hinv1 : primary_key (positions st1) /\ above_entry (positions st1)).
  { destruct Hcases as [E | (p & [E | E])]; rewrite E.
    - exact Hinv.
    - apply after_price_check_marks; assumption.
    - apply DELETE_marks. apply after_price_check_marks; assumption. }
  assert (Hrows1 : forall r, In r rows ->
                             SELECT_one (symbol r) (positions st1) = Some r).
  { intros r Hr.
    assert (Hne : symbol r <> symbol x).
    { intros E. apply Hxn. rewrite <- E. apply in_map. exact Hr. }
    pose proof (Hrows r (or_intror Hr)) as Hsel.
    destruct Hcases as [E | (p & [E | E])]; rewrite E.
    - exact Hsel.
    - rewrite (after_price_check_other x p st _ Hne). exact Hsel.
    - rewrite (SELECT_one_DELETE_other _ _ _ Hne).
      rewrite (after_price_check_other x p st _ Hne). exact Hsel. }
  simpl for_each. rewrite final_bind. fold st1.
  destruct (fst (monitor_row w x st)) as [[] | e].
  - apply IH; assumption.
  - exact Hinv1.
Qed.

#[export] Instance keeps_marks_order : StepOrder keeps_marks.
Proof.
  split.
  - intros st H. exact H.
  - intros a b c H1 H2 H. apply H2, H1, H.
Qed.

Lemma keeps_marks_same_table {A} (c : M A) :
  (forall st, positions (final c st) = positions st) ->
  respects keeps_marks c.
Proof. intros H st Hinv. rewrite H. exact Hinv. Qed.

Lemma market_buy_keeps_marks w s : respects keeps_marks (market_buy w s).
Proof.
  intros st [Hk Ha]. unfold final, market_buy, first_fill_price.
  unfold_steps. cbn.
  destruct (http_post w (MarketBuy s (BUY_USDT_AMOUNT w))) as [d | e];
    [| split; assumption].
  destruct (orderId d); [| split; assumption].
  destruct (fills d) as [[| p l] |]; try (split; assumption).
  split.
  - exact (primary_key_INSERT
             (mkPosition s _ p (time_time w (AtBuy s)) p) (positions st) Hk).
  - exact (above_entry_INSERT s _ p (time_time w (AtBuy s)) (positions st) Ha).
Qed.

Lemma market_sell_keeps_marks w s why :
  respects keeps_marks (market_sell w s why).
Proof.
  intros st Hinv.
  destruct (market_sell_positions w s why st) as [E | E]; rewrite E.
  - exact Hinv.
  - apply DELETE_marks. exact Hinv.
Qed.

Lemma discover_keeps_marks w s : respects keeps_marks (discover w s).
Proof.
  intros st Hinv. unfold final. rewrite discover_eq.
  destruct (all_flat (http_get w (klines s INTERVAL CANDLE_LIMIT))).
  - apply (market_buy_keeps_marks w s
             (mkState (positions st) (known st)
                (trace st ++ [Get (klines s INTERVAL CANDLE_LIMIT)]))).
    exact Hinv.
  - exact Hinv.
Qed.

Lemma monitor_keeps_marks w : respects keeps_marks (monitor w).
Proof.
  intros st Hinv. unfold final, monitor, query, bind.
  apply (for_each_monitor_row_marks w (positions st) st).
  - apply Hinv.
  - intros r Hr. apply SELECT_one_In; [apply Hinv | exact Hr].
  - exact Hinv.
Qed.

Lemma iteration_keeps_marks w : respects keeps_marks (iteration w).
Proof.
  step respects_iteration_of_parts.
  - intros e. apply keeps_marks_same_table. reflexivity.
  - intros k. apply keeps_marks_same_table. reflexivity.
  - intros s. apply discover_keeps_marks.
  - apply monitor_keeps_marks.
Qed.

Lemma run_ops_keeps_marks ops : respects keeps_marks (run_ops ops).
Proof.
  step respects_for_each. intros [w s | w s why | w] _; simpl.
  - apply market_buy_keeps_marks.
  - apply market_sell_keeps_marks.
  - apply iteration_keeps_marks.
Qed.

(** C6, amended.  First, for every row of the table, whatever the
    engine does and whatever the exchange answers: a table with one row
    per symbol and no mark below its entry price stays so.  Second, for a
    position of [s] opened in the pass [w0] (a new listing with flat
    candles whose BUY fills at [p0]) and still held after the passes [ws],
    in none of which a further BUY for [s] fills: the row is written with
    [high_price] equal to [entry_price]; the stored mark is the fold of
    the prices read for [s] under "replace when the price is greater",
    which is the maximum of the entry price and these prices; the entry
    price does not change; and the mark stored after any prefix of the
    passes is at most the final one.  A further BUY for [s] that the
    exchange refuses leaves all of this in place. *)
Theorem high_water_mark :
  (forall (ops : list engine_op) (st : state),
      primary_key (positions st) ->
      above_entry (positions st) ->
      above_entry (positions (final (run_ops ops) st))) /\
  (forall (w0 : env) (ws : list env) (st st1 st' : state) (s : string)
          (l : list symbol_info) (d : order_body) (id : Z)
          (p0 : Q) (fl : list Q) (r' : position),
    primary_key (positions st) ->
    bot_running w0 = true ->
    http_get w0 exchangeInfo = Some (ExchangeInfoBody l) ->
    In s (difference (tradable_symbols l) (known st)) ->
    all_flat (http_get w0 (klines s INTERVAL CANDLE_LIMIT)) = true ->
    http_post w0 (MarketBuy s (BUY_USDT_AMOUNT w0)) = Returns d ->
    orderId d = Some id ->
    fills d = Some (p0 :: fl) ->
    iteration w0 st = (Ok tt, st1) ->
    passes ws st1 = (Ok tt, st') ->
    bought_again s ws st1 = false ->
    SELECT_one s (positions st') = Some r' ->
    let seen := observations s (w0 :: ws) in
    (exists r0,
        SELECT_one s (positions (final (market_buy w0 s) st)) = Some r0 /\
        entry_price r0 = p0 /\ high_price r0 = p0) /\
    entry_price r' = p0 /\
    high_price r' = fold_left high_water seen p0 /\
    high_price r' == fold_left Qmax seen p0 /\
    entry_price r' <= high_price r' /\
    (forall ws1 ws2,
        ws = ws1 ++ ws2 ->
        exists r1,
          SELECT_one s (positions (final (passes ws1) st1)) = Some r1 /\
          high_price r1 <= high_price r')).
Proof.
  split.
  { intros ops st Hk Ha. apply (run_ops_keeps_marks ops st (conj Hk Ha)). }
  intros w0 ws st st1 st' s l d id p0 fl r'
         Hk Hw Hi Hin Hflat Hp Hid Hf H0 Hws Hb Hr' seen.
  pose proof (iteration_Ok_keeps_key w0 st st1 Hk H0) as Hk1.
  pose proof (iteration_opens w0 st st1 s l d id p0 fl
                Hk Hw Hi Hin Hflat Hp Hid Hf H0) as Hopen.
  cbv zeta in Hopen.
  pose proof (passes_held ws st1 st' s Hk1 Hws Hb) as Hheld.
  destruct Hopen as [E | E]; rewrite E in Hheld;
    [rewrite Hheld in Hr'; discriminate Hr' |].
  destruct Hheld as [Hheld | Hheld]; rewrite Hheld in Hr';
    [discriminate Hr' |].
  injection Hr' as <-. cbn [set_high_price entry_price high_price].
  assert (Hseen : fold_left high_water (observations s ws)
                    (fold_left high_water (observed w0 s) p0)
                  = fold_left high_water seen p0).
  { unfold seen. simpl. rewrite fold_left_app. reflexivity. }
  rewrite Hseen.
  split; [| split; [| split; [| split; [| split]]]].
  - eexists. split; [| split].
    + unfold final.
      rewrite (market_buy_filled w0 s st d id p0 fl Hp Hid Hf).
      cbn [snd positions].
      apply (SELECT_one_INSERT_same
               (mkPosition s _ p0 (time_time w0 (AtBuy s)) p0)).
    + reflexivity.
    + reflexivity.
  - reflexivity.
  - reflexivity.
  - apply fold_high_water_max.
  - apply fold_high_water_ge.
  - intros ws1 ws2 ->.
    destruct (passes_app_Ok ws1 ws2 st1 st' Hws) as (stm & H1 & H2 & Hev).
    rewrite (bought_again_app s ws1 ws2 st1 stm H1) in Hb.
    apply orb_false_iff in Hb. destruct Hb as [Hb1 Hb2].
    pose proof (passes_held ws1 st1 stm s Hk1 H1 Hb1) as Hm.
    pose proof (passes_held ws2 stm st' s
                  (passes_Ok_keeps_key ws1 st1 stm Hk1 H1) H2 Hb2) as Hm2.
    unfold final. rewrite H1. cbn [snd].
    rewrite E in Hm. rewrite Hheld in Hm2.
    destruct Hm as [Hm | Hm]; rewrite Hm in Hm2; [discriminate Hm2 |].
    eexists. split; [exact Hm |].
    destruct Hm2 as [Hm2 | Hm2]; [discriminate Hm2 |].
    injection Hm2 as Hm2. rewrite Hseen in Hm2. rewrite Hm2.
    apply fold_high_water_ge.
Qed.

(** [AAA] is bought at 100, rises to 150, leaves the listing and comes
    back; the second BUY is refused, and the mark is still the maximum of
    what was seen. *)
Lemma high_water_mark_witness :
  SELECT_one AAA
    (positions
       (final (passes [calm 150 70; delisted 150 80; relisted_refused 130 90])
          (final (iteration (fresh_listing 100 60)) (mkState [] [] []))))
  = Some (mkPosition AAA 2 100 60 150) /\
  existsb (is_buy_of AAA)
    (events_of
       (passes [calm 150 70; delisted 150 80; relisted_refused 130 90])
       (final (iteration (fresh_listing 100 60)) (mkState [] [] [])))
  = true /\
  150 == fold_left Qmax [100; 150; 150; 130] 100.
Proof.
  assert (Hr : SELECT_one AAA
                 (positions
                    (final (passes [calm 150 70; delisted 150 80;
                                    relisted_refused 130 90])
                       (final (iteration (fresh_listing 100 60))
                          (mkState [] [] []))))
               = Some (mkPosition AAA 2 100 60 150)).
  { vm_compute. reflexivity. }
  split; [exact Hr |]. split; [vm_compute; reflexivity |].
  assert (Hin : In AAA
                  (difference
                     (tradable_symbols
                        [mkSymbolInfo AAA "TRADING";
                         mkSymbolInfo "AAABTC" "TRADING";
                         mkSymbolInfo BBB "BREAK"])
                     (known (mkState [] [] [])))).
  { vm_compute. left. reflexivity. }
  assert (Hws : passes [calm 150 70; delisted 150 80; relisted_refused 130 90]
                  (final (iteration (fresh_listing 100 60))
                     (mkState [] [] []))
                = (Ok tt,
                   final (passes [calm 150 70; delisted 150 80;
                                  relisted_refused 130 90])
                     (final (iteration (fresh_listing 100 60))
                        (mkState [] [] [])))).
  { vm_compute. reflexivity. }
  assert (Hb : bought_again AAA
                 [calm 150 70; delisted 150 80; relisted_refused 130 90]
                 (final (iteration (fresh_listing 100 60))
                    (mkState [] [] []))
               = false).
  { vm_compute. reflexivity. }
  destruct (proj2 high_water_mark
              (fresh_listing 100 60)
              [calm 150 70; delisted 150 80; relisted_refused 130 90]
              (mkState [] [] [])
              (final (iteration (fresh_listing 100 60)) (mkState [] [] []))
              (final (passes [calm 150 70; delisted 150 80;
                              relisted_refused 130 90])
                 (final (iteration (fresh_listing 100 60))
                    (mkState [] [] [])))
              AAA _ (filled 2 100) 7%Z 100 [] (mkPosition AAA 2 100 60 150)
              (NoDup_nil string) eq_refl eq_refl Hin eq_refl eq_refl eq_refl
              eq_refl eq_refl Hws Hb Hr)
    as (_ & _ & _ & Hmax & _).
  exact Hmax.
Defined.

(** C6, as the claim has it, fails: [AAA] is bought at 100 and its mark
    rises to 110; [AAA] leaves the listing and comes back with flat
    candles while the row is still held, no SELL for it having gone out;
    the second BUY fills at 95 and [INSERT OR REPLACE] writes the row
    anew.  The stored mark goes from 110 down to 95, and 95 is not the
    maximum of the entry price and of the prices 100, 110, 110, 95 seen
    while the position was held. *)
Lemma mark_lowered_by_second_buy :
  ~ (forall (w0 : env) (ws : list env) (st st1 st' : state) (s : string)
            (l : list symbol_info) (d : order_body) (id : Z)
            (p0 : Q) (fl : list Q) (r' : position),
        primary_key (positions st) ->
        bot_running w0 = true ->
        http_get w0 exchangeInfo = Some (ExchangeInfoBody l) ->
        In s (difference (tradable_symbols l) (known st)) ->
        all_flat (http_get w0 (klines s INTERVAL CANDLE_LIMIT)) = true ->
        http_post w0 (MarketBuy s (BUY_USDT_AMOUNT w0)) = Returns d ->
        orderId d = Some id ->
        fills d = Some (p0 :: fl) ->
        iteration w0 st = (Ok tt, st1) ->
        passes ws st1 = (Ok tt, st') ->
        existsb (is_sell_of s) (events_of (passes (w0 :: ws)) st) = false ->
        SELECT_one s (positions st') = Some r' ->
        high_price r' == fold_left Qmax (observations s (w0 :: ws)) p0 \/
        (forall ws1 ws2,
            ws = ws1 ++ ws2 ->
            exists r1,
              SELECT_one s (positions (final (passes ws1) st1)) = Some r1 /\
              high_price r1 <= high_price r')).
Proof.
  intros H.
  assert (Hin : In AAA
                  (difference
                     (tradable_symbols
                        [mkSymbolInfo AAA "TRADING";
                         mkSymbolInfo "AAABTC" "TRADING";
                         mkSymbolInfo BBB "BREAK"])
                     (known (mkState [] [] [])))).
  { vm_compute. left. reflexivity. }
  assert (Hws : passes [calm 110 70; delisted 110 80; fresh_listing 95 90]
                  (final (iteration (fresh_listing 100 60))
                     (mkState [] [] []))
                = (Ok tt,
                   final (passes [calm 110 70; delisted 110 80;
                                  fresh_listing 95 90])
                     (final (iteration (fresh_listing 100 60))
                        (mkState [] [] [])))).
  { vm_compute. reflexivity. }
  assert (Hsell : existsb (is_sell_of AAA)
                    (events_of
                       (passes [fresh_listing 100 60; calm 110 70;
                                delisted 110 80; fresh_listing 95 90])
                       (mkState [] [] []))
                  = false).
  { vm_compute. reflexivity. }
  assert (Hr : SELECT_one AAA
                 (positions
                    (final (passes [calm 110 70; delisted 110 80;
                                    fresh_listing 95 90])
                       (final (iteration (fresh_listing 100 60))
                          (mkState [] [] []))))
               = Some (mkPosition AAA 2 95 90 95)).
  { vm_compute. reflexivity. }
  destruct (H (fresh_listing 100 60)
              [calm 110 70; delisted 110 80; fresh_listing 95 90]
              (mkState [] [] [])
              (final (iteration (fresh_listing 100 60)) (mkState [] [] []))
              (final (passes [calm 110 70; delisted 110 80;
                              fresh_listing 95 90])
                 (final (iteration (fresh_listing 100 60))
                    (mkState [] [] [])))
              AAA _ (filled 2 100) 7%Z 100 [] (mkPosition AAA 2 95 90 95)
              (NoDup_nil string) eq_refl eq_refl Hin eq_refl eq_refl eq_refl
              eq_refl eq_refl Hws Hsell Hr)
    as [Hmax | Hmono].
  - vm_compute in Hmax. discriminate Hmax.
  - destruct (Hmono [calm 110 70] [delisted 110 80; fresh_listing 95 90]
                eq_refl) as (r1 & Hr1 & Hle).
    vm_compute in Hr1. injection Hr1 as <-.
    vm_compute in Hle. apply Hle. reflexivity.
Qed.

(** * The loop under a failed price request, in general *)

#[export] Instance keeps_symbols_order : StepOrder keeps_symbols.
Proof.
  split.
  - intros st s H. exact H.
  - intros a b c H1 H2 s H. apply H2, H1, H.
Qed.

Lemma In_map_symbol_INSERT r t s :
  In s (map symbol t) -> In s (map symbol (INSERT_OR_REPLACE r t)).
Proof.
  intros H. unfold INSERT_OR_REPLACE. rewrite map_app. apply in_or_app.
  destruct (string_dec s (symbol r)) as [-> | Hn].
  - right. left. reflexivity.
  - left. apply in_map_iff in H. destruct H as (x & <- & Hx).
    apply in_map. apply filter_In. split; [exact Hx |].
    unfold has_symbol. destruct (String.eqb_spec (symbol x) (symbol r));
      [contradiction | reflexivity].
Qed.

Lemma discover_keeps_symbols w s : respects keeps_symbols (discover w s).
Proof.
  intros st x Hx. unfold final. rewrite discover_eq.
  destruct (all_flat (http_get w (klines s INTERVAL CANDLE_LIMIT)));
    [| exact Hx].
  unfold market_buy, first_fill_price. unfold_steps. cbn.
  destruct (http_post w (MarketBuy s (BUY_USDT_AMOUNT w))) as [d | e];
    [| exact Hx].
  destruct (orderId d); [| exact Hx].
  destruct (fills d) as [[| p l] |]; try exact Hx.
  exact (In_map_symbol_INSERT
           (mkPosition s _ p (time_time w (AtBuy s)) p) (positions st) x Hx).
Qed.

(** A pass that gets the exchange information while the table holds a
    position whose price request fails ends in an exception, and so does
    the loop. *)
Lemma pass_failed_fetch w st r l :
  bot_running w = true ->
  http_get w exchangeInfo = Some (ExchangeInfoBody l) ->
  In r (positions st) ->
  http_get w (ticker_price (symbol r)) = None ->
  exists e, fst (iteration w st) = Raise e.
Proof.
  intros Hw Hi Hr Hp. rewrite (iteration_running w st l Hw Hi).
  set (st2 := mkState (positions st) (tradable_symbols l)
                (trace st ++ [Get exchangeInfo])).
  set (new := difference (tradable_symbols l) (known st)).
  assert (Hk : respects keeps_symbols (for_each (discover w) new)).
  { step respects_for_each. intros s _. apply discover_keeps_symbols. }
  specialize (Hk st2 (symbol r) (in_map symbol _ r Hr)). unfold final in Hk.
  unfold bind at 1.
  destruct (for_each (discover w) new st2) as [[[] | e] st3];
    [| exists e; reflexivity].
  cbn [snd] in Hk. apply in_map_iff in Hk. destruct Hk as (r3 & E & Hr3).
  rewrite <- E in Hp.
  destruct (monitor_failed_fetch w st3 r3 Hr3 Hp) as [e He].
  unfold bind. destruct (monitor w st3) as [[[] | e'] st4];
    [discriminate He | exists e'; reflexivity].
Qed.

Lemma loop_failed_fetch w ws st r l :
  bot_running w = true ->
  http_get w exchangeInfo = Some (ExchangeInfoBody l) ->
  In r (positions st) ->
  http_get w (ticker_price (symbol r)) = None ->
  exists e, fst (passes (w :: ws) st) = Raise e.
Proof.
  intros Hw Hi Hr Hp.
  destruct (pass_failed_fetch w st r l Hw Hi Hr Hp) as [e He].
  exists e. unfold passes. simpl. unfold bind.
  destruct (iteration w st) as [[[] | e'] st1]; [discriminate He |].
  exact He.
Qed.

(** * Further properties: Close Position *)

(** X1. When the table holds a row for [s] and the sell request returns a
    body, [market_sell] returns; the one order it posts sells the stored
    quantity, the message carries the reason and the body, the symbol is
    gone from the table and the row of every other symbol is untouched. *)
Theorem close_position_after_response :
  forall (w : env) (s : string) (why : reason) (st : state)
         (r : position) (data : order_body),
    SELECT_one s (positions st) = Some r ->
    http_post w (MarketSell s (qty r)) = Returns data ->
    fst (market_sell w s why st) = Ok tt /\
    events_of (market_sell w s why) st =
    [Post (MarketSell s (qty r)); Telegram (SellExecuted why s data)] /\
    ~ In s (map symbol (positions (final (market_sell w s why) st))) /\
    (forall s', s' <> s ->
                SELECT_one s' (positions (final (market_sell w s why) st)) =
                SELECT_one s' (positions st)) /\
    known (final (market_sell w s why) st) = known st.
Proof.
  intros w s why st r data Hr Hp.
  pose proof (market_sell_returns w s why st r data Hr Hp) as E.
  unfold final. rewrite (events_of_spec _ _
    [Post (MarketSell s (qty r)); Telegram (SellExecuted why s data)])
    by (unfold final; rewrite E; reflexivity).
  rewrite E. cbn [fst snd positions known].
  split; [reflexivity |]. split; [reflexivity |].
  split; [apply DELETE_absent |]. split; [| reflexivity].
  intros s' Hn. apply SELECT_one_DELETE_other. exact Hn.
Qed.

Lemma close_position_after_response_witness :
  events_of (market_sell (calm 100 60) AAA TIMEOUT) two_positions =
  [Post (MarketSell AAA 1); Telegram (SellExecuted TIMEOUT AAA (filled 1 100))]
  /\ ~ In AAA (map symbol
                 (positions (final (market_sell (calm 100 60) AAA TIMEOUT)
                               two_positions))).
Proof.
  destruct (close_position_after_response (calm 100 60) AAA TIMEOUT
              two_positions (held AAA 100) (filled 1 100) eq_refl eq_refl)
    as (_ & Hev & Hgone & _).
  split; [exact Hev | exact Hgone].
Defined.

(** X2. [market_sell] raises exactly when the table holds a row for [s]
    and the sell request raises; the exception is the one of the request,
    the table and the known set are as before, and the order is the only
    event: no message is sent. *)
Theorem close_position_raises_only_from_post :
  forall (w : env) (s : string) (why : reason) (st : state) (e : exn),
    fst (market_sell w s why st) = Raise e <->
    exists r, SELECT_one s (positions st) = Some r /\
              http_post w (MarketSell s (qty r)) = Throws e /\
              market_sell w s why st =
              (Raise e,
               mkState (positions st) (known st)
                 (trace st ++ [Post (MarketSell s (qty r))])).
Proof.
  intros w s why st e. split.
  - intros H. destruct (SELECT_one s (positions st)) as [r |] eqn:Hr.
    + destruct (http_post w (MarketSell s (qty r))) as [d | e'] eqn:Hp.
      * rewrite (market_sell_returns w s why st r d Hr Hp) in H.
        discriminate H.
      * pose proof (market_sell_throws w s why st r e' Hr Hp) as E.
        rewrite E in H. injection H as <-.
        exists r. repeat split; assumption.
    + rewrite (market_sell_absent w s why st Hr) in H. discriminate H.
  - intros (r & _ & _ & E). rewrite E. reflexivity.
Qed.

(** * Further properties: Open Position *)

(** X3. A body without [orderId] is a rejected order: [market_buy]
    returns, reports the failure with the body, and leaves the table and
    the known set as they were. *)
Theorem open_position_rejected :
  forall (w : env) (s : string) (st : state) (data : order_body),
    http_post w (MarketBuy s (BUY_USDT_AMOUNT w)) = Returns data ->
    orderId data = None ->
    fst (market_buy w s st) = Ok tt /\
    events_of (market_buy w s) st =
    [Post (MarketBuy s (BUY_USDT_AMOUNT w)); Telegram (BuyFailed s data)] /\
    positions (final (market_buy w s) st) = positions st /\
    known (final (market_buy w s) st) = known st.
Proof.
  intros w s st data Hp Hid.
  pose proof (market_buy_rejected w s st data Hp Hid) as E.
  unfold final. rewrite (events_of_spec _ _
    [Post (MarketBuy s (BUY_USDT_AMOUNT w)); Telegram (BuyFailed s data)])
    by (unfold final; rewrite E; reflexivity).
  rewrite E. repeat split.
Qed.

Lemma open_position_rejected_witness :
  positions (final (market_buy (rejecting 100) AAA) two_positions) =
  positions two_positions.
Proof.
  exact (proj1 (proj2 (proj2
           (open_position_rejected (rejecting 100) AAA two_positions
              (mkOrderBody None None None) eq_refl eq_refl)))).
Defined.

(** X4. A body with [orderId] and a first fill: [market_buy] returns and
    the row it writes is the one a lookup of [s] then finds, with the
    fill price as entry price and as mark, the executed quantity (0 when
    the body has no [executedQty]) and the clock as entry time; the row
    of every other symbol is untouched and the primary key holds. *)
Theorem open_position_filled :
  forall (w : env) (s : string) (st : state) (data : order_body)
         (id : Z) (p : Q) (l : list Q),
    http_post w (MarketBuy s (BUY_USDT_AMOUNT w)) = Returns data ->
    orderId data = Some id ->
    fills data = Some (p :: l) ->
    let q := match executedQty data with Some q => q | None => 0 end in
    fst (market_buy w s st) = Ok tt /\
    events_of (market_buy w s) st =
    [Post (MarketBuy s (BUY_USDT_AMOUNT w)); Telegram (BuyExecuted s q p)] /\
    SELECT_one s (positions (final (market_buy w s) st)) =
    Some (mkPosition s q p (time_time w (AtBuy s)) p) /\
    (forall s', s' <> s ->
                SELECT_one s' (positions (final (market_buy w s) st)) =
                SELECT_one s' (positions st)) /\
    (primary_key (positions st) ->
     primary_key (positions (final (market_buy w s) st))).
Proof.
  intros w s st data id p l Hp Hid Hf q.
  pose proof (market_buy_filled w s st data id p l Hp Hid Hf) as E.
  cbv zeta in E. fold q in E.
  unfold final. rewrite (events_of_spec _ _
    [Post (MarketBuy s (BUY_USDT_AMOUNT w)); Telegram (BuyExecuted s q p)])
    by (unfold final; rewrite E; reflexivity).
  rewrite E. cbn [fst snd positions].
  split; [reflexivity |]. split; [reflexivity |]. split; [| split].
  - apply (SELECT_one_INSERT_same
             (mkPosition s q p (time_time w (AtBuy s)) p)).
  - intros s' Hn.
    apply (SELECT_one_INSERT_other
             (mkPosition s q p (time_time w (AtBuy s)) p) s' _ Hn).
  - apply primary_key_INSERT.
Qed.

Lemma open_position_filled_witness :
  SELECT_one AAA
    (positions (final (market_buy (fresh_listing 120 80) AAA) two_positions))
  = Some (mkPosition AAA 2 120 80 120).
Proof.
  exact (proj1 (proj2 (proj2
           (open_position_filled (fresh_listing 120 80) AAA two_positions
              (filled 2 120) 7%Z 120 [] eq_refl eq_refl eq_refl)))).
Defined.

(** X5. An exception out of [market_buy] leaves nothing behind: whenever
    it raises, the table and the known set are as before and the order is
    the only event, so that no row is written and no message, of success
    or of failure, is sent.  It raises when the request raises, with the
    exception of the request; when the body has an [orderId] but no
    [fills], with KeyError; and when the body has an [orderId] and an
    empty [fills] list, with IndexError. *)
Theorem open_position_raises :
  forall (w : env) (s : string) (st : state),
    (forall e,
        fst (market_buy w s st) = Raise e ->
        market_buy w s st =
        (Raise e,
         mkState (positions st) (known st)
           (trace st ++ [Post (MarketBuy s (BUY_USDT_AMOUNT w))]))) /\
    (forall e,
        http_post w (MarketBuy s (BUY_USDT_AMOUNT w)) = Throws e ->
        fst (market_buy w s st) = Raise e) /\
    (forall data id,
        http_post w (MarketBuy s (BUY_USDT_AMOUNT w)) = Returns data ->
        orderId data = Some id ->
        (fills data = None -> fst (market_buy w s st) = Raise KeyError) /\
        (fills data = Some [] -> fst (market_buy w s st) = Raise IndexError)).
Proof.
  intros w s st.
  assert (Hthrows : forall e,
             http_post w (MarketBuy s (BUY_USDT_AMOUNT w)) = Throws e ->
             market_buy w s st =
             (Raise e,
              mkState (positions st) (known st)
                (trace st ++ [Post (MarketBuy s (BUY_USDT_AMOUNT w))]))).
  { intros e Hp. unfold market_buy. unfold_steps. cbn. rewrite Hp.
    reflexivity. }
  assert (Hnone : forall d id,
             http_post w (MarketBuy s (BUY_USDT_AMOUNT w)) = Returns d ->
             orderId d = Some id -> fills d = None ->
             market_buy w s st =
             (Raise KeyError,
              mkState (positions st) (known st)
                (trace st ++ [Post (MarketBuy s (BUY_USDT_AMOUNT w))]))).
  { intros d id Hp Hid Hf. unfold market_buy, first_fill_price.
    unfold_steps. cbn. rewrite Hp, Hid, Hf. reflexivity. }
  assert (Hempty : forall d id,
             http_post w (MarketBuy s (BUY_USDT_AMOUNT w)) = Returns d ->
             orderId d = Some id -> fills d = Some [] ->
             market_buy w s st =
             (Raise IndexError,
              mkState (positions st) (known st)
                (trace st ++ [Post (MarketBuy s (BUY_USDT_AMOUNT w))]))).
  { intros d id Hp Hid Hf. unfold market_buy, first_fill_price.
    unfold_steps. cbn. rewrite Hp, Hid, Hf. reflexivity. }
  split; [| split].
  - intros e H.
    destruct (http_post w (MarketBuy s (BUY_USDT_AMOUNT w)))
      as [d | e'] eqn:Hp.
    + destruct (orderId d) as [id |] eqn:Hid.
      * destruct (fills d) as [[| p l] |] eqn:Hf.
        -- rewrite (Hempty d id eq_refl Hid Hf) in H |- *.
           injection H as <-. reflexivity.
        -- rewrite (market_buy_filled w s st d id p l Hp Hid Hf) in H.
           discriminate H.
        -- rewrite (Hnone d id eq_refl Hid Hf) in H |- *.
           injection H as <-. reflexivity.
      * rewrite (market_buy_rejected w s st d Hp Hid) in H. discriminate H.
    + rewrite (Hthrows e' eq_refl) in H |- *. injection H as <-. reflexivity.
  - intros e Hp. rewrite (Hthrows e Hp). reflexivity.
  - intros d id Hp Hid. split; intros Hf.
    + rewrite (Hnone d id Hp Hid Hf). reflexivity.
    + rewrite (Hempty d id Hp Hid Hf). reflexivity.
Qed.

Lemma open_position_raises_witness :
  market_buy (empty_fills 7) AAA two_positions =
  (Raise IndexError,
   mkState (positions two_positions) (known two_positions)
     [Post (MarketBuy AAA 1)]) /\
  fst (market_buy (no_fills 7) AAA two_positions) = Raise KeyError.
Proof.
  split.
  - exact (proj1 (open_position_raises (empty_fills 7) AAA two_positions)
             IndexError eq_refl).
  - exact (proj1 (proj2 (proj2 (open_position_raises (no_fills 7) AAA
                                  two_positions))
                    _ 7%Z eq_refl eq_refl) eq_refl).
Defined.

Lemma close_position_raises_only_from_post_witness :
  fst (market_sell sell_down AAA TARGET two_positions)
  = Raise RequestException.
Proof.
  apply (proj2 (close_position_raises_only_from_post sell_down AAA TARGET
                  two_positions RequestException)).
  exists (held AAA 100). repeat split.
Defined.

(** * Further properties: the passes of the loop *)

(** X6. A pass that finds [bot_running] true but gets no exchange
    information (the request failed, or its body is empty) sleeps five
    seconds and goes on to the next pass.  It skips the monitor step too:
    the table and the known set are untouched and no price is requested,
    so no exit is taken for the positions held. *)
Theorem pass_without_exchange_info :
  forall (w : env) (ws : list env) (st : state),
    bot_running w = true ->
    truthy (http_get w exchangeInfo) = false ->
    let st' := mkState (positions st) (known st)
                 (trace st ++ [Get exchangeInfo; Sleep 5]) in
    iteration w st = (Ok tt, st') /\
    (forall s, ~ In (Get (ticker_price s)) (events_of (iteration w) st)) /\
    (forall o, ~ In (Post o) (events_of (iteration w) st)) /\
    passes (w :: ws) st = passes ws st'.
Proof.
  intros w ws st Hw Hi st'.
  pose proof (iteration_no_info w st Hw Hi) as E. fold st' in E.
  assert (Ev : events_of (iteration w) st = [Get exchangeInfo; Sleep 5]).
  { apply events_of_spec. unfold final. rewrite E. reflexivity. }
  rewrite Ev. split; [exact E |]. split; [| split].
  - intros s [H | [H | []]]; discriminate H.
  - intros o [H | [H | []]]; discriminate H.
  - unfold passes. simpl. unfold bind. rewrite E. reflexivity.
Qed.

Lemma pass_without_exchange_info_witness :
  iteration info_down two_positions =
  (Ok tt,
   mkState (positions two_positions) (known two_positions)
     [Get exchangeInfo; Sleep 5]).
Proof.
  exact (proj1 (pass_without_exchange_info info_down [] two_positions
                  eq_refl eq_refl)).
Defined.

(** X7. A pass that returns ends with a sleep, of 2, 5 or 20 seconds:
    the loop never goes round without pausing. *)
Theorem pass_ends_with_sleep :
  forall (w : env) (st st' : state),
    iteration w st = (Ok tt, st') ->
    exists evs n,
      events_of (iteration w) st = evs ++ [Sleep n] /\
      (n = 2 \/ n = 5 \/ n = 20)%Z.
Proof.
  intros w st st' H.
  destruct (iteration_cases w)
    as [Hw | [[Hw Hi] | [(Hw & Hi & Hn) | (Hw & l & Hi)]]].
  - exists [], 2%Z. split; [| left; reflexivity].
    apply events_of_spec. unfold final.
    rewrite (iteration_paused w st Hw). reflexivity.
  - exists [Get exchangeInfo], 5%Z. split; [| right; left; reflexivity].
    apply events_of_spec. unfold final.
    rewrite (iteration_no_info w st Hw Hi). reflexivity.
  - destruct (iteration_bad_info w st Hw Hi Hn) as [e E].
    rewrite E in H. discriminate H.
  - unfold events_of, final. rewrite H. cbn [snd].
    rewrite (iteration_running w st l Hw Hi) in H.
    apply bind_inv_Ok in H. destruct H as ([] & st3 & Hd & H).
    apply bind_inv_Ok in H. destruct H as ([] & st4 & Hm & Hs).
    assert (Hg : respects grows
                   (for_each (discover w)
                      (difference (tradable_symbols l) (known st)))).
    { step respects_for_each. intros s _. apply discover_grows. }
    match type of Hd with
    | _ ?s2 = _ => destruct (Hg s2) as [ld Hld]
    end.
    unfold final in Hld. rewrite Hd in Hld. cbn [snd trace] in Hld.
    destruct (monitor_grows w st3) as [lm Hlm].
    unfold final in Hlm. rewrite Hm in Hlm. cbn [snd] in Hlm.
    unfold sleep, emit in Hs. injection Hs as <-. cbn [trace].
    exists (Get exchangeInfo :: ld ++ lm), 20%Z.
    split; [| right; right; reflexivity].
    rewrite Hlm, Hld. rewrite <- !app_assoc. rewrite skipn_length_app.
    simpl. rewrite <- app_assoc. reflexivity.
Qed.

Lemma pass_ends_with_sleep_witness :
  exists evs n,
    events_of (iteration (calm 100 60)) two_positions = evs ++ [Sleep n] /\
    (n = 2 \/ n = 5 \/ n = 20)%Z.
Proof.
  apply (pass_ends_with_sleep (calm 100 60) two_positions
           (final (iteration (calm 100 60)) two_positions)).
  vm_compute. reflexivity.
Defined.

(** * Further properties: Monitor and Exit *)

Lemma monitor_Ok_keeps_key w st st' :
  primary_key (positions st) ->
  monitor w st = (Ok tt, st') ->
  primary_key (positions st').
Proof.
  intros Hk H.
  assert (K : respects keeps_key (monitor w)).
  { step (respects_monitor (fun _ => True)); auto. }
  specialize (K st Hk). unfold final in K. rewrite H in K. exact K.
Qed.

(** X8. A monitor step that returns adds no row and rewrites nothing but
    the mark: every row of the table afterwards is a row of the table
    before, with the same symbol, quantity, entry price and entry time,
    whose mark is the price just read for it when that price is greater
    and the old mark otherwise. *)
Theorem monitor_only_raises_marks :
  forall (w : env) (st st' : state) (r' : position),
    primary_key (positions st) ->
    monitor w st = (Ok tt, st') ->
    In r' (positions st') ->
    exists r p,
      In r (positions st) /\
      http_get w (ticker_price (symbol r)) = Some (TickerBody p) /\
      r' = mkPosition (symbol r) (qty r) (entry_price r) (entry_time r)
             (if Qlt_bool (high_price r) p then p else high_price r).
Proof.
  intros w st st' r' Hk H Hin.
  pose proof (monitor_Ok_keeps_key w st st' Hk H) as Hk'.
  pose proof (SELECT_one_In _ r' Hk' Hin) as Hsel.
  pose proof (monitor_Ok w st st' (symbol r') Hk H) as Hmon.
  rewrite Hsel in Hmon.
  destruct (SELECT_one (symbol r') (positions st)) as [r |] eqn:Hr;
    [| discriminate Hmon].
  destruct Hmon as (p & Hp & [E | E]); [discriminate E |].
  injection E as ->.
  exists r, p. split; [apply (SELECT_one_member _ _ _ Hr) |].
  split; [| reflexivity].
  rewrite (SELECT_one_symbol _ _ _ Hr). exact Hp.
Qed.

Lemma monitor_only_raises_marks_witness :
  exists r p,
    In r (positions two_positions) /\
    http_get (calm 150 60) (ticker_price (symbol r)) = Some (TickerBody p) /\
    mkPosition BBB 1 100 0 150 =
    mkPosition (symbol r) (qty r) (entry_price r) (entry_time r)
      (if Qlt_bool (high_price r) p then p else high_price r).
Proof.
  apply (monitor_only_raises_marks (calm 150 60) two_positions
           (final (monitor (calm 150 60)) two_positions)).
  - unfold primary_key. repeat constructor; simpl; intuition discriminate.
  - vm_compute. reflexivity.
  - vm_compute. right. left. reflexivity.
Defined.

(** X9. A stored position whose price is fetched once 420 seconds have
    passed since its entry is sold in that monitor step, whatever the
    price: when the sell request returns a body, [monitor_row] returns,
    the order sells the stored quantity, and the symbol is gone from the
    table. *)
Theorem timeout_forces_exit :
  forall (w : env) (r : position) (st : state) (p : Q) (data : order_body),
    SELECT_one (symbol r) (positions st) = Some r ->
    http_get w (ticker_price (symbol r)) = Some (TickerBody p) ->
    420 <= time_time w (AtTimeoutCheck (symbol r)) - entry_time r ->
    http_post w (MarketSell (symbol r) (qty r)) = Returns data ->
    exists why,
      fst (monitor_row w r st) = Ok tt /\
      events_of (monitor_row w r) st =
      [Get (ticker_price (symbol r)); Post (MarketSell (symbol r) (qty r));
       Telegram (SellExecuted why (symbol r) data)] /\
      ~ In (symbol r) (map symbol (positions (final (monitor_row w r) st))).
Proof.
  intros w r st p data Hr Hp Hold Hpost.
  pose proof (after_price_check_own r p st Hr) as Hown.
  assert (Hsell : forall why,
             market_sell w (symbol r) why (after_price_check r p st) =
             (Ok tt,
              mkState (DELETE (symbol r) (positions (after_price_check r p st)))
                (known st)
                (trace st ++ [Get (ticker_price (symbol r));
                              Post (MarketSell (symbol r) (qty r));
                              Telegram (SellExecuted why (symbol r) data)]))).
  { intros why.
    rewrite (market_sell_returns w (symbol r) why _ _ data Hown Hpost).
    unfold after_price_check. cbn [known trace set_high_price qty].
    rewrite <- app_assoc. reflexivity. }
  assert (Hdone : forall why,
             monitor_row w r st =
             market_sell w (symbol r) why (after_price_check r p st) ->
             fst (monitor_row w r st) = Ok tt /\
             events_of (monitor_row w r) st =
             [Get (ticker_price (symbol r));
              Post (MarketSell (symbol r) (qty r));
              Telegram (SellExecuted why (symbol r) data)] /\
             ~ In (symbol r)
                 (map symbol (positions (final (monitor_row w r) st)))).
  { intros why E. rewrite (Hsell why) in E. unfold final.
    rewrite (events_of_spec _ _
      [Get (ticker_price (symbol r)); Post (MarketSell (symbol r) (qty r));
       Telegram (SellExecuted why (symbol r) data)])
      by (unfold final; rewrite E; reflexivity).
    rewrite E. cbn [fst snd positions].
    split; [reflexivity |]. split; [reflexivity | apply DELETE_absent]. }
  pose proof (monitor_row_priced w r st p Hp) as E. cbv zeta in E.
  apply timeout_reached in Hold. apply Qle_bool_iff in Hold.
  rewrite Hold in E.
  destruct (Qle_bool (float_mul (entry_price r) (TARGET_MULTIPLIER w)) p).
  - exists TARGET. apply Hdone. exact E.
  - destruct (Qle_bool p (float_mul (high_water (high_price r) p)
                                    (float_sub 1 TRAIL_PERCENT))).
    + exists TRAIL. apply Hdone. exact E.
    + exists TIMEOUT. apply Hdone. exact E.
Qed.

Lemma timeout_forces_exit_witness :
  exists why,
    fst (monitor_row (calm 101 420) (held AAA 100) two_positions) = Ok tt /\
    events_of (monitor_row (calm 101 420) (held AAA 100)) two_positions =
    [Get (ticker_price AAA); Post (MarketSell AAA 1);
     Telegram (SellExecuted why AAA (filled 1 101))] /\
    ~ In AAA
        (map symbol
           (positions
              (final (monitor_row (calm 101 420) (held AAA 100))
                 two_positions))).
Proof.
  apply (timeout_forces_exit (calm 101 420) (held AAA 100) two_positions
           101 (filled 1 101) eq_refl eq_refl).
  - unfold Qle. simpl. lia.
  - reflexivity.
Defined.

#[export] Instance monitor_event_engine symbols :
  EngineRelation (monitor_event symbols) (adds (monitor_event symbols)).
Proof. apply adds_engine. Qed.

(** X10. The monitor step, whatever its outcome, sends out nothing but
    price requests and SELL orders, each about a symbol of the table it
    started from, and Telegram messages: it never requests candles and
    never buys. *)
Theorem monitor_never_buys :
  forall (w : env) (st : state) (e : event),
    In e (events_of (monitor w) st) ->
    (exists s, e = Get (ticker_price s) /\
               In s (map symbol (positions st))) \/
    (exists s q, e = Post (MarketSell s q) /\
                 In s (map symbol (positions st))) \/
    (exists text, e = Telegram text).
Proof.
  intros w st e Hin.
  set (P := monitor_event (map symbol (positions st))).
  assert (H : respects (adds P) (for_each (monitor_row w) (positions st))).
  { step respects_for_each. intros r Hr.
    step (respects_monitor_row P).
    - intros text. exact I.
    - apply in_map. exact Hr.
    - intros q. apply in_map. exact Hr. }
  destruct (H st) as (l & Hl & HP).
  assert (Ev : events_of (monitor w) st = l).
  { apply events_of_spec. exact Hl. }
  rewrite Ev in Hin. rewrite Forall_forall in HP. specialize (HP e Hin).
  destruct e as [[| s i n | s] | [s q | s q] | text | n]; simpl in HP;
    try contradiction.
  - left. exists s. split; [reflexivity | exact HP].
  - right. left. exists s, q. split; [reflexivity | exact HP].
  - right. right. exists text. reflexivity.
Qed.

Lemma monitor_never_buys_witness :
  (exists s, Get (ticker_price BBB) = Get (ticker_price s) /\
             In s (map symbol (positions two_positions))) \/
  (exists s q, Get (ticker_price BBB) = Post (MarketSell s q) /\
               In s (map symbol (positions two_positions))) \/
  (exists text, Get (ticker_price BBB) = Telegram text).
Proof.
  apply (monitor_never_buys (calm 100 60) two_positions).
  vm_compute. right. left. reflexivity.
Defined.

(** * Further properties: Discovery *)

(** X11. Discovery, whatever its outcome, closes nothing: a symbol that
    has a row in the table before the walk over the new symbols has one
    after it. *)
Theorem discovery_never_closes :
  forall (w : env) (new : list string) (st : state) (s : string),
    In s (map symbol (positions st)) ->
    In s (map symbol (positions (final (for_each (discover w) new) st))).
Proof.
  intros w new st s.
  assert (H : respects keeps_symbols (for_each (discover w) new)).
  { step respects_for_each. intros x _. apply discover_keeps_symbols. }
  apply (H st s).
Qed.

Lemma discovery_never_closes_witness :
  In BBB
    (map symbol
       (positions
          (final (for_each (discover (fresh_listing 100 60)) [AAA; BBB])
             two_positions))).
Proof.
  apply (discovery_never_closes (fresh_listing 100 60) [AAA; BBB]
           two_positions BBB).
  simpl. right. left. reflexivity.
Defined.

Lemma discover_events w s st :
  In (Get (klines s INTERVAL CANDLE_LIMIT)) (events_of (discover w s) st) /\
  (all_flat (http_get w (klines s INTERVAL CANDLE_LIMIT)) = true ->
   In (Post (MarketBuy s (BUY_USDT_AMOUNT w))) (events_of (discover w s) st)).
Proof.
  set (st1 := mkState (positions st) (known st)
                (trace st ++ [Get (klines s INTERVAL CANDLE_LIMIT)])).
  destruct (all_flat (http_get w (klines s INTERVAL CANDLE_LIMIT))) eqn:Hf.
  - destruct (market_buy_posts_first w s st1) as [rest Hrest].
    pose proof (trace_events_of (market_buy w s) st1 (market_buy_grows w s))
      as Ht.
    rewrite Hrest in Ht.
    rewrite (events_of_spec _ _
               (Get (klines s INTERVAL CANDLE_LIMIT)
                :: Post (MarketBuy s (BUY_USDT_AMOUNT w)) :: rest)).
    + split; [left; reflexivity | intros _; right; left; reflexivity].
    + unfold final in *. rewrite discover_eq, Hf. fold st1. rewrite Ht.
      unfold st1. cbn [trace]. rewrite <- app_assoc. reflexivity.
  - rewrite (events_of_spec _ _ [Get (klines s INTERVAL CANDLE_LIMIT)]).
    + split; [left; reflexivity | intros E; discriminate E].
    + unfold final. rewrite discover_eq, Hf. reflexivity.
Qed.

Lemma discovery_events w new :
  forall st st' s,
    for_each (discover w) new st = (Ok tt, st') ->
    In s new ->
    In (Get (klines s INTERVAL CANDLE_LIMIT))
       (events_of (for_each (discover w) new) st) /\
    (all_flat (http_get w (klines s INTERVAL CANDLE_LIMIT)) = true ->
     In (Post (MarketBuy s (BUY_USDT_AMOUNT w)))
        (events_of (for_each (discover w) new) st)).
Proof.
  induction new as [| x new IH]; intros st st' s H Hin; [contradiction |].
  apply for_each_inv_Ok in H. destruct H as (st1 & Hx & Hrest).
  assert (Hg : respects grows (for_each (discover w) new)).
  { step respects_for_each. intros y _. apply discover_grows. }
  simpl for_each.
  rewrite (events_of_bind_Ok (discover w x)
             (fun _ => for_each (discover w) new) st tt st1 Hx
             (discover_grows w x) Hg).
  destruct Hin as [-> | Hin].
  - destruct (discover_events w s st) as [H1 H2]. split.
    + apply in_or_app. left. exact H1.
    + intros Hf. apply in_or_app. left. apply H2. exact Hf.
  - destruct (IH st1 st' s Hrest Hin) as [H1 H2]. split.
    + apply in_or_app. right. exact H1.
    + intros Hf. apply in_or_app. right. apply H2. exact Hf.
Qed.

Lemma running_events_eq w st l :
  bot_running w = true ->
  http_get w exchangeInfo = Some (ExchangeInfoBody l) ->
  events_of (iteration w) st =
  Get exchangeInfo
  :: events_of
       (for_each (discover w) (difference (tradable_symbols l) (known st)) ;;
        monitor w ;; sleep CHECK_INTERVAL)
       (mkState (positions st) (tradable_symbols l)
          (trace st ++ [Get exchangeInfo])).
Proof.
  intros Hw Hi. apply events_of_spec. unfold final.
  rewrite (iteration_running w st l Hw Hi).
  match goal with
  | |- trace (snd (?c ?s2)) = _ =>
      assert (Hg : respects grows c);
      [| pose proof (trace_events_of c s2 Hg) as Ht; unfold final in Ht;
         rewrite Ht; cbn [trace]; rewrite <- app_assoc; reflexivity]
  end.
  step respects_bind.
  - step respects_for_each. intros s _. apply discover_grows.
  - intros _. step respects_bind; [apply monitor_grows |].
    intros _. step (step_emit (R := grows)). exact I.
Qed.

(** X12. The thread starts with an empty known set, whatever the table
    holds: in its first pass, when that pass gets the exchange information
    and returns, every symbol of the tradable universe is taken as newly
    listed.  Candles are requested for each of them, and a BUY is posted
    for each one whose candles are flat, held already or not. *)
Theorem first_pass_surveys_universe :
  forall (w : env) (st : state) (l : list symbol_info) (s : string),
    bot_running w = true ->
    http_get w exchangeInfo = Some (ExchangeInfoBody l) ->
    fst (trading_loop [w] st) = Ok tt ->
    In s (tradable_symbols l) ->
    In (Get (klines s INTERVAL CANDLE_LIMIT))
       (events_of (trading_loop [w]) st) /\
    (all_flat (http_get w (klines s INTERVAL CANDLE_LIMIT)) = true ->
     In (Post (MarketBuy s (BUY_USDT_AMOUNT w)))
        (events_of (trading_loop [w]) st)).
Proof.
  intros w st l s Hw Hi Hok Hs.
  set (st0 := mkState (positions st) [] (trace st ++ [Telegram BotLive])).
  assert (E0 : trading_loop [w] st = (iteration w ;; ret tt) st0)
    by reflexivity.
  rewrite E0 in Hok. unfold bind in Hok.
  destruct (iteration w st0) as [[[] | e] st1] eqn:Hit; [| discriminate Hok].
  assert (Eev : events_of (trading_loop [w]) st =
                Telegram BotLive :: events_of (iteration w) st0).
  { apply events_of_spec. unfold final. rewrite E0. unfold bind, ret.
    pose proof (trace_events_of (iteration w) st0 (iteration_grows w)) as Ht.
    unfold final in Ht. rewrite Hit in *. cbn [snd] in *. rewrite Ht.
    unfold st0. cbn [trace]. rewrite <- app_assoc. reflexivity. }
  rewrite Eev, (running_events_eq w st0 l Hw Hi).
  rewrite (iteration_running w st0 l Hw Hi) in Hit.
  apply bind_inv_Ok in Hit. destruct Hit as ([] & st3 & Hd & Hrest).
  assert (Hnew : In s (difference (tradable_symbols l) (known st0))).
  { apply In_difference. split; [exact Hs | intros []]. }
  destruct (discovery_events w _ _ st3 s Hd Hnew) as [H1 H2].
  assert (Hg1 : respects grows
                  (for_each (discover w)
                     (difference (tradable_symbols l) (known st0)))).
  { step respects_for_each. intros y _. apply discover_grows. }
  assert (Hg2 : respects grows (monitor w ;; sleep CHECK_INTERVAL)).
  { step respects_bind; [apply monitor_grows |].
    intros _. step (step_emit (R := grows)). exact I. }
  rewrite (events_of_bind_Ok _ (fun _ => monitor w ;; sleep CHECK_INTERVAL)
             _ tt st3 Hd Hg1 Hg2).
  split.
  - right. right. apply in_or_app. left. exact H1.
  - intros Hf. right. right. apply in_or_app. left. apply H2. exact Hf.
Qed.

Lemma first_pass_surveys_universe_witness :
  In (Post (MarketBuy AAA (BUY_USDT_AMOUNT (fresh_listing 100 60))))
     (events_of (trading_loop [fresh_listing 100 60]) two_positions).
Proof.
  apply (proj2 (first_pass_surveys_universe (fresh_listing 100 60)
                  two_positions _ AAA eq_refl eq_refl eq_refl
                  (or_introl eq_refl))).
  reflexivity.
Defined.

(** * Further properties: the control channel *)

Lemma prefix_cons_inv a p s :
  String.prefix (String a p) s = true ->
  exists s', s = String a s' /\ String.prefix p s' = true.
Proof.
  destruct s as [| b s']; simpl; [discriminate |].
  destruct (Ascii.ascii_dec a b) as [<- | _]; [| discriminate].
  intros H. exists s'. split; [reflexivity | exact H].
Qed.

(** Replaces a text known to start with a literal by that literal
    followed by a tail. *)
Ltac expose_prefix H :=
  unfold startswith in H;
  repeat match type of H with
         | String.prefix (String _ _) ?s = true =>
             let s' := fresh "tail" in
             let E := fresh "E" in
             apply prefix_cons_inv in H; destruct H as (s' & E & H);
             rewrite E in *; clear E
         end.

Lemma filter_other_length s t :
  primary_key t ->
  List.length (filter (fun x => negb (has_symbol s x)) t) =
  if existsb (has_symbol s) t then pred (List.length t) else List.length t.
Proof.
  unfold primary_key. induction t as [| r t IH]; simpl; intros Hk;
    [reflexivity |].
  apply NoDup_cons_iff in Hk. destruct Hk as [Hr Hk].
  destruct (has_symbol s r) eqn:E; simpl.
  - unfold has_symbol in E. apply String.eqb_eq in E. subst s.
    rewrite IH by exact Hk.
    replace (existsb (has_symbol (symbol r)) t) with false; [reflexivity |].
    symmetry. apply not_true_is_false. intros H. apply existsb_exists in H.
    destruct H as (x & Hx & Ex). unfold has_symbol in Ex.
    apply String.eqb_eq in Ex. apply Hr. rewrite <- Ex. apply in_map. exact Hx.
  - rewrite IH by exact Hk.
    destruct (existsb (has_symbol s) t) eqn:Et; [| reflexivity].
    destruct t as [| x t']; [discriminate Et | reflexivity].
Qed.

Section Control.

Variable strip : string -> string.
Variable split : string -> list string.
Variable float : string -> option Q.

(** X13. For an update whose message, when there is one, has a text
    that is a string or has none: the handler changes at most one of the
    three globals and sends at most one message, addressed to the chat the
    update came from.  With a chat id it answers OK; without one it raises
    KeyError, and then nothing is changed and nothing is sent; without a
    message it answers OK and does nothing.  It never compares the chat
    with the operator's: any chat is obeyed. *)
Theorem webhook_touches_one_global :
  forall (update : option tg_message) (g : globals) (t : table),
    let h := telegram_webhook strip split float update g t in
    ((g_bot_running (globals_after h) = g_bot_running g /\
      g_BUY_USDT_AMOUNT (globals_after h) = g_BUY_USDT_AMOUNT g) \/
     (g_bot_running (globals_after h) = g_bot_running g /\
      g_TARGET_MULTIPLIER (globals_after h) = g_TARGET_MULTIPLIER g) \/
     (g_BUY_USDT_AMOUNT (globals_after h) = g_BUY_USDT_AMOUNT g /\
      g_TARGET_MULTIPLIER (globals_after h) = g_TARGET_MULTIPLIER g)) /\
    (List.length (sent h) <= 1)%nat /\
    (forall to text,
        In (to, text) (sent h) ->
        exists msg chat_id,
          update = Some msg /\ msg_chat_id msg = Some chat_id /\
          to = addressed chat_id) /\
    (forall msg chat_id,
        update = Some msg -> msg_chat_id msg = Some chat_id ->
        answer h = Ok tt) /\
    (forall msg,
        update = Some msg -> msg_chat_id msg = None ->
        answer h = Raise KeyError /\ globals_after h = g /\ sent h = []) /\
    (update = None ->
     answer h = Ok tt /\ globals_after h = g /\ sent h = []).
Proof.
  intros update g t h. subst h. unfold telegram_webhook.
  destruct update as [msg |];
    [destruct (msg_chat_id msg) as [chat_id |] eqn:Hc |].
  - repeat match goal with
           | |- context [if ?b then _ else _] => destruct b
           | |- context [match argument ?a ?b ?c with _ => _ end] =>
               destruct (argument a b c)
           | |- context [match SELECT_all ?x with _ => _ end] =>
               destruct (SELECT_all x)
           end;
      cbn [answer globals_after sent g_bot_running g_BUY_USDT_AMOUNT
           g_TARGET_MULTIPLIER List.length];
      (split; [auto |]); (split; [auto |]);
      (split;
       [| split; [intros; reflexivity |];
          split; [intros m E Hn; injection E as <-; congruence
                 | intros E; discriminate E]]);
      intros to text Hin;
      try (destruct Hin as [Hin | []]; injection Hin as <- _;
           exists msg, chat_id; auto);
      try contradiction.
  - cbn. split; [auto |]. split; [auto |]. split; [intros to text [] |].
    split; [intros m c E Hs; injection E as <-; congruence |].
    split; [intros; repeat split | intros E; discriminate E].
  - cbn. split; [auto |]. split; [auto |]. split; [intros to text [] |].
    split; [intros m c E; discriminate E |].
    split; [intros m E; discriminate E | intros _; repeat split].
Qed.

(** X14. [/setbuy] or [/settarget] without a second word, or with one
    that [float] refuses: the handler answers OK, leaves the three
    globals as they were and sends the usage text of that command. *)
Theorem bad_argument_changes_nothing :
  forall (chat_id : Z) (text : option string) (g : globals) (t : table),
    let stripped :=
      strip (match text with Some s => s | None => EmptyString end) in
    startswith stripped "/setbuy" = true \/
    startswith stripped "/settarget" = true ->
    argument split float stripped = None ->
    let h := telegram_webhook strip split float (Some (mkMessage (Some chat_id) text)) g t in
    answer h = Ok tt /\
    globals_after h = g /\
    sent h =
    [(addressed chat_id,
      if startswith stripped "/setbuy" then BuyUsage else TargetUsage)].
Proof.
  intros chat_id text g t stripped Hcmd Harg h. subst h.
  unfold telegram_webhook. cbn [msg_chat_id msg_text]. fold stripped.
  rewrite Harg. clearbody stripped.
  destruct Hcmd as [H | H]; expose_prefix H; cbn; rewrite ?H;
    repeat split.
Qed.

(** X15. A [/pause] from any chat leaves the buy amount and the target as
    they were, and a pass of the loop that reads the globals afterwards
    does nothing but sleep two seconds; after a [/resume] such a pass
    starts with the request for the exchange information. *)
Theorem pause_and_resume_gate_the_loop :
  forall (chat_id : Z) (text : option string) (g : globals) (t : table)
         (w : env) (st : state),
    let stripped :=
      strip (match text with Some s => s | None => EmptyString end) in
    let h := telegram_webhook strip split float (Some (mkMessage (Some chat_id) text)) g t in
    (stripped = "/pause"%string ->
     globals_after h =
     mkGlobals false (g_BUY_USDT_AMOUNT g) (g_TARGET_MULTIPLIER g) /\
     events_of (iteration (reading (globals_after h) w)) st = [Sleep 2]) /\
    (stripped = "/resume"%string ->
     globals_after h =
     mkGlobals true (g_BUY_USDT_AMOUNT g) (g_TARGET_MULTIPLIER g) /\
     exists rest,
       events_of (iteration (reading (globals_after h) w)) st =
       Get exchangeInfo :: rest).
Proof.
  intros chat_id text g t w st stripped h. subst h.
  unfold telegram_webhook. cbn [msg_chat_id msg_text]. fold stripped.
  clearbody stripped. split; intros ->; cbn [String.eqb globals_after];
    (split; [reflexivity |]).
  - apply events_of_spec. unfold final.
    rewrite iteration_paused by reflexivity. reflexivity.
  - apply running_pass_starts. reflexivity.
Qed.

(** X16. A [/settarget] whose argument [float] reads as [x] sets the
    target to [x] without any check on it, and the new target applies to
    the positions already held: in a pass that reads the globals
    afterwards, a row whose price reaches entry price times [x] is sold
    with the reason TARGET.  The price reaches the product when it is at
    least the float product of line 278, and so when it is a double that
    is at least the exact product, rounding being monotone. *)
Theorem target_applies_to_held_positions :
  forall (chat_id : Z) (text : option string) (g : globals) (t : table)
         (x : Q) (w : env) (r : position) (st : state) (p : Q),
    let stripped :=
      strip (match text with Some s => s | None => EmptyString end) in
    startswith stripped "/settarget" = true ->
    argument split float stripped = Some x ->
    http_get w (ticker_price (symbol r)) = Some (TickerBody p) ->
    float_mul (entry_price r) x <= p \/
    (round_double p == p /\ entry_price r * x <= p) ->
    let h := telegram_webhook strip split float (Some (mkMessage (Some chat_id) text)) g t in
    globals_after h =
    mkGlobals (g_bot_running g) (g_BUY_USDT_AMOUNT g) x /\
    monitor_row (reading (globals_after h) w) r st =
    market_sell (reading (globals_after h) w) (symbol r) TARGET
      (after_price_check r p st).
Proof.
  intros chat_id text g t x w r st p stripped Hcmd Harg Hp Hle h.
  assert (E : globals_after h =
              mkGlobals (g_bot_running g) (g_BUY_USDT_AMOUNT g) x).
  { subst h. unfold telegram_webhook. cbn [msg_chat_id msg_text].
    fold stripped. rewrite Harg. clearbody stripped.
    expose_prefix Hcmd. cbn. rewrite ?Hcmd. reflexivity. }
  split; [exact E |]. rewrite E.
  rewrite (monitor_row_priced (reading _ w) r st p Hp). cbv zeta.
  cbn [reading TARGET_MULTIPLIER g_TARGET_MULTIPLIER].
  assert (Hle' : float_mul (entry_price r) x <= p).
  { destruct Hle as [Hle | [Hd Hle]]; [exact Hle |].
    apply product_reached; assumption. }
  apply Qle_bool_iff in Hle'. rewrite Hle'. reflexivity.
Qed.

(** X17. A [/setbuy] whose argument [float] reads as [amount] sets the
    buy amount to it without any check, and the next order uses it:
    [market_buy] in a pass that reads the globals afterwards posts a BUY
    for that amount of quote currency. *)
Theorem buy_amount_applies_to_next_order :
  forall (chat_id : Z) (text : option string) (g : globals) (t : table)
         (amount : Q) (w : env) (s : string) (st : state),
    let stripped :=
      strip (match text with Some s => s | None => EmptyString end) in
    startswith stripped "/setbuy" = true ->
    argument split float stripped = Some amount ->
    let h := telegram_webhook strip split float (Some (mkMessage (Some chat_id) text)) g t in
    globals_after h =
    mkGlobals (g_bot_running g) amount (g_TARGET_MULTIPLIER g) /\
    exists rest,
      events_of (market_buy (reading (globals_after h) w) s) st =
      Post (MarketBuy s amount) :: rest.
Proof.
  intros chat_id text g t amount w s st stripped Hcmd Harg h.
  assert (E : globals_after h =
              mkGlobals (g_bot_running g) amount (g_TARGET_MULTIPLIER g)).
  { subst h. unfold telegram_webhook. cbn [msg_chat_id msg_text].
    fold stripped. rewrite Harg. clearbody stripped.
    expose_prefix Hcmd. cbn. rewrite ?Hcmd. reflexivity. }
  split; [exact E |]. rewrite E.
  exact (market_buy_posts_first
           (reading (mkGlobals (g_bot_running g) amount
                       (g_TARGET_MULTIPLIER g)) w) s st).
Qed.

(** X18. The count that [/status] reports after a buy that fills, on a
    table with one row per symbol: one more than before when the symbol
    had no row, the same as before when it had one. *)
Theorem status_counts_rows_after_open :
  forall (chat_id : Z) (text : option string) (g : globals)
         (w : env) (s : string) (st : state)
         (data : order_body) (id : Z) (p : Q) (l : list Q),
    strip (match text with Some s => s | None => EmptyString end)
    = "/status"%string ->
    primary_key (positions st) ->
    http_post w (MarketBuy s (BUY_USDT_AMOUNT w)) = Returns data ->
    orderId data = Some id ->
    fills data = Some (p :: l) ->
    sent (telegram_webhook strip split float (Some (mkMessage (Some chat_id) text)) g
            (positions (final (market_buy w s) st))) =
    [(addressed chat_id,
      StatusText (g_bot_running g) (g_BUY_USDT_AMOUNT g)
        (g_TARGET_MULTIPLIER g)
        (if existsb (has_symbol s) (positions st)
         then List.length (positions st)
         else S (List.length (positions st))))].
Proof.
  intros chat_id text g w s st data id p l Htext Hk Hp Hid Hf.
  unfold telegram_webhook. cbn [msg_chat_id msg_text]. rewrite Htext.
  cbn [String.eqb sent]. unfold final.
  rewrite (market_buy_filled w s st data id p l Hp Hid Hf).
  cbn [snd positions]. unfold INSERT_OR_REPLACE.
  rewrite length_app. cbn [symbol List.length].
  rewrite (filter_other_length s (positions st) Hk).
  destruct (existsb (has_symbol s) (positions st)) eqn:E.
  - destruct (positions st) as [| x t']; [discriminate E |].
    simpl. rewrite Nat.add_1_r. reflexivity.
  - rewrite Nat.add_1_r. reflexivity.
Qed.

End Control.

Lemma bad_argument_changes_nothing_witness :
  globals_after
    (telegram_webhook sample_strip sample_split sample_float
       (Some (mkMessage (Some 9%Z) (Some "/setbuy x"%string))) defaults [])
  = defaults.
Proof.
  exact (proj1 (proj2
           (bad_argument_changes_nothing sample_strip sample_split
              sample_float 9%Z (Some "/setbuy x"%string) defaults []
              (or_introl eq_refl) eq_refl))).
Defined.

Lemma pause_and_resume_gate_the_loop_witness :
  events_of
    (iteration
       (reading
          (globals_after
             (telegram_webhook sample_strip sample_split sample_float
                (Some (mkMessage (Some 9%Z) (Some " /pause "%string)))
                defaults []))
          (calm 100 60)))
    two_positions
  = [Sleep 2].
Proof.
  exact (proj2 (proj1
           (pause_and_resume_gate_the_loop sample_strip sample_split
              sample_float 9%Z (Some " /pause "%string) defaults []
              (calm 100 60) two_positions)
           eq_refl)).
Defined.

Lemma target_applies_to_held_positions_witness :
  monitor_row
    (reading
       (globals_after
          (telegram_webhook sample_strip sample_split sample_float
             (Some (mkMessage (Some 9%Z) (Some "/settarget 0"%string)))
             defaults []))
       (calm 5 60))
    (held AAA 100) two_positions
  = market_sell
      (reading
         (globals_after
            (telegram_webhook sample_strip sample_split sample_float
               (Some (mkMessage (Some 9%Z) (Some "/settarget 0"%string)))
               defaults []))
         (calm 5 60))
      AAA TARGET (after_price_check (held AAA 100) 5 two_positions).
Proof.
  apply (target_applies_to_held_positions sample_strip sample_split
           sample_float 9%Z (Some "/settarget 0"%string) defaults [] 0
           (calm 5 60) (held AAA 100) two_positions 5
           eq_refl eq_refl eq_refl).
  right. split.
  - apply Qeq_bool_eq. vm_compute. reflexivity.
  - unfold Qle. simpl. lia.
Defined.

Lemma buy_amount_applies_to_next_order_witness :
  exists rest,
    events_of
      (market_buy
         (reading
            (globals_after
               (telegram_webhook sample_strip sample_split sample_float
                  (Some (mkMessage (Some 9%Z) (Some "/setbuy 25"%string)))
                  defaults []))
            (calm 100 60))
         AAA)
      two_positions
    = Post (MarketBuy AAA 25) :: rest.
Proof.
  exact (proj2
           (buy_amount_applies_to_next_order sample_strip sample_split
              sample_float 9%Z (Some "/setbuy 25"%string) defaults [] 25
              (calm 100 60) AAA two_positions eq_refl eq_refl)).
Defined.

Lemma status_counts_rows_after_open_witness :
  sent
    (telegram_webhook sample_strip sample_split sample_float
       (Some (mkMessage (Some 9%Z) (Some "/status"%string))) defaults
       (positions (final (market_buy (fresh_listing 120 80) AAA)
                     two_positions)))
  = [(Chat 9, StatusText true 1 10 2)].
Proof.
  apply (status_counts_rows_after_open sample_strip sample_split
           sample_float 9%Z (Some "/status"%string) defaults
           (fresh_listing 120 80) AAA two_positions (filled 2 120) 7%Z
           120 [] eq_refl).
  - unfold primary_key. repeat constructor; simpl; intuition discriminate.
  - reflexivity.
  - reflexivity.
  - reflexivity.
Defined.

(** * Further properties: how the operations compose *)

Lemma DELETE_id s t : ~ In s (map symbol t) -> DELETE s t = t.
Proof.
  unfold DELETE. induction t as [| r t IH]; simpl; intros H; [reflexivity |].
  unfold has_symbol at 1.
  destruct (String.eqb_spec (symbol r) s) as [E | E]; simpl.
  - exfalso. apply H. left. exact E.
  - f_equal. apply IH. intros Hin. apply H. right. exact Hin.
Qed.

Lemma DELETE_INSERT r t :
  DELETE (symbol r) (INSERT_OR_REPLACE r t) = DELETE (symbol r) t.
Proof.
  unfold DELETE, INSERT_OR_REPLACE. rewrite filter_app.
  replace (filter (fun x => negb (has_symbol (symbol r) x)) [r])
    with (@nil position)
    by (simpl; unfold has_symbol; rewrite String.eqb_refl; reflexivity).
  rewrite app_nil_r.
  induction t as [| x t IH]; simpl; [reflexivity |].
  destruct (has_symbol (symbol r) x) eqn:E; simpl; [exact IH |].
  rewrite E. simpl. f_equal. exact IH.
Qed.

(** X19. Open then close.  For a symbol that has no row: a buy that
    fills followed by a sell whose request returns leaves the table
    exactly as it was before the buy, and the sell order is for the
    quantity the buy reported as executed. *)
Theorem open_then_close_restores_table :
  forall (w1 w2 : env) (s : string) (why : reason) (st : state)
         (bought sold : order_body) (id : Z) (p : Q) (l : list Q),
    ~ In s (map symbol (positions st)) ->
    http_post w1 (MarketBuy s (BUY_USDT_AMOUNT w1)) = Returns bought ->
    orderId bought = Some id ->
    fills bought = Some (p :: l) ->
    let q := match executedQty bought with Some q => q | None => 0 end in
    http_post w2 (MarketSell s q) = Returns sold ->
    let st1 := final (market_buy w1 s) st in
    fst (market_sell w2 s why st1) = Ok tt /\
    events_of (market_sell w2 s why) st1 =
    [Post (MarketSell s q); Telegram (SellExecuted why s sold)] /\
    positions (final (market_sell w2 s why) st1) = positions st.
Proof.
  intros w1 w2 s why st bought sold id p l Habs Hp Hid Hf q Hsell st1.
  pose proof (market_buy_filled w1 s st bought id p l Hp Hid Hf) as E1.
  cbv zeta in E1. fold q in E1.
  set (row := mkPosition s q p (time_time w1 (AtBuy s)) p) in *.
  assert (Hst1 : positions st1 = INSERT_OR_REPLACE row (positions st)).
  { unfold st1, final. rewrite E1. reflexivity. }
  assert (Hr : SELECT_one s (positions st1) = Some row).
  { rewrite Hst1. apply (SELECT_one_INSERT_same row). }
  pose proof (market_sell_returns w2 s why st1 row sold Hr Hsell) as E2.
  unfold final. rewrite (events_of_spec _ _
    [Post (MarketSell s q); Telegram (SellExecuted why s sold)])
    by (unfold final; rewrite E2; reflexivity).
  rewrite E2. cbn [fst snd positions].
  split; [reflexivity |]. split; [reflexivity |].
  rewrite Hst1.
  change (DELETE s (INSERT_OR_REPLACE row (positions st)))
    with (DELETE (symbol row) (INSERT_OR_REPLACE row (positions st))).
  rewrite (DELETE_INSERT row (positions st)).
  apply (DELETE_id s). exact Habs.
Qed.

Lemma open_then_close_restores_table_witness :
  positions
    (final (market_sell (calm 100 90) AAA TIMEOUT)
       (final (market_buy (fresh_listing 100 60) AAA)
          (mkState [held BBB 100] [] [])))
  = [held BBB 100].
Proof.
  refine (proj2 (proj2
            (open_then_close_restores_table (fresh_listing 100 60)
               (calm 100 90) AAA TIMEOUT (mkState [held BBB 100] [] [])
               (filled 2 100) (filled 1 100) 7%Z 100 [] _
               eq_refl eq_refl eq_refl eq_refl))).
  simpl. intros [H | []]. discriminate H.
Defined.

(** X20. A price that sets a new mark does not trip the trailing stop,
    unless it is as small as the smallest doubles: for a price of at
    least [2^-1021] above the stored mark, with the target test and the
    timeout test of lines 278 and 282 both false, [monitor_row] writes the
    price as the new mark and returns with the position still held.  The
    product of the mark and of [1 - 0.15] is rounded, and above the
    subnormals the rounded product stays below the mark. *)
Theorem new_high_never_trails :
  forall (w : env) (r : position) (st : state) (p : Q),
    SELECT_one (symbol r) (positions st) = Some r ->
    http_get w (ticker_price (symbol r)) = Some (TickerBody p) ->
    high_price r < p ->
    2 ^ (-1021) <= p ->
    ~ float_mul (entry_price r) (TARGET_MULTIPLIER w) <= p ->
    ~ 420 <= float_sub (time_time w (AtTimeoutCheck (symbol r)))
               (entry_time r) ->
    monitor_row w r st =
    (Ok tt,
     mkState (UPDATE_high_price p (symbol r) (positions st)) (known st)
       (trace st ++ [Get (ticker_price (symbol r))])) /\
    SELECT_one (symbol r) (positions (final (monitor_row w r) st)) =
    Some (mkPosition (symbol r) (qty r) (entry_price r) (entry_time r) p).
Proof.
  intros w r st p Hr Hp Hhigh Hpos Htarget Htime.
  assert (Hlt : Qlt_bool (high_price r) p = true).
  { unfold Qlt_bool. apply negb_true_iff. apply not_true_is_false.
    intros H. apply Qle_bool_iff in H. lra. }
  pose proof (mark_above_trailing_stop p Hpos) as Htrail.
  assert (E : monitor_row w r st =
              (Ok tt,
               mkState (UPDATE_high_price p (symbol r) (positions st))
                 (known st) (trace st ++ [Get (ticker_price (symbol r))]))).
  { rewrite (monitor_row_priced w r st p Hp). cbv zeta.
    unfold after_price_check, high_water. rewrite Hlt.
    replace (Qle_bool (float_mul (entry_price r) (TARGET_MULTIPLIER w)) p)
      with false
      by (symmetry; apply not_true_is_false; intros H;
          apply Qle_bool_iff in H; contradiction).
    replace (Qle_bool p (float_mul p (float_sub 1 TRAIL_PERCENT)))
      with false
      by (symmetry; apply not_true_is_false; intros H;
          apply Qle_bool_iff in H; lra).
    replace (Qle_bool SELL_TIMEOUT
               (float_sub (time_time w (AtTimeoutCheck (symbol r)))
                  (entry_time r)))
      with false
      by (symmetry; apply not_true_is_false; intros H;
          apply Qle_bool_iff in H; apply Htime; exact H).
    reflexivity. }
  split; [exact E |]. unfold final. rewrite E. cbn [snd positions].
  rewrite SELECT_one_UPDATE_same, Hr. reflexivity.
Qed.

Lemma new_high_never_trails_witness :
  SELECT_one AAA
    (positions (final (monitor_row (calm 150 60) (held AAA 100))
                  two_positions))
  = Some (mkPosition AAA 1 100 0 150).
Proof.
  apply (new_high_never_trails (calm 150 60) (held AAA 100) two_positions
           150 eq_refl eq_refl).
  - reflexivity.
  - apply Qle_bool_iff. vm_compute. reflexivity.
  - intros H. apply Qle_bool_iff in H. vm_compute in H. discriminate H.
  - intros H. apply Qle_bool_iff in H. vm_compute in H. discriminate H.
Defined.

Lemma pass_requests_new w st st' l s :
  bot_running w = true ->
  http_get w exchangeInfo = Some (ExchangeInfoBody l) ->
  iteration w st = (Ok tt, st') ->
  In s (difference (tradable_symbols l) (known st)) ->
  In (Get (klines s INTERVAL CANDLE_LIMIT)) (events_of (iteration w) st) /\
  (all_flat (http_get w (klines s INTERVAL CANDLE_LIMIT)) = true ->
   In (Post (MarketBuy s (BUY_USDT_AMOUNT w))) (events_of (iteration w) st)).
Proof.
  intros Hw Hi Hit Hnew.
  rewrite (running_events_eq w st l Hw Hi).
  rewrite (iteration_running w st l Hw Hi) in Hit.
  apply bind_inv_Ok in Hit. destruct Hit as ([] & st3 & Hd & Hrest).
  destruct (discovery_events w _ _ st3 s Hd Hnew) as [H1 H2].
  assert (Hg1 : respects grows
                  (for_each (discover w)
                     (difference (tradable_symbols l) (known st)))).
  { step respects_for_each. intros y _. apply discover_grows. }
  assert (Hg2 : respects grows (monitor w ;; sleep CHECK_INTERVAL)).
  { step respects_bind; [apply monitor_grows |].
    intros _. step (step_emit (R := grows)). exact I. }
  rewrite (events_of_bind_Ok _ (fun _ => monitor w ;; sleep CHECK_INTERVAL)
             _ tt st3 Hd Hg1 Hg2).
  split.
  - right. apply in_or_app. left. exact H1.
  - intros Hf. right. apply in_or_app. left. apply H2. exact Hf.
Qed.

(** * Discovery: the universe and the known set *)

(** C9. In every pass, a candle request or a BUY order is about a symbol
    that the exchange lists with status TRADING, whose name ends with
    USDT and which is not in the known set.  A running pass that reads
    the listing [l] replaces the known set by the filtered listing: a
    symbol is known afterwards exactly when [l] lists it with status
    TRADING and a name that ends with USDT, whatever the set held before;
    and when the pass returns, the candles of every symbol of the
    filtered listing that was not known before have been requested.  A
    paused pass, or one that reads no listing, leaves the known set as it
    is and looks up nothing.  A pair quoted in another currency is
    therefore never looked up, never bought and never known. *)
Theorem discovery_universe :
  forall (w : env) (st : state),
    (forall e s,
        In e (events_of (iteration w) st) ->
        discovered e = Some s ->
        exists l i,
          http_get w exchangeInfo = Some (ExchangeInfoBody l) /\
          In i l /\ info_symbol i = s /\
          info_status i = "TRADING"%string /\
          endswith s "USDT" = true /\
          ~ In s (known st)) /\
    (forall l,
        bot_running w = true ->
        http_get w exchangeInfo = Some (ExchangeInfoBody l) ->
        known (final (iteration w) st) = tradable_symbols l /\
        (forall s,
            In s (known (final (iteration w) st)) <->
            exists i, In i l /\ info_symbol i = s /\
                      info_status i = "TRADING"%string /\
                      endswith s "USDT" = true) /\
        (forall st' s,
            iteration w st = (Ok tt, st') ->
            In s (tradable_symbols l) ->
            ~ In s (known st) ->
            In (Get (klines s INTERVAL CANDLE_LIMIT))
               (events_of (iteration w) st))) /\
    (bot_running w = false \/
     (forall l, http_get w exchangeInfo <> Some (ExchangeInfoBody l)) ->
     known (final (iteration w) st) = known st /\
     forall e, In e (events_of (iteration w) st) -> discovered e = None).
Proof.
  intros w st. split; [| split].
  - destruct (iteration_cases w)
      as [Hw | [[Hw Hi] | [(Hw & Hi & Hn) | (Hw & l & Hi)]]].
    + pose proof (iteration_paused w st Hw) as E.
      assert (Ev : events_of (iteration w) st = [Sleep 2]).
      { apply events_of_spec. unfold final. rewrite E. reflexivity. }
      rewrite Ev. intros e s [<- | []] D. discriminate D.
    + pose proof (iteration_no_info w st Hw Hi) as E.
      assert (Ev : events_of (iteration w) st = [Get exchangeInfo; Sleep 5]).
      { apply events_of_spec. unfold final. rewrite E. reflexivity. }
      rewrite Ev. intros e s [<- | [<- | []]] D; discriminate D.
    + destruct (iteration_bad_info w st Hw Hi Hn) as [x E].
      assert (Ev : events_of (iteration w) st = [Get exchangeInfo]).
      { apply events_of_spec. unfold final. rewrite E. reflexivity. }
      rewrite Ev. intros e s [<- | []] D. discriminate D.
    + destruct (running_events w st l Hw Hi) as (evs & Ev & HP).
      rewrite Ev. intros e s [<- | Hin] D; [discriminate D |].
      rewrite Forall_forall in HP. specialize (HP e Hin s D).
      apply In_difference in HP. destruct HP as [Hs Hk].
      apply In_tradable_symbols in Hs.
      destruct Hs as (i & Hin' & Hs & Ht & Hu).
      exists l, i. repeat split; assumption.
  - intros l Hw Hi. pose proof (running_known w st l Hw Hi) as K.
    split; [exact K |]. split.
    + intros s. rewrite K. apply In_tradable_symbols.
    + intros st' s Hit Hs Hk.
      apply (pass_requests_new w st st' l s Hw Hi Hit).
      apply In_difference. split; assumption.
  - intros Hcase.
    destruct (iteration_cases w)
      as [Hw | [[Hw Hi] | [(Hw & Hi & Hn) | (Hw & l & Hi)]]].
    + pose proof (iteration_paused w st Hw) as E.
      assert (Ev : events_of (iteration w) st = [Sleep 2]).
      { apply events_of_spec. unfold final. rewrite E. reflexivity. }
      unfold final. rewrite Ev, E. split; [reflexivity |].
      intros e [<- | []]. reflexivity.
    + pose proof (iteration_no_info w st Hw Hi) as E.
      assert (Ev : events_of (iteration w) st = [Get exchangeInfo; Sleep 5]).
      { apply events_of_spec. unfold final. rewrite E. reflexivity. }
      unfold final. rewrite Ev, E. split; [reflexivity |].
      intros e [<- | [<- | []]]; reflexivity.
    + destruct (iteration_bad_info w st Hw Hi Hn) as [x E].
      assert (Ev : events_of (iteration w) st = [Get exchangeInfo]).
      { apply events_of_spec. unfold final. rewrite E. reflexivity. }
      unfold final. rewrite Ev, E. split; [reflexivity |].
      intros e [<- | []]. reflexivity.
    + exfalso. destruct Hcase as [Hf | Hn].
      * rewrite Hw in Hf. discriminate Hf.
      * exact (Hn l Hi).
Qed.

(** The listing holds [AAA] against USDT and against BTC, both TRADING,
    and [BBB] with another status: only the first is looked up, and only
    the first is known afterwards. *)
Lemma discovery_universe_witness :
  known (final (iteration (fresh_listing 100 60)) (mkState [] [BBB] []))
  = [AAA] /\
  In (Get (klines AAA INTERVAL CANDLE_LIMIT))
     (events_of (iteration (fresh_listing 100 60)) (mkState [] [BBB] [])) /\
  ~ In (Get (klines "AAABTC" INTERVAL CANDLE_LIMIT))
       (events_of (iteration (fresh_listing 100 60)) (mkState [] [BBB] [])).
Proof.
  destruct (discovery_universe (fresh_listing 100 60) (mkState [] [BBB] []))
    as (Honly & Hrun & _).
  destruct (Hrun _ eq_refl eq_refl) as (K & _ & Hreq).
  split; [exact K |]. split.
  - apply (Hreq (final (iteration (fresh_listing 100 60))
                   (mkState [] [BBB] [])) AAA).
    + vm_compute. reflexivity.
    + vm_compute. left. reflexivity.
    + simpl. intros [H | []]. discriminate H.
  - intros Hin.
    destruct (Honly _ "AAABTC"%string Hin eq_refl)
      as (l & i & _ & _ & _ & _ & Hu & _).
    vm_compute in Hu. discriminate Hu.
Defined.

(** * Further properties: a symbol that comes back *)

(** X21. The known set is replaced in each pass, not added to: a symbol
    that is missing from the tradable universe in one pass and back in
    the next is taken as newly listed again.  Its candles are requested
    and, when they are flat, a BUY is posted, even if it was known, or
    held, before. *)
Theorem relisted_symbol_is_discovered_again :
  forall (w1 w2 : env) (st st1 st2 : state)
         (l1 l2 : list symbol_info) (s : string),
    bot_running w1 = true ->
    http_get w1 exchangeInfo = Some (ExchangeInfoBody l1) ->
    bot_running w2 = true ->
    http_get w2 exchangeInfo = Some (ExchangeInfoBody l2) ->
    ~ In s (tradable_symbols l1) ->
    In s (tradable_symbols l2) ->
    iteration w1 st = (Ok tt, st1) ->
    iteration w2 st1 = (Ok tt, st2) ->
    In (Get (klines s INTERVAL CANDLE_LIMIT)) (events_of (iteration w2) st1) /\
    (all_flat (http_get w2 (klines s INTERVAL CANDLE_LIMIT)) = true ->
     In (Post (MarketBuy s (BUY_USDT_AMOUNT w2)))
        (events_of (iteration w2) st1)).
Proof.
  intros w1 w2 st st1 st2 l1 l2 s Hw1 Hi1 Hw2 Hi2 Hout Hback H1 H2.
  apply (pass_requests_new w2 st1 st2 l2 s Hw2 Hi2 H2).
  apply In_difference. split; [exact Hback |].
  pose proof (running_known w1 st l1 Hw1 Hi1) as K.
  unfold final in K. rewrite H1 in K. cbn [snd] in K. rewrite K. exact Hout.
Qed.

Lemma relisted_symbol_is_discovered_again_witness :
  In (Post (MarketBuy AAA 1))
     (events_of (iteration (fresh_listing 100 70))
        (final (iteration (delisted 100 60)) two_positions)).
Proof.
  refine (proj2
            (relisted_symbol_is_discovered_again (delisted 100 60)
               (fresh_listing 100 70) two_positions
               (final (iteration (delisted 100 60)) two_positions)
               (final (iteration (fresh_listing 100 70))
                  (final (iteration (delisted 100 60)) two_positions))
               _ _ AAA eq_refl eq_refl eq_refl eq_refl _
               (or_introl eq_refl) _ _)
            eq_refl).
  - intros [].
  - vm_compute. reflexivity.
  - vm_compute. reflexivity.
Defined.
